(** * perfK0sResolution: acceptance filter and histogram filling

    Shallow embedding of [DPG/Tasks/AOTTrack/V0Cascades/perfK0sResolution.cxx]:
    the candidate acceptance function [acceptV0], the table filters and the
    two process functions [processData] and [processMC].

    Numeric model.  A floating-point column or configurable is a rational
    number or NaN ([float]): arithmetic on numbers is exact and gives NaN as
    soon as an operand is NaN, and every comparison with NaN is false, as in
    the source.  Rounding and infinities are not modelled.  A quotient whose
    divisor is zero is kept apart: fill coordinates are [option float], with
    [None] standing for the result of a division by zero.  Integer columns
    are [N] (unsigned counts and indices) or [Z] (signed codes and the
    integer configurables). *)

From Stdlib Require Import ZArith NArith QArith Qabs Bool List String Lia Lqa Permutation.
Import ListNotations.

Open Scope Q_scope.

(** ** Floating-point numbers *)

(** A floating-point value: a number or NaN. *)
Inductive float : Type :=
| Num (q : Q)
| NaN.

Declare Scope float_scope.
Delimit Scope float_scope with F.
Bind Scope float_scope with float.

Coercion Num : Q >-> float.

(** [a < b] on rationals, as a boolean. *)
Definition Qltb (a b : Q) : bool :=
  (Qnum a * QDen b <? Qnum b * QDen a)%Z.

(** [a < b]: false when an operand is NaN. *)
Definition Fltb (a b : float) : bool :=
  match a, b with
  | Num x, Num y => Qltb x y
  | _, _ => false
  end.

(** [TMath::Abs], [abs] and [nabs]. *)
Definition Fabs (a : float) : float :=
  match a with
  | Num x => Num (Qabs x)
  | NaN => NaN
  end.

Definition Fopp (a : float) : float :=
  match a with
  | Num x => Num (- x)
  | NaN => NaN
  end.

Definition Fadd (a b : float) : float :=
  match a, b with
  | Num x, Num y => Num (x + y)
  | _, _ => NaN
  end.

Definition Fsub (a b : float) : float :=
  match a, b with
  | Num x, Num y => Num (x - y)
  | _, _ => NaN
  end.

Definition Fmul (a b : float) : float :=
  match a, b with
  | Num x, Num y => Num (x * y)
  | _, _ => NaN
  end.

Notation "- a" := (Fopp a) : float_scope.
Infix "+" := Fadd : float_scope.
Infix "-" := Fsub : float_scope.
Infix "*" := Fmul : float_scope.

(** The value is zero. *)
Definition Fis_zero (a : float) : bool :=
  match a with
  | Num x => Qeq_bool x 0
  | NaN => false
  end.

(** [a / b] for a divisor that is not zero. *)
Definition Fquot (a b : float) : float :=
  match a, b with
  | Num x, Num y => Num (x / y)
  | _, _ => NaN
  end.

(** [a / b]; [None] when the divisor is zero. *)
Definition fdiv (a b : float) : option float :=
  if Fis_zero b then None else Some (Fquot a b).

(** [a - b] on operands that may come from a division by zero. *)
Definition fsub (a b : option float) : option float :=
  match a, b with
  | Some x, Some y => Some (x - y)%F
  | _, _ => None
  end.

(** [static_cast<uint32_t>(z)] for an [int] [z]. *)
Definition static_cast_uint32 (z : Z) : N :=
  Z.to_N (z mod 2 ^ 32).

(** Integer and boolean values compared with, or filled as, a
    floating-point number. *)
Definition of_N (n : N) : float := Num (inject_Z (Z.of_N n)).
Definition of_bool (b : bool) : float := Num (if b then 1 else 0).

(** The order and equality of floating-point numbers as propositions; none
    of them holds of NaN. *)
Definition Flt (a b : float) : Prop :=
  match a, b with
  | Num x, Num y => x < y
  | _, _ => False
  end.

Definition Fle (a b : float) : Prop :=
  match a, b with
  | Num x, Num y => x <= y
  | _, _ => False
  end.

Definition Feq (a b : float) : Prop :=
  match a, b with
  | Num x, Num y => x == y
  | _, _ => False
  end.

Infix "<" := Flt : float_scope.
Infix "<=" := Fle : float_scope.
Infix "==" := Feq : float_scope.

Definition isNum (a : float) : Prop :=
  match a with
  | Num _ => True
  | NaN => False
  end.

(** ** Data model: the rows of the joined tables *)

(** A row of [aod::McParticles]. *)
Module McParticle.
Record t : Type := mk {
  pdgCode : Z;
  px : float;
  py : float;
  pz : float;
  pt : float
}.
End McParticle.

(** A row of [PIDTracks]
    ([Tracks] joined with [TracksExtra] and the PID tables). *)
Module Track.
Record t : Type := mk {
  px : float;
  py : float;
  pz : float;
  eta : float;
  itsNClsInnerBarrel : N;
  hasTPC : bool;
  hasTOF : bool;
  hasTRD : bool;
  tpcNSigmaPi : float;
  tpcNClsCrossedRows : N;
  pidForTracking : N;
  tpcInnerParam : float;
  tpcSignal : float
}.

Definition with_itsNClsInnerBarrel (n : N) (x : t) : t :=
    mk (px x) (py x) (pz x) (eta x) n (hasTPC x) (hasTOF x) (hasTRD x)
       (tpcNSigmaPi x) (tpcNClsCrossedRows x) (pidForTracking x)
       (tpcInnerParam x) (tpcSignal x).

Definition with_hasTOF (b : bool) (x : t) : t :=
    mk (px x) (py x) (pz x) (eta x) (itsNClsInnerBarrel x) (hasTPC x) b
       (hasTRD x) (tpcNSigmaPi x) (tpcNClsCrossedRows x) (pidForTracking x)
       (tpcInnerParam x) (tpcSignal x).

Definition with_hasTRD (b : bool) (x : t) : t :=
    mk (px x) (py x) (pz x) (eta x) (itsNClsInnerBarrel x) (hasTPC x)
       (hasTOF x) b (tpcNSigmaPi x) (tpcNClsCrossedRows x) (pidForTracking x)
       (tpcInnerParam x) (tpcSignal x).

Definition with_pidForTracking (pid : N) (x : t) : t :=
    mk (px x) (py x) (pz x) (eta x) (itsNClsInnerBarrel x) (hasTPC x)
       (hasTOF x) (hasTRD x) (tpcNSigmaPi x) (tpcNClsCrossedRows x) pid
       (tpcInnerParam x) (tpcSignal x).
End Track.

(** A row of [soa::Join<PIDTracks, aod::McTrackLabels>]: the track columns
    and the link to the generated particle, [None] when
    [has_mcParticle()] is false. *)
Module McTrack.
Record t : Type := mk {
  track : Track.t;
  mcParticle : option McParticle.t
}.
End McTrack.

(** A row of [SelectedCollisions]. *)
Module Collision.
Record t : Type := mk {
  posX : float;
  posY : float;
  posZ : float;
  sel8 : bool
}.
End Collision.

(** A row of [aod::V0Datas], bound to a track table with rows of type [T]:
    [posTrack] and [negTrack] are what [posTrack_as<..>()] and
    [negTrack_as<..>()] resolve to.  [yK0Short] and [distovertotmom] are
    dynamic columns of the table; the latter takes the primary vertex. *)
Module V0Data.
Record t (T : Type) : Type := mk {
  yK0Short : float;
  v0radius : float;
  distovertotmom : float -> float -> float -> float;
  mK0Short : float;
  pt : float;
  eta : float;
  phi : float;
  positivept : float;
  negativept : float;
  pxpos : float;
  pypos : float;
  pzpos : float;
  pxneg : float;
  pyneg : float;
  pzneg : float;
  dcapostopv : float;
  dcanegtopv : float;
  dcaV0daughters : float;
  v0cosPA : float;
  posTrack : T;
  negTrack : T
}.
Arguments mk {T}.
Arguments yK0Short {T}.
Arguments v0radius {T}.
Arguments distovertotmom {T}.
Arguments mK0Short {T}.
Arguments pt {T}.
Arguments eta {T}.
Arguments phi {T}.
Arguments positivept {T}.
Arguments negativept {T}.
Arguments pxpos {T}.
Arguments pypos {T}.
Arguments pzpos {T}.
Arguments pxneg {T}.
Arguments pyneg {T}.
Arguments pzneg {T}.
Arguments dcapostopv {T}.
Arguments dcanegtopv {T}.
Arguments dcaV0daughters {T}.
Arguments v0cosPA {T}.
Arguments posTrack {T}.
Arguments negTrack {T}.
End V0Data.

(** A row of [soa::Join<aod::V0Datas, aod::McV0Labels>]: the V0 columns and
    the link to the generated particle, [None] when [has_mcParticle()] is
    false. *)
Module McV0.
Record t : Type := mk {
  v0 : V0Data.t McTrack.t;
  mcParticle : option McParticle.t
}.
End McV0.

(** ** Configuration *)

(** The [Configurable]s of the task and its two process switches. *)
Record Config : Type := mkConfig {
  v0setting_cospa : float;
  v0setting_dcav0dau : float;
  v0setting_dcapostopv : float;
  v0setting_dcanegtopv : float;
  v0setting_radius : float;
  v0setting_rapidity : float;
  v0lifetime : float;
  nMaxTPCNsigma : float;
  itsIbSelectionPos : Z;
  itsIbSelectionNeg : Z;
  trdSelectionPos : Z;
  trdSelectionNeg : Z;
  tofSelectionPos : Z;
  tofSelectionNeg : Z;
  pidHypoPos : Z;
  pidHypoNeg : Z;
  extraCutTPCClusters : float;
  useMultidimHisto : bool;
  enableTPCPlot : bool;
  computeInvMassFromDaughters : bool;
  cutzvertex : float;
  eventSelection : bool;
  doprocessData : bool;
  doprocessMC : bool
}.

(** Constants and library functions the task uses and does not define:
    [pid_constants::sMasses[PID::K0]], [o2::constants::physics::MassPionCharged]
    and [std::sqrt]. *)
Record External : Type := mkExternal {
  sMasses_K0 : float;
  MassPionCharged : float;
  std_sqrt : float -> float
}.

(** ** Control flow of a function body with early returns *)

(** What a call of [acceptV0] ends in: it returns a boolean, or
    [LOG(fatal)] terminates the process with a message. *)
Inductive outcome : Type :=
| Returns (b : bool)
| Fatal (msg : string).

(** A statement either ends the call or falls through to the next one. *)
Definition stmt : Type := option outcome.

Definition seq (s : stmt) (k : outcome) : outcome :=
  match s with
  | Some o => o
  | None => k
  end.

Notation "s ;; k" := (seq s k) (at level 61, right associativity).

(** [if (c) { return false; }] *)
Definition reject_if (c : bool) : stmt :=
  if c then Some (Returns false) else None.

(** ** acceptV0 *)

Section AcceptV0.
Context {T : Type}.
Variable ext : External.
Variable cfg : Config.

Definition acceptV0 (v0 : V0Data.t T) (ntrack ptrack : Track.t)
      (collision : Collision.t) : outcome :=
    (* Apply selections on V0 *)
    reject_if (Fltb (v0setting_rapidity cfg) (Fabs (V0Data.yK0Short v0))) ;;
    reject_if (Fltb (V0Data.v0radius v0) (v0setting_radius cfg)) ;;
    reject_if (Fltb (2.684 * v0lifetime cfg)
                 (V0Data.distovertotmom v0 (Collision.posX collision)
                    (Collision.posY collision) (Collision.posZ collision)
                  * sMasses_K0 ext)) ;;
    (* ITS selection *)
    match itsIbSelectionPos cfg with
    | (-1)%Z => reject_if (0 <? Track.itsNClsInnerBarrel ptrack)%N
    | 0%Z => None
    | 1%Z => reject_if (Track.itsNClsInnerBarrel ptrack <? 1)%N
    | _ => Some (Fatal "Invalid ITS selection for positive daughter")
    end ;;
    match itsIbSelectionNeg cfg with
    | (-1)%Z => reject_if (0 <? Track.itsNClsInnerBarrel ntrack)%N
    | 0%Z => None
    | 1%Z => reject_if (Track.itsNClsInnerBarrel ntrack <? 1)%N
    | _ => Some (Fatal "Invalid ITS selection for negative daughter")
    end ;;
    (* TPC selection *)
    reject_if (negb (Track.hasTPC ntrack) || negb (Track.hasTPC ptrack)) ;;
    reject_if (Fltb (nMaxTPCNsigma cfg) (Fabs (Track.tpcNSigmaPi ntrack))) ;;
    reject_if (Fltb (nMaxTPCNsigma cfg) (Fabs (Track.tpcNSigmaPi ptrack))) ;;
    reject_if (Fltb (of_N (Track.tpcNClsCrossedRows ntrack)) (extraCutTPCClusters cfg)
               || Fltb (of_N (Track.tpcNClsCrossedRows ptrack)) (extraCutTPCClusters cfg)) ;;
    (* TOF selection *)
    match tofSelectionPos cfg with
    | (-1)%Z => reject_if (Track.hasTOF ptrack)
    | 0%Z => None
    | 1%Z => reject_if (negb (Track.hasTOF ptrack))
    | _ => Some (Fatal "Invalid TOF selection for positive daughter")
    end ;;
    match tofSelectionNeg cfg with
    | (-1)%Z => reject_if (Track.hasTOF ntrack)
    | 0%Z => None
    | 1%Z => reject_if (negb (Track.hasTOF ntrack))
    | _ => Some (Fatal "Invalid TOF selection for negative daughter")
    end ;;
    (* TRD selection *)
    match trdSelectionPos cfg with
    | (-1)%Z => reject_if (Track.hasTRD ptrack)
    | 0%Z => None
    | 1%Z => reject_if (negb (Track.hasTRD ptrack))
    | _ => Some (Fatal "Invalid TRD selection for positive daughter")
    end ;;
    match trdSelectionNeg cfg with
    | (-1)%Z => reject_if (Track.hasTRD ntrack)
    | 0%Z => None
    | 1%Z => reject_if (negb (Track.hasTRD ntrack))
    | _ => Some (Fatal "Invalid TRD selection for negative daughter")
    end ;;
    (* PID hypothesis selection *)
    match pidHypoPos cfg with
    | (-1)%Z => None
    | 0%Z | 1%Z | 2%Z | 3%Z | 4%Z =>
        reject_if (negb (Track.pidForTracking ptrack
                         =? static_cast_uint32 (pidHypoPos cfg))%N)
    | _ => Some (Fatal "Invalid PID selection for positive daughter")
    end ;;
    match pidHypoNeg cfg with
    | (-1)%Z => None
    | 0%Z | 1%Z | 2%Z | 3%Z | 4%Z =>
        reject_if (negb (Track.pidForTracking ntrack
                         =? static_cast_uint32 (pidHypoNeg cfg))%N)
    | _ => Some (Fatal "Invalid PID selection for negative daughter")
    end ;;
    Returns true.
End AcceptV0.

(** ** Table filters *)

(** [Filter v0Filter], on the V0 table. *)
Definition v0Filter {T : Type} (cfg : Config) (v0 : V0Data.t T) : bool :=
  Fltb (v0setting_dcapostopv cfg) (Fabs (V0Data.dcapostopv v0)) &&
  Fltb (v0setting_dcanegtopv cfg) (Fabs (V0Data.dcanegtopv v0)) &&
  Fltb (V0Data.dcaV0daughters v0) (v0setting_dcav0dau cfg) &&
  Fltb (v0setting_cospa cfg) (V0Data.v0cosPA v0).

(** [Filter eventFilter], on the collision table. *)
Definition eventFilter (cfg : Config) (collision : Collision.t) : bool :=
  eventSelection cfg && Bool.eqb (Collision.sel8 collision) true.

(** [Filter posZFilter], on the collision table. *)
Definition posZFilter (cfg : Config) (collision : Collision.t) : bool :=
  Fltb (Fabs (Collision.posZ collision)) (cutzvertex cfg).

(** ** Histogram registries *)

(** The two [HistogramRegistry] members of the task. *)
Inductive Registry : Type :=
| rK0sResolution
| rK0sDauResolution.

(** The axes declared in [init]; the last three are the anonymous axes of
    the TPC plot. *)
Inductive Axis : Type :=
| eventAxis | mAxis | pTAxis | pTResAxis | pTResRelAxis | invpTResAxis
| etaAxis | etaAxisPosD | etaAxisNegD | phiAxis | trueK0Axis
| pOverZAxis | dEdxAxis | pidHypothesisAxis.

(** One [add] call: registry, histogram name, axes. *)
Record HistSpec : Type := mkHist {
  h_registry : Registry;
  h_name : string;
  h_axes : list Axis
}.

(** One [fill] call: registry, histogram name, coordinates. *)
Record Fill : Type := mkFill {
  f_registry : Registry;
  f_name : string;
  f_coords : list (option float)
}.

(** The registries only accumulate: their state is the chronological log
    of the [fill] calls made so far. *)
Definition Hists : Type := list Fill.

Definition fill (r : Registry) (name : string) (xs : list (option float))
    (h : Hists) : Hists :=
  h ++ [mkFill r name xs].

(** The histograms [init] registers, in the order of the [add] calls. *)
Definition init (cfg : Config) : list HistSpec :=
  [mkHist rK0sResolution "h1_events" [eventAxis]]
  ++ (if doprocessMC cfg then
        [mkHist rK0sDauResolution "h2_massPosPtRes" [mAxis; pTResAxis];
         mkHist rK0sDauResolution "h2_massNegPtRes" [mAxis; pTResAxis];
         mkHist rK0sDauResolution "h2_genPtPosPtRes" [pTResRelAxis; pTAxis];
         mkHist rK0sDauResolution "h2_genPxPosPxRes" [pTResRelAxis; pTAxis];
         mkHist rK0sDauResolution "h2_genPyPosPyRes" [pTResRelAxis; pTAxis];
         mkHist rK0sDauResolution "h2_genPzPosPzRes" [pTResRelAxis; pTAxis];
         mkHist rK0sDauResolution "h2_genPtNegPtRes" [pTResRelAxis; pTAxis];
         mkHist rK0sDauResolution "h2_genPxNegPxRes" [pTResRelAxis; pTAxis];
         mkHist rK0sDauResolution "h2_genPyNegPyRes" [pTResRelAxis; pTAxis];
         mkHist rK0sDauResolution "h2_genPzNegPzRes" [pTResRelAxis; pTAxis]]
      else [])
  ++ [mkHist rK0sResolution "h2_masspT" [mAxis; pTAxis];
      mkHist rK0sResolution "h2_masseta" [mAxis; etaAxis];
      mkHist rK0sResolution "h2_massphi" [mAxis; phiAxis]]
  ++ (if useMultidimHisto cfg then
        if doprocessMC cfg then
          [mkHist rK0sResolution "thn_mass"
             [mAxis; pTAxis; etaAxis; phiAxis; etaAxisPosD; etaAxisNegD;
              invpTResAxis; invpTResAxis; trueK0Axis]]
        else
          [mkHist rK0sResolution "thn_mass"
             [mAxis; pTAxis; etaAxis; phiAxis; etaAxisPosD; etaAxisNegD]]
      else [])
  ++ (if enableTPCPlot cfg then
        [mkHist rK0sDauResolution "h3_tpc_vs_pid_hypothesis"
           [pOverZAxis; dEdxAxis; pidHypothesisAxis]]
      else []).

(** ** Invariant mass *)

(** Modelled from the spec: [RecoDecay::m] for two prongs, which the task
    calls and which is defined in [Common/Core/RecoDecay.h], is
    [m = sqrt((E1+E2)^2 - |p1+p2|^2)] with [E_i = sqrt(|p_i|^2 + m_i^2)]. *)
Definition RecoDecay_m (ext : External) (p1 p2 : float * float * float)
    (m1 m2 : float) : float :=
  let '(x1, y1, z1) := p1 in
  let '(x2, y2, z2) := p2 in
  let E1 := std_sqrt ext (x1 * x1 + y1 * y1 + z1 * z1 + m1 * m1)%F in
  let E2 := std_sqrt ext (x2 * x2 + y2 * y2 + z2 * z2 + m2 * m2)%F in
  let px := (x1 + x2)%F in
  let py := (y1 + y2)%F in
  let pz := (z1 + z2)%F in
  std_sqrt ext ((E1 + E2) * (E1 + E2) - (px * px + py * py + pz * pz))%F.

(** The [mass] local of both process functions. *)
Definition candidateMass (ext : External) (cfg : Config) (mK0Short : float)
    (posTrack negTrack : Track.t) : float :=
  if computeInvMassFromDaughters cfg then
    RecoDecay_m ext
      (Track.px posTrack, Track.py posTrack, Track.pz posTrack)
      (Track.px negTrack, Track.py negTrack, Track.pz negTrack)
      (MassPionCharged ext) (MassPionCharged ext)
  else mK0Short.

(** ** The process functions *)

(** How a process function ends: it returns with the registries in state
    [h], or a fatal error terminates the process when they are in state
    [h]. *)
Inductive run : Type :=
| Finished (h : Hists)
| Aborted (msg : string) (h : Hists).

(** [for (auto& v0 : fullV0s) { body }] *)
Fixpoint for_each {A : Type} (body : A -> Hists -> run) (l : list A)
    (h : Hists) : run :=
  match l with
  | [] => Finished h
  | v0 :: rest =>
      match body v0 h with
      | Finished h' => for_each body rest h'
      | Aborted msg h' => Aborted msg h'
      end
  end.

(** The fills of [processData] for a candidate that passed [acceptV0]. *)
Definition dataFills (ext : External) (cfg : Config)
    (v0 : V0Data.t Track.t) (h : Hists) : Hists :=
  let posTrack := V0Data.posTrack v0 in
  let negTrack := V0Data.negTrack v0 in
  let mass := candidateMass ext cfg (V0Data.mK0Short v0) posTrack negTrack in
  let h := fill rK0sResolution "h2_masspT" [Some mass; Some (V0Data.pt v0)] h in
  let h := fill rK0sResolution "h2_masseta" [Some mass; Some (V0Data.eta v0)] h in
  let h := fill rK0sResolution "h2_massphi" [Some mass; Some (V0Data.phi v0)] h in
  let h :=
    if useMultidimHisto cfg then
      fill rK0sResolution "thn_mass"
        [Some mass; Some (V0Data.pt v0); Some (V0Data.eta v0);
         Some (V0Data.phi v0); Some (Track.eta posTrack);
         Some (Track.eta negTrack)] h
    else h in
  if enableTPCPlot cfg then
    let h := fill rK0sDauResolution "h3_tpc_vs_pid_hypothesis"
               [Some (Track.tpcInnerParam posTrack);
                Some (Track.tpcSignal posTrack);
                Some (of_N (Track.pidForTracking posTrack))] h in
    fill rK0sDauResolution "h3_tpc_vs_pid_hypothesis"
      [Some (- Track.tpcInnerParam negTrack)%F;
       Some (Track.tpcSignal negTrack);
       Some (of_N (Track.pidForTracking negTrack))] h
  else h.

(** The body of the candidate loop of [processData]. *)
Definition processData_body (ext : External) (cfg : Config)
    (collision : Collision.t) (v0 : V0Data.t Track.t) (h : Hists) : run :=
  let h := fill rK0sResolution "h1_events" [Some (Num 1.5)] h in
  let posTrack := V0Data.posTrack v0 in
  let negTrack := V0Data.negTrack v0 in
  match acceptV0 ext cfg v0 negTrack posTrack collision with
  | Fatal msg => Aborted msg h
  | Returns false => Finished h
  | Returns true => Finished (dataFills ext cfg v0 h)
  end.

Definition processData (ext : External) (cfg : Config)
    (collision : Collision.t) (fullV0s : list (V0Data.t Track.t))
    (h : Hists) : run :=
  let h := fill rK0sResolution "h1_events" [Some (Num 0.5)] h in
  for_each (processData_body ext cfg collision) fullV0s h.

(** [isTrueK0s] of [processMC]. *)
Definition isTrueK0s (v0 : McV0.t) : bool :=
  match McV0.mcParticle v0 with
  | Some mother => (McParticle.pdgCode mother =? 310)%Z
  | None => false
  end.

(** The fills of [processMC] for a candidate that passed [acceptV0] and
    whose daughters are linked to the generated particles [posMc] and
    [negMc]. *)
Definition mcFills (ext : External) (cfg : Config) (mcv0 : McV0.t)
    (posMc negMc : McParticle.t) (h : Hists) : Hists :=
  let v0 := McV0.v0 mcv0 in
  let posTrack := V0Data.posTrack v0 in
  let negTrack := V0Data.negTrack v0 in
  let mass := candidateMass ext cfg (V0Data.mK0Short v0)
                (McTrack.track posTrack) (McTrack.track negTrack) in
  let h := fill rK0sDauResolution "h2_genPtPosPtRes"
             [fdiv (V0Data.positivept v0 - McParticle.pt posMc) (McParticle.pt posMc);
              Some (McParticle.pt posMc)] h in
  let h := fill rK0sDauResolution "h2_genPxPosPxRes"
             [fdiv (V0Data.pxpos v0 - McParticle.px posMc) (McParticle.px posMc);
              Some (McParticle.px posMc)] h in
  let h := fill rK0sDauResolution "h2_genPyPosPyRes"
             [fdiv (V0Data.pypos v0 - McParticle.py posMc) (McParticle.py posMc);
              Some (McParticle.py posMc)] h in
  let h := fill rK0sDauResolution "h2_genPzPosPzRes"
             [fdiv (V0Data.pzpos v0 - McParticle.pz posMc) (McParticle.pz posMc);
              Some (McParticle.pz posMc)] h in
  let h := fill rK0sDauResolution "h2_genPtNegPtRes"
             [fdiv (V0Data.negativept v0 - McParticle.pt negMc) (McParticle.pt negMc);
              Some (McParticle.pt negMc)] h in
  let h := fill rK0sDauResolution "h2_genPxNegPxRes"
             [fdiv (V0Data.pxneg v0 - McParticle.px negMc) (McParticle.px negMc);
              Some (McParticle.px negMc)] h in
  let h := fill rK0sDauResolution "h2_genPyNegPyRes"
             [fdiv (V0Data.pyneg v0 - McParticle.py negMc) (McParticle.py negMc);
              Some (McParticle.py negMc)] h in
  let h := fill rK0sDauResolution "h2_genPzNegPzRes"
             [fdiv (V0Data.pzneg v0 - McParticle.pz negMc) (McParticle.pz negMc);
              Some (McParticle.pz negMc)] h in
  let h := fill rK0sDauResolution "h2_massPosPtRes"
             [Some mass; Some (V0Data.positivept v0 - McParticle.pt posMc)%F] h in
  let h := fill rK0sDauResolution "h2_massNegPtRes"
             [Some mass; Some (V0Data.negativept v0 - McParticle.pt negMc)%F] h in
  let h := fill rK0sResolution "h2_masspT" [Some mass; Some (V0Data.pt v0)] h in
  let h := fill rK0sResolution "h2_masseta" [Some mass; Some (V0Data.eta v0)] h in
  let h := fill rK0sResolution "h2_massphi" [Some mass; Some (V0Data.phi v0)] h in
  if useMultidimHisto cfg then
    fill rK0sResolution "thn_mass"
      [Some mass; Some (V0Data.pt v0); Some (V0Data.eta v0);
       Some (V0Data.phi v0); Some (Track.eta (McTrack.track posTrack));
       Some (Track.eta (McTrack.track negTrack));
       fsub (fdiv 1 (V0Data.positivept v0)) (fdiv 1 (McParticle.pt posMc));
       fsub (fdiv 1 (V0Data.negativept v0)) (fdiv 1 (McParticle.pt negMc));
       Some (of_bool (isTrueK0s mcv0))] h
  else h.

(** The body of the candidate loop of [processMC]. *)
Definition processMC_body (ext : External) (cfg : Config)
    (collision : Collision.t) (mcv0 : McV0.t) (h : Hists) : run :=
  let h := fill rK0sResolution "h1_events" [Some (Num 1.5)] h in
  let posTrack := V0Data.posTrack (McV0.v0 mcv0) in
  let negTrack := V0Data.negTrack (McV0.v0 mcv0) in
  match acceptV0 ext cfg (McV0.v0 mcv0) (McTrack.track negTrack)
          (McTrack.track posTrack) collision with
  | Fatal msg => Aborted msg h
  | Returns false => Finished h
  | Returns true =>
      match McTrack.mcParticle posTrack with
      | None => Finished h
      | Some posMc =>
          match McTrack.mcParticle negTrack with
          | None => Finished h
          | Some negMc =>
              if negb (McParticle.pdgCode posMc =? 211)%Z
                 || negb (McParticle.pdgCode negMc =? -211)%Z
              then Finished h
              else Finished (mcFills ext cfg mcv0 posMc negMc h)
          end
      end
  end.

Definition processMC (ext : External) (cfg : Config)
    (collision : Collision.t) (fullV0s : list McV0.t) (h : Hists) : run :=
  let h := fill rK0sResolution "h1_events" [Some (Num 0.5)] h in
  for_each (processMC_body ext cfg collision) fullV0s h.

(** ** The filtered tables the framework hands to the process functions *)

(** A process function subscribed to [soa::Filtered<..>] tables is called
    for the collisions that pass every filter declared on the collision
    table, with the V0s that pass every filter declared on the V0 table. *)
Definition runData (ext : External) (cfg : Config) (collision : Collision.t)
    (v0s : list (V0Data.t Track.t)) (h : Hists) : run :=
  if eventFilter cfg collision && posZFilter cfg collision then
    processData ext cfg collision (filter (v0Filter cfg) v0s) h
  else Finished h.

Definition runMC (ext : External) (cfg : Config) (collision : Collision.t)
    (v0s : list McV0.t) (h : Hists) : run :=
  if eventFilter cfg collision && posZFilter cfg collision then
    processMC ext cfg collision
      (filter (fun mcv0 => v0Filter cfg (McV0.v0 mcv0)) v0s) h
  else Finished h.

(** ** Variations of a configuration *)

Definition with_itsIbSelectionPos (x : Z) (cfg : Config) : Config :=
  mkConfig (v0setting_cospa cfg) (v0setting_dcav0dau cfg)
    (v0setting_dcapostopv cfg) (v0setting_dcanegtopv cfg)
    (v0setting_radius cfg) (v0setting_rapidity cfg) (v0lifetime cfg)
    (nMaxTPCNsigma cfg) x (itsIbSelectionNeg cfg) (trdSelectionPos cfg)
    (trdSelectionNeg cfg) (tofSelectionPos cfg) (tofSelectionNeg cfg)
    (pidHypoPos cfg) (pidHypoNeg cfg) (extraCutTPCClusters cfg)
    (useMultidimHisto cfg) (enableTPCPlot cfg)
    (computeInvMassFromDaughters cfg) (cutzvertex cfg) (eventSelection cfg)
    (doprocessData cfg) (doprocessMC cfg).

Definition with_tofSelectionPos (x : Z) (cfg : Config) : Config :=
  mkConfig (v0setting_cospa cfg) (v0setting_dcav0dau cfg)
    (v0setting_dcapostopv cfg) (v0setting_dcanegtopv cfg)
    (v0setting_radius cfg) (v0setting_rapidity cfg) (v0lifetime cfg)
    (nMaxTPCNsigma cfg) (itsIbSelectionPos cfg) (itsIbSelectionNeg cfg)
    (trdSelectionPos cfg) (trdSelectionNeg cfg) x (tofSelectionNeg cfg)
    (pidHypoPos cfg) (pidHypoNeg cfg) (extraCutTPCClusters cfg)
    (useMultidimHisto cfg) (enableTPCPlot cfg)
    (computeInvMassFromDaughters cfg) (cutzvertex cfg) (eventSelection cfg)
    (doprocessData cfg) (doprocessMC cfg).

Definition with_pidHypoPos (x : Z) (cfg : Config) : Config :=
  mkConfig (v0setting_cospa cfg) (v0setting_dcav0dau cfg)
    (v0setting_dcapostopv cfg) (v0setting_dcanegtopv cfg)
    (v0setting_radius cfg) (v0setting_rapidity cfg) (v0lifetime cfg)
    (nMaxTPCNsigma cfg) (itsIbSelectionPos cfg) (itsIbSelectionNeg cfg)
    (trdSelectionPos cfg) (trdSelectionNeg cfg) (tofSelectionPos cfg)
    (tofSelectionNeg cfg) x (pidHypoNeg cfg) (extraCutTPCClusters cfg)
    (useMultidimHisto cfg) (enableTPCPlot cfg)
    (computeInvMassFromDaughters cfg) (cutzvertex cfg) (eventSelection cfg)
    (doprocessData cfg) (doprocessMC cfg).

Definition with_pidHypoNeg (x : Z) (cfg : Config) : Config :=
  mkConfig (v0setting_cospa cfg) (v0setting_dcav0dau cfg)
    (v0setting_dcapostopv cfg) (v0setting_dcanegtopv cfg)
    (v0setting_radius cfg) (v0setting_rapidity cfg) (v0lifetime cfg)
    (nMaxTPCNsigma cfg) (itsIbSelectionPos cfg) (itsIbSelectionNeg cfg)
    (trdSelectionPos cfg) (trdSelectionNeg cfg) (tofSelectionPos cfg)
    (tofSelectionNeg cfg) (pidHypoPos cfg) x (extraCutTPCClusters cfg)
    (useMultidimHisto cfg) (enableTPCPlot cfg)
    (computeInvMassFromDaughters cfg) (cutzvertex cfg) (eventSelection cfg)
    (doprocessData cfg) (doprocessMC cfg).

Definition with_useMultidimHisto (x : bool) (cfg : Config) : Config :=
  mkConfig (v0setting_cospa cfg) (v0setting_dcav0dau cfg)
    (v0setting_dcapostopv cfg) (v0setting_dcanegtopv cfg)
    (v0setting_radius cfg) (v0setting_rapidity cfg) (v0lifetime cfg)
    (nMaxTPCNsigma cfg) (itsIbSelectionPos cfg) (itsIbSelectionNeg cfg)
    (trdSelectionPos cfg) (trdSelectionNeg cfg) (tofSelectionPos cfg)
    (tofSelectionNeg cfg) (pidHypoPos cfg) (pidHypoNeg cfg)
    (extraCutTPCClusters cfg) x (enableTPCPlot cfg)
    (computeInvMassFromDaughters cfg) (cutzvertex cfg) (eventSelection cfg)
    (doprocessData cfg) (doprocessMC cfg).

Definition with_enableTPCPlot (x : bool) (cfg : Config) : Config :=
  mkConfig (v0setting_cospa cfg) (v0setting_dcav0dau cfg)
    (v0setting_dcapostopv cfg) (v0setting_dcanegtopv cfg)
    (v0setting_radius cfg) (v0setting_rapidity cfg) (v0lifetime cfg)
    (nMaxTPCNsigma cfg) (itsIbSelectionPos cfg) (itsIbSelectionNeg cfg)
    (trdSelectionPos cfg) (trdSelectionNeg cfg) (tofSelectionPos cfg)
    (tofSelectionNeg cfg) (pidHypoPos cfg) (pidHypoNeg cfg)
    (extraCutTPCClusters cfg) (useMultidimHisto cfg) x
    (computeInvMassFromDaughters cfg) (cutzvertex cfg) (eventSelection cfg)
    (doprocessData cfg) (doprocessMC cfg).

Definition with_computeInvMassFromDaughters (x : bool) (cfg : Config) : Config :=
  mkConfig (v0setting_cospa cfg) (v0setting_dcav0dau cfg)
    (v0setting_dcapostopv cfg) (v0setting_dcanegtopv cfg)
    (v0setting_radius cfg) (v0setting_rapidity cfg) (v0lifetime cfg)
    (nMaxTPCNsigma cfg) (itsIbSelectionPos cfg) (itsIbSelectionNeg cfg)
    (trdSelectionPos cfg) (trdSelectionNeg cfg) (tofSelectionPos cfg)
    (tofSelectionNeg cfg) (pidHypoPos cfg) (pidHypoNeg cfg)
    (extraCutTPCClusters cfg) (useMultidimHisto cfg) (enableTPCPlot cfg) x
    (cutzvertex cfg) (eventSelection cfg) (doprocessData cfg)
    (doprocessMC cfg).

Definition with_itsIbSelectionNeg (x : Z) (cfg : Config) : Config :=
  mkConfig (v0setting_cospa cfg) (v0setting_dcav0dau cfg)
    (v0setting_dcapostopv cfg) (v0setting_dcanegtopv cfg)
    (v0setting_radius cfg) (v0setting_rapidity cfg) (v0lifetime cfg)
    (nMaxTPCNsigma cfg) (itsIbSelectionPos cfg) x (trdSelectionPos cfg)
    (trdSelectionNeg cfg) (tofSelectionPos cfg) (tofSelectionNeg cfg)
    (pidHypoPos cfg) (pidHypoNeg cfg) (extraCutTPCClusters cfg)
    (useMultidimHisto cfg) (enableTPCPlot cfg)
    (computeInvMassFromDaughters cfg) (cutzvertex cfg) (eventSelection cfg)
    (doprocessData cfg) (doprocessMC cfg).

Definition with_tofSelectionNeg (x : Z) (cfg : Config) : Config :=
  mkConfig (v0setting_cospa cfg) (v0setting_dcav0dau cfg)
    (v0setting_dcapostopv cfg) (v0setting_dcanegtopv cfg)
    (v0setting_radius cfg) (v0setting_rapidity cfg) (v0lifetime cfg)
    (nMaxTPCNsigma cfg) (itsIbSelectionPos cfg) (itsIbSelectionNeg cfg)
    (trdSelectionPos cfg) (trdSelectionNeg cfg) (tofSelectionPos cfg) x
    (pidHypoPos cfg) (pidHypoNeg cfg) (extraCutTPCClusters cfg)
    (useMultidimHisto cfg) (enableTPCPlot cfg)
    (computeInvMassFromDaughters cfg) (cutzvertex cfg) (eventSelection cfg)
    (doprocessData cfg) (doprocessMC cfg).

Definition with_trdSelectionPos (x : Z) (cfg : Config) : Config :=
  mkConfig (v0setting_cospa cfg) (v0setting_dcav0dau cfg)
    (v0setting_dcapostopv cfg) (v0setting_dcanegtopv cfg)
    (v0setting_radius cfg) (v0setting_rapidity cfg) (v0lifetime cfg)
    (nMaxTPCNsigma cfg) (itsIbSelectionPos cfg) (itsIbSelectionNeg cfg) x
    (trdSelectionNeg cfg) (tofSelectionPos cfg) (tofSelectionNeg cfg)
    (pidHypoPos cfg) (pidHypoNeg cfg) (extraCutTPCClusters cfg)
    (useMultidimHisto cfg) (enableTPCPlot cfg)
    (computeInvMassFromDaughters cfg) (cutzvertex cfg) (eventSelection cfg)
    (doprocessData cfg) (doprocessMC cfg).

Definition with_trdSelectionNeg (x : Z) (cfg : Config) : Config :=
  mkConfig (v0setting_cospa cfg) (v0setting_dcav0dau cfg)
    (v0setting_dcapostopv cfg) (v0setting_dcanegtopv cfg)
    (v0setting_radius cfg) (v0setting_rapidity cfg) (v0lifetime cfg)
    (nMaxTPCNsigma cfg) (itsIbSelectionPos cfg) (itsIbSelectionNeg cfg)
    (trdSelectionPos cfg) x (tofSelectionPos cfg) (tofSelectionNeg cfg)
    (pidHypoPos cfg) (pidHypoNeg cfg) (extraCutTPCClusters cfg)
    (useMultidimHisto cfg) (enableTPCPlot cfg)
    (computeInvMassFromDaughters cfg) (cutzvertex cfg) (eventSelection cfg)
    (doprocessData cfg) (doprocessMC cfg).

(** ** The statements of [acceptV0], one by one *)

(** The three cuts on the V0. *)
Definition rapidityCut {T : Type} (cfg : Config) (v0 : V0Data.t T) : stmt :=
  reject_if (Fltb (v0setting_rapidity cfg) (Fabs (V0Data.yK0Short v0))).

Definition radiusCut {T : Type} (cfg : Config) (v0 : V0Data.t T) : stmt :=
  reject_if (Fltb (V0Data.v0radius v0) (v0setting_radius cfg)).

Definition lifetimeCut {T : Type} (ext : External) (cfg : Config)
    (v0 : V0Data.t T) (collision : Collision.t) : stmt :=
  reject_if (Fltb (2.684 * v0lifetime cfg)
               (V0Data.distovertotmom v0 (Collision.posX collision)
                  (Collision.posY collision) (Collision.posZ collision)
                * sMasses_K0 ext)).

(** The [switch] on an ITS inner-barrel flag, for a daughter with [n]
    inner-barrel clusters. *)
Definition itsSwitch (sel : Z) (n : N) (msg : string) : stmt :=
  match sel with
  | (-1)%Z => reject_if (0 <? n)%N
  | 0%Z => None
  | 1%Z => reject_if (n <? 1)%N
  | _ => Some (Fatal msg)
  end.

(** The [switch] on a TOF or TRD flag, for a daughter whose [hasTOF()] or
    [hasTRD()] is [present]. *)
Definition detSwitch (sel : Z) (present : bool) (msg : string) : stmt :=
  match sel with
  | (-1)%Z => reject_if present
  | 0%Z => None
  | 1%Z => reject_if (negb present)
  | _ => Some (Fatal msg)
  end.

(** The [switch] on a PID-hypothesis index, for a daughter tracked with
    hypothesis [pid]. *)
Definition pidSwitch (sel : Z) (pid : N) (msg : string) : stmt :=
  match sel with
  | (-1)%Z => None
  | 0%Z | 1%Z | 2%Z | 3%Z | 4%Z =>
      reject_if (negb (pid =? static_cast_uint32 sel)%N)
  | _ => Some (Fatal msg)
  end.

Definition tpcCuts (cfg : Config) (ntrack ptrack : Track.t) : list stmt :=
  [reject_if (negb (Track.hasTPC ntrack) || negb (Track.hasTPC ptrack));
   reject_if (Fltb (nMaxTPCNsigma cfg) (Fabs (Track.tpcNSigmaPi ntrack)));
   reject_if (Fltb (nMaxTPCNsigma cfg) (Fabs (Track.tpcNSigmaPi ptrack)));
   reject_if (Fltb (of_N (Track.tpcNClsCrossedRows ntrack)) (extraCutTPCClusters cfg)
              || Fltb (of_N (Track.tpcNClsCrossedRows ptrack)) (extraCutTPCClusters cfg))].

(** The fifteen statements of [acceptV0] before its final [return true],
    in source order. *)
Definition checks {T : Type} (ext : External) (cfg : Config)
    (v0 : V0Data.t T) (ntrack ptrack : Track.t) (collision : Collision.t)
    : list stmt :=
  [rapidityCut cfg v0; radiusCut cfg v0; lifetimeCut ext cfg v0 collision;
   itsSwitch (itsIbSelectionPos cfg) (Track.itsNClsInnerBarrel ptrack)
     "Invalid ITS selection for positive daughter";
   itsSwitch (itsIbSelectionNeg cfg) (Track.itsNClsInnerBarrel ntrack)
     "Invalid ITS selection for negative daughter"]
  ++ tpcCuts cfg ntrack ptrack
  ++ [detSwitch (tofSelectionPos cfg) (Track.hasTOF ptrack)
        "Invalid TOF selection for positive daughter";
      detSwitch (tofSelectionNeg cfg) (Track.hasTOF ntrack)
        "Invalid TOF selection for negative daughter";
      detSwitch (trdSelectionPos cfg) (Track.hasTRD ptrack)
        "Invalid TRD selection for positive daughter";
      detSwitch (trdSelectionNeg cfg) (Track.hasTRD ntrack)
        "Invalid TRD selection for negative daughter";
      pidSwitch (pidHypoPos cfg) (Track.pidForTracking ptrack)
        "Invalid PID selection for positive daughter";
      pidSwitch (pidHypoNeg cfg) (Track.pidForTracking ntrack)
        "Invalid PID selection for negative daughter"].

(** Statements run in order; the first one that does not fall through
    decides, and [return true] closes the body. *)
Fixpoint first_outcome (l : list stmt) : outcome :=
  match l with
  | [] => Returns true
  | s :: rest => s ;; first_outcome rest
  end.

(** The statements before position [k] all fall through. *)
Definition reaches (k : nat) (l : list stmt) : Prop :=
  Forall (fun s => s = None) (firstn k l).

(** The statements other than the one at position [k], in order. *)
Definition otherStatements (k : nat) (l : list stmt) : list stmt :=
  firstn k l ++ skipn (S k) l.

(** ** Vocabulary of the specification *)

(** A three-way switch holds one of its documented values. *)
Definition validDetSwitch (sel : Z) : Prop :=
  sel = (-1)%Z \/ sel = 0%Z \/ sel = 1%Z.

(** A PID-hypothesis switch holds one of its documented values. *)
Definition validPidSwitch (sel : Z) : Prop :=
  (-1 <= sel <= 4)%Z.

Definition validSwitches (cfg : Config) : Prop :=
  validDetSwitch (itsIbSelectionPos cfg) /\
  validDetSwitch (itsIbSelectionNeg cfg) /\
  validDetSwitch (tofSelectionPos cfg) /\
  validDetSwitch (tofSelectionNeg cfg) /\
  validDetSwitch (trdSelectionPos cfg) /\
  validDetSwitch (trdSelectionNeg cfg) /\
  validPidSwitch (pidHypoPos cfg) /\
  validPidSwitch (pidHypoNeg cfg).

(** What a three-way switch asks of a daughter: [-1] forbids the signal,
    [1] requires it. *)
Definition detConstraint (sel : Z) (present : bool) : Prop :=
  (sel = (-1)%Z -> present = false) /\ (sel = 1%Z -> present = true).

(** What a PID-hypothesis switch asks of a daughter: [-1] nothing, another
    value that the tracking hypothesis equals it. *)
Definition pidConstraint (sel : Z) (pid : N) : Prop :=
  sel = (-1)%Z \/ Z.of_N pid = sel.

(** The conjunction of the predicates of the acceptance filter. *)
Definition allPredicates {T : Type} (ext : External) (cfg : Config)
    (v0 : V0Data.t T) (ntrack ptrack : Track.t) (collision : Collision.t)
    : Prop :=
  (Fabs (V0Data.yK0Short v0) <= v0setting_rapidity cfg)%F /\
  (v0setting_radius cfg <= V0Data.v0radius v0)%F /\
  (V0Data.distovertotmom v0 (Collision.posX collision)
     (Collision.posY collision) (Collision.posZ collision) * sMasses_K0 ext
   <= 2.684 * v0lifetime cfg)%F /\
  detConstraint (itsIbSelectionPos cfg) (0 <? Track.itsNClsInnerBarrel ptrack)%N /\
  detConstraint (itsIbSelectionNeg cfg) (0 <? Track.itsNClsInnerBarrel ntrack)%N /\
  (Track.hasTPC ntrack = true /\ Track.hasTPC ptrack = true) /\
  (Fabs (Track.tpcNSigmaPi ntrack) <= nMaxTPCNsigma cfg)%F /\
  (Fabs (Track.tpcNSigmaPi ptrack) <= nMaxTPCNsigma cfg)%F /\
  ((extraCutTPCClusters cfg <= of_N (Track.tpcNClsCrossedRows ntrack))%F /\
   (extraCutTPCClusters cfg <= of_N (Track.tpcNClsCrossedRows ptrack))%F) /\
  detConstraint (tofSelectionPos cfg) (Track.hasTOF ptrack) /\
  detConstraint (tofSelectionNeg cfg) (Track.hasTOF ntrack) /\
  detConstraint (trdSelectionPos cfg) (Track.hasTRD ptrack) /\
  detConstraint (trdSelectionNeg cfg) (Track.hasTRD ntrack) /\
  pidConstraint (pidHypoPos cfg) (Track.pidForTracking ptrack) /\
  pidConstraint (pidHypoNeg cfg) (Track.pidForTracking ntrack).

(** The floating-point values [acceptV0] compares are numbers: the
    thresholds and the K0 mass on the side of the configuration, the
    rapidity, radius, distance over momentum and TPC deviations on the side
    of the candidate. *)
Definition numericThresholds (ext : External) (cfg : Config) : Prop :=
  isNum (v0setting_rapidity cfg) /\ isNum (v0setting_radius cfg) /\
  isNum (v0lifetime cfg) /\ isNum (sMasses_K0 ext) /\
  isNum (nMaxTPCNsigma cfg) /\ isNum (extraCutTPCClusters cfg).

Definition numericInputs {T : Type} (v0 : V0Data.t T)
    (ntrack ptrack : Track.t) (collision : Collision.t) : Prop :=
  isNum (V0Data.yK0Short v0) /\ isNum (V0Data.v0radius v0) /\
  isNum (V0Data.distovertotmom v0 (Collision.posX collision)
           (Collision.posY collision) (Collision.posZ collision)) /\
  isNum (Track.tpcNSigmaPi ntrack) /\ isNum (Track.tpcNSigmaPi ptrack).

(** The six three-way detector switches. *)
Inductive DetSwitch : Type :=
| ItsPos | ItsNeg | TofPos | TofNeg | TrdPos | TrdNeg.

Definition switchValue (cfg : Config) (sw : DetSwitch) : Z :=
  match sw with
  | ItsPos => itsIbSelectionPos cfg
  | ItsNeg => itsIbSelectionNeg cfg
  | TofPos => tofSelectionPos cfg
  | TofNeg => tofSelectionNeg cfg
  | TrdPos => trdSelectionPos cfg
  | TrdNeg => trdSelectionNeg cfg
  end.

(** The detector signal a switch looks at; for the inner barrel, any
    inner hit. *)
Definition signalPresent (sw : DetSwitch) (ntrack ptrack : Track.t) : bool :=
  match sw with
  | ItsPos => (0 <? Track.itsNClsInnerBarrel ptrack)%N
  | ItsNeg => (0 <? Track.itsNClsInnerBarrel ntrack)%N
  | TofPos => Track.hasTOF ptrack
  | TofNeg => Track.hasTOF ntrack
  | TrdPos => Track.hasTRD ptrack
  | TrdNeg => Track.hasTRD ntrack
  end.

(** Two pairs of daughters that differ at most in the signal a switch
    looks at. *)
Definition sameExceptSignal (sw : DetSwitch)
    (ntrack ptrack ntrack' ptrack' : Track.t) : Prop :=
  match sw with
  | ItsPos => ntrack' = ntrack /\
              exists n, ptrack' = Track.with_itsNClsInnerBarrel n ptrack
  | ItsNeg => ptrack' = ptrack /\
              exists n, ntrack' = Track.with_itsNClsInnerBarrel n ntrack
  | TofPos => ntrack' = ntrack /\ exists b, ptrack' = Track.with_hasTOF b ptrack
  | TofNeg => ptrack' = ptrack /\ exists b, ntrack' = Track.with_hasTOF b ntrack
  | TrdPos => ntrack' = ntrack /\ exists b, ptrack' = Track.with_hasTRD b ptrack
  | TrdNeg => ptrack' = ptrack /\ exists b, ntrack' = Track.with_hasTRD b ntrack
  end.

(** Position of a switch among the statements of [acceptV0]. *)
Definition switchPosition (sw : DetSwitch) : nat :=
  match sw with
  | ItsPos => 3 | ItsNeg => 4
  | TofPos => 9 | TofNeg => 10
  | TrdPos => 11 | TrdNeg => 12
  end.

Definition switchMessage (sw : DetSwitch) : string :=
  match sw with
  | ItsPos => "Invalid ITS selection for positive daughter"
  | ItsNeg => "Invalid ITS selection for negative daughter"
  | TofPos => "Invalid TOF selection for positive daughter"
  | TofNeg => "Invalid TOF selection for negative daughter"
  | TrdPos => "Invalid TRD selection for positive daughter"
  | TrdNeg => "Invalid TRD selection for negative daughter"
  end.

(** A configuration with one detector switch replaced. *)
Definition with_switch (sw : DetSwitch) (x : Z) (cfg : Config) : Config :=
  match sw with
  | ItsPos => with_itsIbSelectionPos x cfg
  | ItsNeg => with_itsIbSelectionNeg x cfg
  | TofPos => with_tofSelectionPos x cfg
  | TofNeg => with_tofSelectionNeg x cfg
  | TrdPos => with_trdSelectionPos x cfg
  | TrdNeg => with_trdSelectionNeg x cfg
  end.

(** The state of the registries when a process function ends. *)
Definition hists_of (r : run) : Hists :=
  match r with
  | Finished h => h
  | Aborted _ h => h
  end.

(** Number of fills a histogram received. *)
Definition count_fills (name : string) (h : Hists) : nat :=
  List.length (filter (fun f => String.eqb (f_name f) name) h).

(** The two ticks of the event counter. *)
Definition eventTick : Fill := mkFill rK0sResolution "h1_events" [Some (Num 0.5)].
Definition candidateTick : Fill := mkFill rK0sResolution "h1_events" [Some (Num 1.5)].

(** The histograms whose first axis is the mass axis. *)
Definition massHistograms : list string :=
  ["h2_massPosPtRes"; "h2_massNegPtRes"; "h2_masspT"; "h2_masseta";
   "h2_massphi"; "thn_mass"]%string.

(** Every coordinate of every fill is a number. *)
Definition allDefined (h : Hists) : Prop :=
  forall f x, In f h -> In x (f_coords f) -> x <> None.

(** A statement that falls through or rejects: it neither accepts nor
    aborts. *)
Definition quiet (s : stmt) : Prop :=
  s = None \/ s = Some (Returns false).

(** A candidate of [processData] that passes [acceptV0]. *)
Definition acceptedData (ext : External) (cfg : Config)
    (collision : Collision.t) (v0 : V0Data.t Track.t) : Prop :=
  acceptV0 ext cfg v0 (V0Data.negTrack v0) (V0Data.posTrack v0) collision
  = Returns true.

(** A candidate of [processMC] that passes [acceptV0]. *)
Definition acceptedMC (ext : External) (cfg : Config)
    (collision : Collision.t) (mcv0 : McV0.t) : Prop :=
  acceptV0 ext cfg (McV0.v0 mcv0)
    (McTrack.track (V0Data.negTrack (McV0.v0 mcv0)))
    (McTrack.track (V0Data.posTrack (McV0.v0 mcv0))) collision
  = Returns true.

(** Both daughters are linked to a generated particle, [posMc] with code
    211 for the positive one and [negMc] with code -211 for the negative
    one. *)
Definition daughtersMatched (mcv0 : McV0.t) (posMc negMc : McParticle.t)
    : Prop :=
  McTrack.mcParticle (V0Data.posTrack (McV0.v0 mcv0)) = Some posMc /\
  McTrack.mcParticle (V0Data.negTrack (McV0.v0 mcv0)) = Some negMc /\
  McParticle.pdgCode posMc = 211%Z /\
  McParticle.pdgCode negMc = (-211)%Z.

(** A daughter link is missing, or a daughter's generated particle does
    not have the expected code. *)
Definition daughtersMismatched (mcv0 : McV0.t) : Prop :=
  McTrack.mcParticle (V0Data.posTrack (McV0.v0 mcv0)) = None \/
  McTrack.mcParticle (V0Data.negTrack (McV0.v0 mcv0)) = None \/
  (exists m, McTrack.mcParticle (V0Data.posTrack (McV0.v0 mcv0)) = Some m /\
             McParticle.pdgCode m <> 211%Z) \/
  (exists m, McTrack.mcParticle (V0Data.negTrack (McV0.v0 mcv0)) = Some m /\
             McParticle.pdgCode m <> (-211)%Z).

(** The histograms an accepted candidate is filled into by [processData],
    one entry per fill. *)
Definition dataFillNames (cfg : Config) : list string :=
  ["h2_masspT"; "h2_masseta"; "h2_massphi"]%string
  ++ (if useMultidimHisto cfg then ["thn_mass"%string] else [])
  ++ (if enableTPCPlot cfg then
        ["h3_tpc_vs_pid_hypothesis"; "h3_tpc_vs_pid_hypothesis"]%string
      else []).

(** The histograms an accepted and matched candidate is filled into by
    [processMC], one entry per fill. *)
Definition mcFillNames (cfg : Config) : list string :=
  ["h2_genPtPosPtRes"; "h2_genPxPosPxRes"; "h2_genPyPosPyRes";
   "h2_genPzPosPzRes"; "h2_genPtNegPtRes"; "h2_genPxNegPxRes";
   "h2_genPyNegPyRes"; "h2_genPzNegPzRes"; "h2_massPosPtRes";
   "h2_massNegPtRes"; "h2_masspT"; "h2_masseta"; "h2_massphi"]%string
  ++ (if useMultidimHisto cfg then ["thn_mass"%string] else []).

(** Number of fills of the event counter at [x]. *)
Definition count_ticks (x : Q) (h : Hists) : nat :=
  List.length
    (filter (fun f =>
               String.eqb (f_name f) "h1_events" &&
               match f_coords f with
               | [Some (Num q)] => Qeq_bool q x
               | _ => false
               end) h).

(** Two fills of the same histogram with the same coordinates, except that
    fills of [thn_mass] may differ in their last coordinate. *)
Definition sameUpToFlag (f f' : Fill) : Prop :=
  f_registry f = f_registry f' /\
  f_name f = f_name f' /\
  if String.eqb (f_name f) "thn_mass"
  then removelast (f_coords f) = removelast (f_coords f')
  else f_coords f = f_coords f'.

(** The two-pion invariant mass of the daughters, written out. *)
Definition twoPionMass (ext : External) (pos neg : Track.t) : float :=
  let m := MassPionCharged ext in
  let E1 := std_sqrt ext (Track.px pos * Track.px pos + Track.py pos * Track.py pos
                          + Track.pz pos * Track.pz pos + m * m)%F in
  let E2 := std_sqrt ext (Track.px neg * Track.px neg + Track.py neg * Track.py neg
                          + Track.pz neg * Track.pz neg + m * m)%F in
  std_sqrt ext
    ((E1 + E2) * (E1 + E2)
     - ((Track.px pos + Track.px neg) * (Track.px pos + Track.px neg)
        + (Track.py pos + Track.py neg) * (Track.py pos + Track.py neg)
        + (Track.pz pos + Track.pz neg) * (Track.pz pos + Track.pz neg)))%F.

(** The two daughters of a candidate and their PID-hypothesis switches. *)
Inductive Daughter : Type :=
| Positive | Negative.

Definition pidHypo (cfg : Config) (d : Daughter) : Z :=
  match d with
  | Positive => pidHypoPos cfg
  | Negative => pidHypoNeg cfg
  end.

Definition with_pidHypo (d : Daughter) (x : Z) (cfg : Config) : Config :=
  match d with
  | Positive => with_pidHypoPos x cfg
  | Negative => with_pidHypoNeg x cfg
  end.

(** The tracking hypothesis recorded for a daughter. *)
Definition trackedAs (d : Daughter) (ntrack ptrack : Track.t) : N :=
  match d with
  | Positive => Track.pidForTracking ptrack
  | Negative => Track.pidForTracking ntrack
  end.

(** Two pairs of daughters that differ at most in the tracking hypothesis
    of daughter [d]. *)
Definition sameExceptPid (d : Daughter)
    (ntrack ptrack ntrack' ptrack' : Track.t) : Prop :=
  match d with
  | Positive => ntrack' = ntrack /\
                exists pid, ptrack' = Track.with_pidForTracking pid ptrack
  | Negative => ptrack' = ptrack /\
                exists pid, ntrack' = Track.with_pidForTracking pid ntrack
  end.

Definition pidPosition (d : Daughter) : nat :=
  match d with
  | Positive => 13
  | Negative => 14
  end.

Definition pidMessage (d : Daughter) : string :=
  match d with
  | Positive => "Invalid PID selection for positive daughter"
  | Negative => "Invalid PID selection for negative daughter"
  end.

(** What a candidate adds to the registries after its tick of the event
    counter. *)
Definition dataContribution (ext : External) (cfg : Config)
    (collision : Collision.t) (v0 : V0Data.t Track.t) : Hists :=
  tl (hists_of (processData_body ext cfg collision v0 [])).

Definition mcContribution (ext : External) (cfg : Config)
    (collision : Collision.t) (mcv0 : McV0.t) : Hists :=
  tl (hists_of (processMC_body ext cfg collision mcv0 [])).

(** ** Vocabulary of the further properties *)

(** The call returned true. *)
Definition returnsTrue (o : outcome) : bool :=
  match o with
  | Returns true => true
  | _ => false
  end.

(** [acceptV0] as [processData] and [processMC] call it. *)
Definition acceptData (ext : External) (cfg : Config)
    (collision : Collision.t) (v0 : V0Data.t Track.t) : outcome :=
  acceptV0 ext cfg v0 (V0Data.negTrack v0) (V0Data.posTrack v0) collision.

Definition acceptMC (ext : External) (cfg : Config)
    (collision : Collision.t) (mcv0 : McV0.t) : outcome :=
  acceptV0 ext cfg (McV0.v0 mcv0)
    (McTrack.track (V0Data.negTrack (McV0.v0 mcv0)))
    (McTrack.track (V0Data.posTrack (McV0.v0 mcv0))) collision.

(** The three checks [processMC] makes on the daughters' generated
    particles, as a boolean. *)
Definition daughtersMatchedb (mcv0 : McV0.t) : bool :=
  match McTrack.mcParticle (V0Data.posTrack (McV0.v0 mcv0)),
        McTrack.mcParticle (V0Data.negTrack (McV0.v0 mcv0)) with
  | Some posMc, Some negMc =>
      (McParticle.pdgCode posMc =? 211)%Z
      && (McParticle.pdgCode negMc =? -211)%Z
  | _, _ => false
  end.

(** The candidate of [processMC] seen without its generated-particle
    links, as [processData] would receive it. *)
Definition stripLabels (v0 : V0Data.t McTrack.t) : V0Data.t Track.t :=
  V0Data.mk (V0Data.yK0Short v0) (V0Data.v0radius v0)
    (V0Data.distovertotmom v0) (V0Data.mK0Short v0) (V0Data.pt v0)
    (V0Data.eta v0) (V0Data.phi v0) (V0Data.positivept v0)
    (V0Data.negativept v0) (V0Data.pxpos v0) (V0Data.pypos v0)
    (V0Data.pzpos v0) (V0Data.pxneg v0) (V0Data.pyneg v0) (V0Data.pzneg v0)
    (V0Data.dcapostopv v0) (V0Data.dcanegtopv v0) (V0Data.dcaV0daughters v0)
    (V0Data.v0cosPA v0) (McTrack.track (V0Data.posTrack v0))
    (McTrack.track (V0Data.negTrack v0)).

(** The fill goes to a histogram that [init] registered in the same
    registry, with as many axes as the fill has coordinates. *)
Definition registeredWithArity (cfg : Config) (f : Fill) : Prop :=
  exists s, In s (init cfg) /\
            h_registry s = f_registry f /\ h_name s = f_name f /\
            List.length (h_axes s) = List.length (f_coords f).

(** The messages of the eight fatal errors. *)
Definition fatalMessages : list string :=
  map switchMessage [ItsPos; ItsNeg; TofPos; TofNeg; TrdPos; TrdNeg]
  ++ map pidMessage [Positive; Negative].

(** The ten resolution histograms of [processMC]. *)
Definition resolutionHistograms : list string :=
  ["h2_genPtPosPtRes"; "h2_genPxPosPxRes"; "h2_genPyPosPyRes";
   "h2_genPzPosPzRes"; "h2_genPtNegPtRes"; "h2_genPxNegPxRes";
   "h2_genPyNegPyRes"; "h2_genPzNegPzRes"; "h2_massPosPtRes";
   "h2_massNegPtRes"]%string.

(** The three mass histograms both process functions fill. *)
Definition commonMassHistograms : list string :=
  ["h2_masspT"; "h2_masseta"; "h2_massphi"]%string.

(** The part of a sequence of fills that both process functions make: the
    fills of the three mass histograms and the first six coordinates of the
    fills of [thn_mass]. *)
Definition commonFills (h : Hists) : Hists :=
  map (fun f => mkFill (f_registry f) (f_name f) (firstn 6 (f_coords f)))
    (filter (fun f => existsb (String.eqb (f_name f))
                        ("thn_mass"%string :: commonMassHistograms)) h).

(** Threshold [b] is [a] or above it. *)
Definition relaxed (a b : float) : Prop :=
  a = b \/ (a <= b)%F.

(** Configuration [cfg'] has the switches of [cfg] and thresholds that are
    the same or less strict. *)
Definition looser (cfg cfg' : Config) : Prop :=
  itsIbSelectionPos cfg' = itsIbSelectionPos cfg /\
  itsIbSelectionNeg cfg' = itsIbSelectionNeg cfg /\
  tofSelectionPos cfg' = tofSelectionPos cfg /\
  tofSelectionNeg cfg' = tofSelectionNeg cfg /\
  trdSelectionPos cfg' = trdSelectionPos cfg /\
  trdSelectionNeg cfg' = trdSelectionNeg cfg /\
  pidHypoPos cfg' = pidHypoPos cfg /\
  pidHypoNeg cfg' = pidHypoNeg cfg /\
  relaxed (v0setting_rapidity cfg) (v0setting_rapidity cfg') /\
  relaxed (v0setting_radius cfg') (v0setting_radius cfg) /\
  relaxed (v0lifetime cfg) (v0lifetime cfg') /\
  relaxed (nMaxTPCNsigma cfg) (nMaxTPCNsigma cfg') /\
  relaxed (extraCutTPCClusters cfg') (extraCutTPCClusters cfg).

(** The predicates of the acceptance filter that compare no
    floating-point value. *)
Definition discretePredicates (cfg : Config) (ntrack ptrack : Track.t)
    : Prop :=
  detConstraint (itsIbSelectionPos cfg) (0 <? Track.itsNClsInnerBarrel ptrack)%N /\
  detConstraint (itsIbSelectionNeg cfg) (0 <? Track.itsNClsInnerBarrel ntrack)%N /\
  (Track.hasTPC ntrack = true /\ Track.hasTPC ptrack = true) /\
  detConstraint (tofSelectionPos cfg) (Track.hasTOF ptrack) /\
  detConstraint (tofSelectionNeg cfg) (Track.hasTOF ntrack) /\
  detConstraint (trdSelectionPos cfg) (Track.hasTRD ptrack) /\
  detConstraint (trdSelectionNeg cfg) (Track.hasTRD ntrack) /\
  pidConstraint (pidHypoPos cfg) (Track.pidForTracking ptrack) /\
  pidConstraint (pidHypoNeg cfg) (Track.pidForTracking ntrack).

(** The first coordinate of the fill is the number zero. *)
Definition zeroFirst (f : Fill) : Prop :=
  exists q, hd_error (f_coords f) = Some (Some (Num q)) /\ (q == 0)%Q.

(** ** Sample inputs *)

(** An approximation of the square root, rounded down to six decimals. *)
Definition sqrt6 (a : float) : float :=
  match a with
  | Num q => if Qltb q 0 then NaN
             else Num (Z.sqrt (Qnum q * 10 ^ 12 / QDen q) # 10 ^ 6)
  | NaN => NaN
  end.

Definition sampleExt : External :=
  mkExternal 0.497611 0.13957039 sqrt6.

(** The default values of the configurables. *)
Definition defaultConfig : Config :=
  mkConfig 0.995 1 0.1 0.1 0.9 0.5 3 10 0 0 0 0 0 0 (-1) (-1) (-1)
    false false false 10 true true false.

Definition samplePos : Track.t :=
  Track.mk 0.2 0.1 0.05 0.2 3 true false false 0 100 2 0.23 50.

Definition sampleNeg : Track.t :=
  Track.mk (-0.1) 0.15 0.02 0.1 2 true true false 0 100 2 0.18 48.

Definition sampleCollision : Collision.t :=
  Collision.mk 0 0 0 true.

(** A candidate with rapidity 0.1 and radius 1.0 that passes the default
    cuts and the default filters. *)
Definition sampleV0 {T : Type} (pos neg : T) : V0Data.t T :=
  V0Data.mk 0.1 1 (fun _ _ _ => 2) 0.4976 0.3 0.1 1 0.22 0.18
    0.2 0.1 0.05 (-0.1) 0.15 0.02 0.2 (-0.3) 0.5 0.999 pos neg.

(** The same candidate with a radius of 0.5, below the radius cut. *)
Definition lowRadiusV0 {T : Type} (pos neg : T) : V0Data.t T :=
  V0Data.mk 0.1 0.5 (fun _ _ _ => 2) 0.4976 0.3 0.1 1 0.22 0.18
    0.2 0.1 0.05 (-0.1) 0.15 0.02 0.2 (-0.3) 0.5 0.999 pos neg.

(** The same candidate exactly on the three cut boundaries of the default
    configuration (with a K0 mass of 1 in the lifetime cut). *)
Definition boundaryV0 {T : Type} (pos neg : T) : V0Data.t T :=
  V0Data.mk (-0.5) 0.9 (fun _ _ _ => 8.052) 0.4976 0.3 0.1 1 0.22 0.18
    0.2 0.1 0.05 (-0.1) 0.15 0.02 0.2 (-0.3) 0.5 0.999 pos neg.

Definition unitMassExt : External :=
  mkExternal 1 0.13957039 sqrt6.

Definition samplePosMc : McParticle.t :=
  McParticle.mk 211 0.21 0.1 0.05 0.23.

Definition sampleNegMc : McParticle.t :=
  McParticle.mk (-211) (-0.1) 0.14 0.02 0.17.

(** A generated positive pion with no momentum along x. *)
Definition zeroPxPosMc : McParticle.t :=
  McParticle.mk 211 0 0.23 0.05 0.23.

Definition sampleKaonMc : McParticle.t :=
  McParticle.mk 321 0.21 0.1 0.05 0.23.

Definition sampleK0sMc : McParticle.t :=
  McParticle.mk 310 0.1 0.25 0.07 0.27.

Definition sampleLambdaMc : McParticle.t :=
  McParticle.mk 3122 0.1 0.25 0.07 0.27.

Definition sampleMcV0 (posMc negMc mother : option McParticle.t) : McV0.t :=
  McV0.mk (sampleV0 (McTrack.mk samplePos posMc) (McTrack.mk sampleNeg negMc))
    mother.

(** The default configuration with the TPC plot enabled. *)
Definition tpcPlotConfig : Config := with_enableTPCPlot true defaultConfig.

(** The default configuration with an undocumented value of
    [itsIbSelectionPos], respectively of [pidHypoPos]. *)
Definition invalidItsConfig : Config := with_itsIbSelectionPos 2 defaultConfig.
Definition invalidPidConfig : Config := with_pidHypoPos 5 defaultConfig.

(** The positive sample daughter with a TPC deviation that is not a
    number. *)
Definition nanSigmaPos : Track.t :=
  Track.mk 0.2 0.1 0.05 0.2 3 true false false NaN 100 2 0.23 50.

(** The default configuration with [processMC] and the multi-dimensional
    histogram enabled next to [processData]. *)
Definition bothProcessesConfig : Config :=
  mkConfig 0.995 1 0.1 0.1 0.9 0.5 3 10 0 0 0 0 0 0 (-1) (-1) (-1)
    true false false 10 true true true.

(** The default configuration with every threshold relaxed. *)
Definition looseConfig : Config :=
  mkConfig 0.995 1 0.1 0.1 0.5 0.8 5 20 0 0 0 0 0 0 (-1) (-1) (-2)
    false false false 10 true true false.

(** Generated daughters whose momenta are those of the sample candidate. *)
Definition exactPosMc : McParticle.t :=
  McParticle.mk 211 0.2 0.1 0.05 0.22.

Definition exactNegMc : McParticle.t :=
  McParticle.mk (-211) (-0.1) 0.15 0.02 0.18.

(** ** Basic facts *)

(** Validity of the switches of a concrete configuration. *)
Ltac valid_switches :=
  unfold validSwitches, validDetSwitch, validPidSwitch; simpl;
  repeat split; auto; lia.

Lemma Qltb_lt (a b : Q) : Qltb a b = true <-> (a < b)%Q.
Proof. unfold Qltb, Qlt. apply Z.ltb_lt. Qed.

Lemma Qltb_ge (a b : Q) : Qltb a b = false <-> (b <= a)%Q.
Proof. unfold Qltb, Qle. apply Z.ltb_ge. Qed.

Lemma Fltb_lt (a b : float) : Fltb a b = true <-> (a < b)%F.
Proof.
  destruct a as [x | ], b as [y | ]; simpl;
    try apply Qltb_lt; split; (discriminate || contradiction).
Qed.

Lemma Fle_ltb (a b : float) : (b <= a)%F -> Fltb a b = false.
Proof.
  destruct a as [x | ], b as [y | ]; simpl; try contradiction.
  apply Qltb_ge.
Qed.

Lemma Fltb_ge (a b : float) :
  isNum a -> isNum b -> (Fltb a b = false <-> (b <= a)%F).
Proof.
  destruct a as [x | ], b as [y | ]; simpl; try contradiction.
  intros _ _. apply Qltb_ge.
Qed.

Lemma Feq_ltb (a b : float) :
  (a == b)%F -> Fltb a b = false /\ Fltb b a = false.
Proof.
  destruct a as [x | ], b as [y | ]; simpl; try contradiction.
  intros E. rewrite !Qltb_ge, E. split; apply Qle_refl.
Qed.

Lemma isNum_Fabs (a : float) : isNum a -> isNum (Fabs a).
Proof. destruct a; trivial. Qed.

Lemma isNum_Fmul (a b : float) : isNum a -> isNum b -> isNum (a * b)%F.
Proof. destruct a, b; simpl; trivial. Qed.

Lemma isNum_Num (q : Q) : isNum (Num q).
Proof. exact I. Qed.

Lemma of_N_nonneg (n : N) : (Num 0 <= of_N n)%F.
Proof.
  unfold of_N. simpl. change 0%Q with (inject_Z 0).
  rewrite <- Zle_Qle. lia.
Qed.

Lemma Fle_trans (a b c : float) : (a <= b)%F -> (b <= c)%F -> (a <= c)%F.
Proof.
  destruct a, b, c; simpl; try contradiction. apply Qle_trans.
Qed.

Lemma Flt_le (a b : float) : (a < b)%F -> (a <= b)%F.
Proof.
  destruct a, b; simpl; try contradiction. apply Qlt_le_weak.
Qed.

Lemma acceptV0_checks {T : Type} (ext : External) (cfg : Config)
    (v0 : V0Data.t T) (ntrack ptrack : Track.t) (collision : Collision.t) :
  acceptV0 ext cfg v0 ntrack ptrack collision
  = first_outcome (checks ext cfg v0 ntrack ptrack collision).
Proof. reflexivity. Qed.

Example sample_accepted :
  acceptV0 sampleExt defaultConfig (sampleV0 samplePos sampleNeg)
    sampleNeg samplePos sampleCollision = Returns true.
Proof. vm_compute. reflexivity. Qed.

Example sample_mass_from_daughters :
  (candidateMass sampleExt
     (with_computeInvMassFromDaughters true defaultConfig)
     0.4976 samplePos sampleNeg == 0.412024)%F.
Proof. vm_compute. reflexivity. Qed.

(** ** Statements *)

Lemma reject_if_None (c : bool) : reject_if c = None <-> c = false.
Proof. destruct c; simpl; split; congruence. Qed.

Lemma reject_if_quiet (c : bool) : quiet (reject_if c).
Proof. destruct c; [right | left]; reflexivity. Qed.

Lemma reject_if_not_true (c : bool) : reject_if c <> Some (Returns true).
Proof. destruct c; simpl; congruence. Qed.

Lemma reject_if_true (c : bool) :
  c = true -> reject_if c = Some (Returns false).
Proof. intros ->. reflexivity. Qed.

Lemma itsSwitch_detSwitch (sel : Z) (n : N) (msg : string) :
  itsSwitch sel n msg = detSwitch sel (0 <? n)%N msg.
Proof.
  assert (E : (n <? 1)%N = negb (0 <? n)%N).
  { destruct (N.ltb_spec 0 n), (N.ltb_spec n 1); simpl; trivial; lia. }
  unfold itsSwitch, detSwitch. rewrite E. reflexivity.
Qed.

Lemma detSwitch_valid (sel : Z) (present : bool) (msg : string) :
  validDetSwitch sel ->
  quiet (detSwitch sel present msg) /\
  (detSwitch sel present msg = None <-> detConstraint sel present).
Proof.
  unfold detConstraint.
  intros [-> | [-> | ->]]; simpl; (split; [try apply reject_if_quiet | ]).
  - rewrite reject_if_None. split; [intros ->; split; [trivial | discriminate] | intros [H _]; auto].
  - left; reflexivity.
  - split; [intros _; split; discriminate | trivial].
  - rewrite reject_if_None, negb_false_iff.
    split; [intros ->; split; [discriminate | trivial] | intros [_ H]; auto].
Qed.

Lemma detSwitch_invalid (sel : Z) (present : bool) (msg : string) :
  ~ validDetSwitch sel -> detSwitch sel present msg = Some (Fatal msg).
Proof.
  unfold validDetSwitch. intros H.
  destruct sel as [ | [p | p | ] | [p | p | ]]; simpl; trivial; exfalso; auto.
Qed.

Lemma detSwitch_not_true (sel : Z) (present : bool) (msg : string) :
  detSwitch sel present msg <> Some (Returns true).
Proof.
  destruct sel as [ | [p | p | ] | [p | p | ]]; simpl;
    try discriminate; apply reject_if_not_true.
Qed.

Lemma pidSwitch_cases (sel : Z) (pid : N) (msg : string) :
  (sel = (-1)%Z /\ pidSwitch sel pid msg = None) \/
  ((0 <= sel <= 4)%Z /\
   pidSwitch sel pid msg = reject_if (negb (Z.of_N pid =? sel)%Z)) \/
  (~ validPidSwitch sel /\ pidSwitch sel pid msg = Some (Fatal msg)).
Proof.
  assert (E : forall k, (0 <= k <= 4)%Z ->
              (pid =? static_cast_uint32 k)%N = (Z.of_N pid =? k)%Z).
  { intros k Hk. unfold static_cast_uint32.
    rewrite Z.mod_small by (split; [lia | ]; apply Z.le_lt_trans with 4%Z; [lia | reflexivity]).
    destruct (N.eqb_spec pid (Z.to_N k)), (Z.eqb_spec (Z.of_N pid) k); trivial; lia. }
  destruct (Z.eq_dec sel (-1)) as [-> | Hm]; [left; split; reflexivity | right].
  destruct (Z_le_dec 0 sel) as [H0 | H0]; [destruct (Z_le_dec sel 4) as [H4 | H4] | ].
  - left. split; [lia | ]. rewrite <- E by lia.
    destruct sel as [ | [[p | p | ] | [p | [p | p | ] | ] | ] | p]; try lia; reflexivity.
  - right. split; [unfold validPidSwitch; lia | ].
    destruct sel as [ | [[p | p | ] | [p | [p | p | ] | ] | ] | p]; try lia; reflexivity.
  - right. split; [unfold validPidSwitch; lia | ].
    destruct sel as [ | p | [p | p | ]]; try lia; reflexivity.
Qed.

Lemma pidSwitch_valid (sel : Z) (pid : N) (msg : string) :
  validPidSwitch sel ->
  quiet (pidSwitch sel pid msg) /\
  (pidSwitch sel pid msg = None <-> pidConstraint sel pid).
Proof.
  unfold pidConstraint. intros Hv.
  destruct (pidSwitch_cases sel pid msg) as [[-> ->] | [[Hr ->] | [Hn _]]].
  - split; [left; reflexivity | split; auto].
  - split; [apply reject_if_quiet | ].
    rewrite reject_if_None, negb_false_iff, Z.eqb_eq.
    split; [auto | intros [H | H]; [lia | trivial]].
  - contradiction.
Qed.

Lemma pidSwitch_invalid (sel : Z) (pid : N) (msg : string) :
  ~ validPidSwitch sel -> pidSwitch sel pid msg = Some (Fatal msg).
Proof.
  intros Hn.
  destruct (pidSwitch_cases sel pid msg) as [[-> _] | [[Hr _] | [_ E]]]; trivial;
    exfalso; apply Hn; unfold validPidSwitch; lia.
Qed.

Lemma pidSwitch_not_true (sel : Z) (pid : N) (msg : string) :
  pidSwitch sel pid msg <> Some (Returns true).
Proof.
  destruct (pidSwitch_cases sel pid msg) as [[_ ->] | [[_ ->] | [_ ->]]];
    try discriminate; apply reject_if_not_true.
Qed.

(** ** Sequences of statements *)

Lemma first_outcome_reaches (l : list stmt) (k : nat) (o : outcome) :
  reaches k l -> nth_error l k = Some (Some o) -> first_outcome l = o.
Proof.
  unfold reaches. revert k.
  induction l as [ | s l IH]; intros [ | k] Hr Hn; simpl in *; try discriminate.
  - injection Hn as ->. reflexivity.
  - inversion Hr as [ | ? ? Hs Hr']; subst. simpl. eauto.
Qed.

Lemma first_outcome_all_None (l : list stmt) :
  Forall (fun s => s = None) l -> first_outcome l = Returns true.
Proof.
  induction 1 as [ | s l Hs _ IH]; simpl; [reflexivity | ].
  rewrite Hs. exact IH.
Qed.

Lemma first_outcome_true (l : list stmt) :
  (forall s, In s l -> s <> Some (Returns true)) ->
  first_outcome l = Returns true -> Forall (fun s => s = None) l.
Proof.
  induction l as [ | s l IH]; intros Hn H; [constructor | ].
  simpl in H. destruct s as [o | ].
  - simpl in H. subst o. exfalso. apply (Hn (Some (Returns true))); simpl; auto.
  - constructor; [reflexivity | ]. apply IH; [ | exact H].
    intros s Hs. apply Hn. simpl; auto.
Qed.

Lemma first_outcome_quiet (l : list stmt) :
  Forall quiet l ->
  first_outcome l = Returns true \/ first_outcome l = Returns false.
Proof.
  induction 1 as [ | s l [-> | ->] _ IH]; simpl; auto.
Qed.

Lemma quiet_not_true (s : stmt) : quiet s -> s <> Some (Returns true).
Proof. intros [-> | ->]; discriminate. Qed.

Lemma first_outcome_perm (l l' : list stmt) :
  Forall quiet l -> Permutation l l' -> first_outcome l' = first_outcome l.
Proof.
  intros Hq Hp.
  assert (Hq' : Forall quiet l') by (eapply Permutation_Forall; eassumption).
  assert (Nt : forall m, Forall quiet m ->
               forall s, In s m -> s <> Some (Returns true)).
  { intros m Hm s Hs. apply quiet_not_true.
    rewrite Forall_forall in Hm. auto. }
  destruct (first_outcome_quiet l Hq) as [E | E];
    destruct (first_outcome_quiet l' Hq') as [E' | E']; try congruence.
  - apply first_outcome_true in E; [ | exact (Nt l Hq)].
    rewrite (first_outcome_all_None l') in E'; [discriminate | ].
    exact (Permutation_Forall Hp E).
  - apply first_outcome_true in E'; [ | exact (Nt l' Hq')].
    rewrite (first_outcome_all_None l) in E; [discriminate | ].
    exact (Permutation_Forall (Permutation_sym Hp) E').
Qed.

(** ** The statements of acceptV0 *)

Section Checks.
Context {T : Type}.
Variables (ext : External) (cfg : Config) (v0 : V0Data.t T).
Variables (ntrack ptrack : Track.t) (collision : Collision.t).

Lemma checks_not_true (s : stmt) :
  In s (checks ext cfg v0 ntrack ptrack collision) ->
  s <> Some (Returns true).
Proof.
  unfold checks, tpcCuts. simpl.
  intros H; repeat (destruct H as [<- | H]); try contradiction;
    try apply reject_if_not_true; try apply detSwitch_not_true;
    try apply pidSwitch_not_true;
    rewrite itsSwitch_detSwitch; apply detSwitch_not_true.
Qed.

Lemma acceptV0_true_iff :
  acceptV0 ext cfg v0 ntrack ptrack collision = Returns true <->
  Forall (fun s => s = None) (checks ext cfg v0 ntrack ptrack collision).
Proof.
  rewrite acceptV0_checks. split.
  - apply first_outcome_true. apply checks_not_true.
  - apply first_outcome_all_None.
Qed.

Lemma acceptV0_rejected_by (k : nat) (o : outcome) :
  nth_error (checks ext cfg v0 ntrack ptrack collision) k = Some (Some o) ->
  acceptV0 ext cfg v0 ntrack ptrack collision <> Returns true.
Proof.
  intros Hk Ha. rewrite acceptV0_true_iff, Forall_forall in Ha.
  apply nth_error_In in Hk. apply Ha in Hk. discriminate.
Qed.

Lemma checks_quiet :
  validSwitches cfg ->
  Forall quiet (checks ext cfg v0 ntrack ptrack collision).
Proof.
  intros (H1 & H2 & H3 & H4 & H5 & H6 & H7 & H8).
  unfold checks, tpcCuts, rapidityCut, radiusCut, lifetimeCut. simpl.
  rewrite !itsSwitch_detSwitch.
  repeat apply Forall_cons; try apply Forall_nil; try apply reject_if_quiet;
    try (apply detSwitch_valid; assumption);
    apply pidSwitch_valid; assumption.
Qed.

Lemma acceptV0_valid_returns :
  validSwitches cfg ->
  acceptV0 ext cfg v0 ntrack ptrack collision = Returns true \/
  acceptV0 ext cfg v0 ntrack ptrack collision = Returns false.
Proof.
  intros Hv. rewrite acceptV0_checks.
  apply first_outcome_quiet, checks_quiet, Hv.
Qed.

End Checks.

(** ** The acceptance decision *)

Lemma tpc_present_None (a b : bool) :
  reject_if (negb a || negb b) = None <-> a = true /\ b = true.
Proof. rewrite reject_if_None. destruct a, b; simpl; intuition congruence. Qed.

Lemma cut_None (a b : float) :
  isNum a -> isNum b -> (reject_if (Fltb a b) = None <-> (b <= a)%F).
Proof. intros Ha Hb. rewrite reject_if_None. apply Fltb_ge; assumption. Qed.

Lemma crossed_rows_None (a b c : float) :
  isNum a -> isNum b -> isNum c ->
  (reject_if (Fltb a c || Fltb b c) = None <-> (c <= a)%F /\ (c <= b)%F).
Proof.
  intros Ha Hb Hc.
  rewrite reject_if_None, orb_false_iff, !Fltb_ge by assumption.
  reflexivity.
Qed.

(** The predicates imply acceptance, whatever the values are. *)
Lemma allPredicates_accepted {T : Type} (ext : External) (cfg : Config)
    (v0 : V0Data.t T) (ntrack ptrack : Track.t) (collision : Collision.t) :
  validSwitches cfg ->
  allPredicates ext cfg v0 ntrack ptrack collision ->
  acceptV0 ext cfg v0 ntrack ptrack collision = Returns true.
Proof.
  intros (H1 & H2 & H3 & H4 & H5 & H6 & H7 & H8).
  intros (P1 & P2 & P3 & P4 & P5 & [P6 P6'] & P7 & P8 & [P9 P9'] & P10 & P11
          & P12 & P13 & P14 & P15).
  apply acceptV0_true_iff.
  unfold checks, tpcCuts, rapidityCut, radiusCut, lifetimeCut. cbn [app].
  rewrite !itsSwitch_detSwitch.
  repeat apply Forall_cons; try apply Forall_nil.
  - apply reject_if_None, Fle_ltb, P1.
  - apply reject_if_None, Fle_ltb, P2.
  - apply reject_if_None, Fle_ltb, P3.
  - apply (proj2 (proj2 (detSwitch_valid _ _ _ H1))), P4.
  - apply (proj2 (proj2 (detSwitch_valid _ _ _ H2))), P5.
  - apply tpc_present_None. split; assumption.
  - apply reject_if_None, Fle_ltb, P7.
  - apply reject_if_None, Fle_ltb, P8.
  - apply reject_if_None, orb_false_iff. split; apply Fle_ltb; assumption.
  - apply (proj2 (proj2 (detSwitch_valid _ _ _ H3))), P10.
  - apply (proj2 (proj2 (detSwitch_valid _ _ _ H4))), P11.
  - apply (proj2 (proj2 (detSwitch_valid _ _ _ H5))), P12.
  - apply (proj2 (proj2 (detSwitch_valid _ _ _ H6))), P13.
  - apply (proj2 (proj2 (pidSwitch_valid _ _ _ H7))), P14.
  - apply (proj2 (proj2 (pidSwitch_valid _ _ _ H8))), P15.
Qed.

(** C1 (amended). For a configuration whose six detector switches are in
    {-1,0,1}, whose two PID-hypothesis switches are in {-1,..,4} and whose
    thresholds are numbers, and for a candidate whose compared values
    (rapidity, radius, distance over momentum, TPC deviations of both
    daughters) are numbers, [acceptV0] returns true exactly when all the
    predicates of the filter hold.  For every valid configuration it returns
    true or false, returns true when all the predicates hold, and gives the
    same result when its statements are run in any other order; the
    crossed-row predicate holds for every daughter when its threshold is
    negative. *)
Theorem acceptV0_iff_all_predicates {T : Type} (ext : External)
    (cfg : Config) (v0 : V0Data.t T) (ntrack ptrack : Track.t)
    (collision : Collision.t) :
  validSwitches cfg ->
  (numericThresholds ext cfg ->
   numericInputs v0 ntrack ptrack collision ->
   (acceptV0 ext cfg v0 ntrack ptrack collision = Returns true <->
    allPredicates ext cfg v0 ntrack ptrack collision)) /\
  (allPredicates ext cfg v0 ntrack ptrack collision ->
   acceptV0 ext cfg v0 ntrack ptrack collision = Returns true) /\
  (acceptV0 ext cfg v0 ntrack ptrack collision = Returns true \/
   acceptV0 ext cfg v0 ntrack ptrack collision = Returns false) /\
  ((extraCutTPCClusters cfg < Num 0)%F ->
   (extraCutTPCClusters cfg <= of_N (Track.tpcNClsCrossedRows ntrack))%F /\
   (extraCutTPCClusters cfg <= of_N (Track.tpcNClsCrossedRows ptrack))%F) /\
  (forall l, Permutation (checks ext cfg v0 ntrack ptrack collision) l ->
             first_outcome l = acceptV0 ext cfg v0 ntrack ptrack collision).
Proof.
  intros Hv. split; [ | split; [ | split; [ | split]]].
  - intros (T1 & T2 & T3 & T4 & T5 & T6) (N1 & N2 & N3 & N4 & N5).
    split; [ | apply allPredicates_accepted, Hv].
    rewrite acceptV0_true_iff.
    destruct Hv as (H1 & H2 & H3 & H4 & H5 & H6 & H7 & H8).
    unfold checks, tpcCuts, rapidityCut, radiusCut, lifetimeCut, allPredicates.
    cbn [app]. rewrite !Forall_cons_iff, !itsSwitch_detSwitch.
    rewrite tpc_present_None.
    rewrite crossed_rows_None by (trivial; apply isNum_Num).
    rewrite !cut_None
      by (trivial; try apply isNum_Fabs; try apply isNum_Fmul; trivial;
          apply isNum_Num).
    rewrite (proj2 (detSwitch_valid _ _ _ H1)), (proj2 (detSwitch_valid _ _ _ H2)).
    rewrite (proj2 (detSwitch_valid _ _ _ H3)), (proj2 (detSwitch_valid _ _ _ H4)).
    rewrite (proj2 (detSwitch_valid _ _ _ H5)), (proj2 (detSwitch_valid _ _ _ H6)).
    rewrite (proj2 (pidSwitch_valid _ _ _ H7)), (proj2 (pidSwitch_valid _ _ _ H8)).
    tauto.
  - apply allPredicates_accepted, Hv.
  - apply acceptV0_valid_returns, Hv.
  - intros Hneg.
    split; (apply Fle_trans with (Num 0); [apply Flt_le, Hneg | apply of_N_nonneg]).
  - intros l Hp. rewrite acceptV0_checks.
    apply first_outcome_perm; [apply checks_quiet, Hv | exact Hp].
Qed.

Lemma acceptV0_iff_all_predicates_witness :
  validSwitches defaultConfig /\
  numericThresholds sampleExt defaultConfig /\
  numericInputs (sampleV0 samplePos sampleNeg) sampleNeg samplePos
    sampleCollision /\
  (acceptV0 sampleExt defaultConfig (sampleV0 samplePos sampleNeg)
     sampleNeg samplePos sampleCollision = Returns true <->
   allPredicates sampleExt defaultConfig (sampleV0 samplePos sampleNeg)
     sampleNeg samplePos sampleCollision).
Proof.
  assert (Hv : validSwitches defaultConfig) by valid_switches.
  assert (Ht : numericThresholds sampleExt defaultConfig)
    by (repeat split).
  assert (Hn : numericInputs (sampleV0 samplePos sampleNeg) sampleNeg
                 samplePos sampleCollision) by (repeat split).
  split; [exact Hv | split; [exact Ht | split; [exact Hn | ]]].
  exact (proj1 (acceptV0_iff_all_predicates sampleExt defaultConfig
                  (sampleV0 samplePos sampleNeg) sampleNeg samplePos
                  sampleCollision Hv) Ht Hn).
Defined.

(** C1, as stated, fails: a candidate whose positive daughter has a TPC
    deviation that is not a number passes the deviation cut, which rejects
    only when [abs(nsigma) > nMaxTPCNsigma] is true, and is accepted
    although its deviation is not within the cut. *)
Lemma nan_deviation_counterexample :
  validSwitches defaultConfig /\
  acceptV0 sampleExt defaultConfig (sampleV0 nanSigmaPos sampleNeg)
    sampleNeg nanSigmaPos sampleCollision = Returns true /\
  ~ (Fabs (Track.tpcNSigmaPi nanSigmaPos) <= nMaxTPCNsigma defaultConfig)%F /\
  ~ allPredicates sampleExt defaultConfig (sampleV0 nanSigmaPos sampleNeg)
      sampleNeg nanSigmaPos sampleCollision.
Proof.
  split; [valid_switches | ].
  split; [vm_compute; reflexivity | ].
  split; [intros H; exact H | ].
  intros (_ & _ & _ & _ & _ & _ & _ & H & _). exact H.
Qed.

(** ** Cut boundaries *)

(** C5. The rapidity, radius and lifetime cuts are inclusive: a candidate
    exactly on a boundary passes that cut ([|y| <= cut], [radius >= cut],
    [distovertotmom * mass(K0) <= 2.684 * v0lifetime]), a candidate
    strictly beyond any of the three boundaries is rejected, and a
    candidate on all three boundaries whose daughters pass is accepted. *)
Theorem cut_boundaries_inclusive {T : Type} (ext : External) (cfg : Config)
    (v0 : V0Data.t T) (ntrack ptrack : Track.t) (collision : Collision.t) :
  let y := Fabs (V0Data.yK0Short v0) in
  let r := V0Data.v0radius v0 in
  let ct := (V0Data.distovertotmom v0 (Collision.posX collision)
               (Collision.posY collision) (Collision.posZ collision)
             * sMasses_K0 ext)%F in
  ((y == v0setting_rapidity cfg)%F -> rapidityCut cfg v0 = None) /\
  ((r == v0setting_radius cfg)%F -> radiusCut cfg v0 = None) /\
  ((ct == 2.684 * v0lifetime cfg)%F ->
   lifetimeCut ext cfg v0 collision = None) /\
  ((v0setting_rapidity cfg < y)%F \/ (r < v0setting_radius cfg)%F \/
   (2.684 * v0lifetime cfg < ct)%F ->
   acceptV0 ext cfg v0 ntrack ptrack collision = Returns false) /\
  ((y == v0setting_rapidity cfg)%F -> (r == v0setting_radius cfg)%F ->
   (ct == 2.684 * v0lifetime cfg)%F ->
   Forall (fun s => s = None)
     (skipn 3 (checks ext cfg v0 ntrack ptrack collision)) ->
   acceptV0 ext cfg v0 ntrack ptrack collision = Returns true).
Proof.
  intros y r ct.
  assert (Hy : (y == v0setting_rapidity cfg)%F -> rapidityCut cfg v0 = None).
  { intros E. apply reject_if_None. fold y. apply (Feq_ltb _ _ E). }
  assert (Hr : (r == v0setting_radius cfg)%F -> radiusCut cfg v0 = None).
  { intros E. apply reject_if_None. fold r. apply (Feq_ltb _ _ E). }
  assert (Hc : (ct == 2.684 * v0lifetime cfg)%F ->
               lifetimeCut ext cfg v0 collision = None).
  { intros E. apply reject_if_None. fold ct. apply (Feq_ltb _ _ E). }
  split; [exact Hy | split; [exact Hr | split; [exact Hc | split]]].
  - intros H. rewrite acceptV0_checks.
    change (first_outcome (checks ext cfg v0 ntrack ptrack collision))
      with (rapidityCut cfg v0 ;; radiusCut cfg v0 ;;
            lifetimeCut ext cfg v0 collision ;;
            first_outcome (skipn 3 (checks ext cfg v0 ntrack ptrack collision))).
    unfold rapidityCut, radiusCut, lifetimeCut. fold y r ct.
    destruct (Fltb (v0setting_rapidity cfg) y) eqn:E1; [reflexivity | ].
    destruct (Fltb r (v0setting_radius cfg)) eqn:E2; [reflexivity | ].
    destruct (Fltb (2.684 * v0lifetime cfg) ct) eqn:E3; [reflexivity | ].
    exfalso.
    destruct H as [H | [H | H]]; apply Fltb_lt in H; congruence.
  - intros Ey Er Ec Hrest. apply acceptV0_true_iff.
    change (checks ext cfg v0 ntrack ptrack collision)
      with (rapidityCut cfg v0 :: radiusCut cfg v0 ::
            lifetimeCut ext cfg v0 collision ::
            skipn 3 (checks ext cfg v0 ntrack ptrack collision)).
    apply Forall_cons; [auto | ].
    apply Forall_cons; [auto | ].
    apply Forall_cons; [auto | exact Hrest].
Qed.

Lemma cut_boundaries_inclusive_witness :
  acceptV0 unitMassExt defaultConfig (boundaryV0 samplePos sampleNeg)
    sampleNeg samplePos sampleCollision = Returns true /\
  acceptV0 sampleExt defaultConfig (lowRadiusV0 samplePos sampleNeg)
    sampleNeg samplePos sampleCollision = Returns false.
Proof.
  split.
  - refine (proj2 (proj2 (proj2 (proj2
              (cut_boundaries_inclusive unitMassExt defaultConfig
                 (boundaryV0 samplePos sampleNeg) sampleNeg samplePos
                 sampleCollision)))) _ _ _ _).
    + vm_compute. reflexivity.
    + vm_compute. reflexivity.
    + vm_compute. reflexivity.
    + vm_compute. repeat constructor.
  - refine (proj1 (proj2 (proj2 (proj2
              (cut_boundaries_inclusive sampleExt defaultConfig
                 (lowRadiusV0 samplePos sampleNeg) sampleNeg samplePos
                 sampleCollision)))) _).
    right; left. vm_compute. reflexivity.
Defined.

(** ** Filters *)

Lemma v0Filter_iff {T : Type} (cfg : Config) (v0 : V0Data.t T) :
  v0Filter cfg v0 = true <->
  (v0setting_dcapostopv cfg < Fabs (V0Data.dcapostopv v0))%F /\
  (v0setting_dcanegtopv cfg < Fabs (V0Data.dcanegtopv v0))%F /\
  (V0Data.dcaV0daughters v0 < v0setting_dcav0dau cfg)%F /\
  (v0setting_cospa cfg < V0Data.v0cosPA v0)%F.
Proof.
  unfold v0Filter. rewrite !andb_true_iff, !Fltb_lt. tauto.
Qed.

Lemma collision_filters_iff (cfg : Config) (collision : Collision.t) :
  eventFilter cfg collision && posZFilter cfg collision = true <->
  eventSelection cfg = true /\ Collision.sel8 collision = true /\
  (Fabs (Collision.posZ collision) < cutzvertex cfg)%F.
Proof.
  unfold eventFilter, posZFilter.
  rewrite !andb_true_iff, Fltb_lt, eqb_true_iff. tauto.
Qed.

(** C6. The filters are strict: a V0 passes [v0Filter], and so reaches the
    candidate loop of either process function, only if the absolute value
    of each daughter's DCA to the primary vertex is strictly above its
    minimum, the DCA between the daughters strictly below its maximum and
    the cosine of the pointing angle strictly above its minimum; a
    collision is processed only if its [sel8] flag is set (when event
    selection is enabled) and the absolute value of its z position is
    strictly below the cut.  The collision filters pass exactly when event
    selection is enabled, [sel8] is set and the z position is inside the
    cut. *)
Theorem filters_are_strict (ext : External) (cfg : Config)
    (collision : Collision.t) :
  let passesEvent :=
    (eventSelection cfg = true -> Collision.sel8 collision = true) /\
    (Fabs (Collision.posZ collision) < cutzvertex cfg)%F in
  (forall (T : Type) (v0 : V0Data.t T),
     v0Filter cfg v0 = true <->
     (v0setting_dcapostopv cfg < Fabs (V0Data.dcapostopv v0))%F /\
     (v0setting_dcanegtopv cfg < Fabs (V0Data.dcanegtopv v0))%F /\
     (V0Data.dcaV0daughters v0 < v0setting_dcav0dau cfg)%F /\
     (v0setting_cospa cfg < V0Data.v0cosPA v0)%F) /\
  (eventFilter cfg collision && posZFilter cfg collision = true <->
   eventSelection cfg = true /\ Collision.sel8 collision = true /\
   (Fabs (Collision.posZ collision) < cutzvertex cfg)%F) /\
  (forall (v0s : list (V0Data.t Track.t)) (h : Hists),
     runData ext cfg collision v0s h = Finished h \/
     (passesEvent /\
      runData ext cfg collision v0s h
      = processData ext cfg collision (filter (v0Filter cfg) v0s) h)) /\
  (forall (v0s : list McV0.t) (h : Hists),
     runMC ext cfg collision v0s h = Finished h \/
     (passesEvent /\
      runMC ext cfg collision v0s h
      = processMC ext cfg collision
          (filter (fun mcv0 => v0Filter cfg (McV0.v0 mcv0)) v0s) h)).
Proof.
  intros passesEvent.
  assert (Hev : eventFilter cfg collision && posZFilter cfg collision = true
                -> passesEvent).
  { rewrite collision_filters_iff. unfold passesEvent. tauto. }
  split; [intros T v0; apply v0Filter_iff | ].
  split; [apply collision_filters_iff | ].
  split; intros v0s h; unfold runData, runMC;
    destruct (eventFilter cfg collision && posZFilter cfg collision);
    auto.
Qed.

Lemma filters_are_strict_witness :
  v0Filter defaultConfig (sampleV0 samplePos sampleNeg) = true /\
  (v0setting_dcanegtopv defaultConfig
   < Fabs (V0Data.dcanegtopv (sampleV0 samplePos sampleNeg)))%F.
Proof.
  split; [reflexivity | ].
  apply (filters_are_strict sampleExt defaultConfig sampleCollision).
  reflexivity.
Defined.

(** ** The fill log *)

Lemma dataFills_app (ext : External) (cfg : Config) (v0 : V0Data.t Track.t)
    (h : Hists) :
  dataFills ext cfg v0 h = h ++ dataFills ext cfg v0 [].
Proof.
  unfold dataFills, fill.
  destruct (useMultidimHisto cfg), (enableTPCPlot cfg); simpl;
    repeat rewrite <- app_assoc; reflexivity.
Qed.

Lemma mcFills_app (ext : External) (cfg : Config) (mcv0 : McV0.t)
    (posMc negMc : McParticle.t) (h : Hists) :
  mcFills ext cfg mcv0 posMc negMc h = h ++ mcFills ext cfg mcv0 posMc negMc [].
Proof.
  unfold mcFills, fill.
  destruct (useMultidimHisto cfg); simpl;
    repeat rewrite <- app_assoc; reflexivity.
Qed.

Lemma dataFills_names (ext : External) (cfg : Config) (v0 : V0Data.t Track.t) :
  map f_name (dataFills ext cfg v0 []) = dataFillNames cfg.
Proof.
  unfold dataFills, dataFillNames, fill.
  destruct (useMultidimHisto cfg), (enableTPCPlot cfg); reflexivity.
Qed.

Lemma mcFills_names (ext : External) (cfg : Config) (mcv0 : McV0.t)
    (posMc negMc : McParticle.t) :
  map f_name (mcFills ext cfg mcv0 posMc negMc []) = mcFillNames cfg.
Proof.
  unfold mcFills, mcFillNames, fill.
  destruct (useMultidimHisto cfg); reflexivity.
Qed.

Lemma processData_body_accepted (ext : External) (cfg : Config)
    (collision : Collision.t) (v0 : V0Data.t Track.t) (h : Hists) :
  acceptedData ext cfg collision v0 ->
  processData_body ext cfg collision v0 h
  = Finished (h ++ candidateTick :: dataFills ext cfg v0 []).
Proof.
  unfold acceptedData, processData_body. intros ->.
  rewrite dataFills_app. unfold fill. rewrite <- app_assoc. reflexivity.
Qed.

Lemma processData_body_rejected (ext : External) (cfg : Config)
    (collision : Collision.t) (v0 : V0Data.t Track.t) (h : Hists) :
  acceptV0 ext cfg v0 (V0Data.negTrack v0) (V0Data.posTrack v0) collision
  = Returns false ->
  processData_body ext cfg collision v0 h = Finished (h ++ [candidateTick]).
Proof. unfold processData_body. intros ->. reflexivity. Qed.

Lemma processMC_body_matched (ext : External) (cfg : Config)
    (collision : Collision.t) (mcv0 : McV0.t) (posMc negMc : McParticle.t)
    (h : Hists) :
  acceptedMC ext cfg collision mcv0 ->
  daughtersMatched mcv0 posMc negMc ->
  processMC_body ext cfg collision mcv0 h
  = Finished (h ++ candidateTick :: mcFills ext cfg mcv0 posMc negMc []).
Proof.
  unfold acceptedMC, daughtersMatched, processMC_body.
  intros -> (-> & -> & -> & ->). simpl.
  rewrite mcFills_app. unfold fill. rewrite <- app_assoc. reflexivity.
Qed.

Lemma processMC_body_rejected (ext : External) (cfg : Config)
    (collision : Collision.t) (mcv0 : McV0.t) (h : Hists) :
  acceptV0 ext cfg (McV0.v0 mcv0)
    (McTrack.track (V0Data.negTrack (McV0.v0 mcv0)))
    (McTrack.track (V0Data.posTrack (McV0.v0 mcv0))) collision
  = Returns false ->
  processMC_body ext cfg collision mcv0 h = Finished (h ++ [candidateTick]).
Proof. unfold processMC_body. intros ->. reflexivity. Qed.

Lemma processMC_body_mismatched (ext : External) (cfg : Config)
    (collision : Collision.t) (mcv0 : McV0.t) (h : Hists) :
  acceptedMC ext cfg collision mcv0 ->
  daughtersMismatched mcv0 ->
  processMC_body ext cfg collision mcv0 h = Finished (h ++ [candidateTick]).
Proof.
  unfold acceptedMC, daughtersMismatched, processMC_body. intros -> H.
  destruct (McTrack.mcParticle (V0Data.posTrack (McV0.v0 mcv0))) as [p | ];
    [ | reflexivity].
  destruct (McTrack.mcParticle (V0Data.negTrack (McV0.v0 mcv0))) as [n | ];
    [ | reflexivity].
  destruct (Z.eqb_spec (McParticle.pdgCode p) 211) as [Ep | Ep];
    destruct (Z.eqb_spec (McParticle.pdgCode n) (-211)) as [En | En];
    try reflexivity.
  exfalso.
  destruct H as [H | [H | [(m & H & Hm) | (m & H & Hm)]]];
    try discriminate; injection H as <-; contradiction.
Qed.

Lemma init_mass_axis (cfg : Config) (s : HistSpec) :
  In s (init cfg) ->
  (In mAxis (h_axes s) <-> In (h_name s) massHistograms) /\
  (In mAxis (h_axes s) -> hd_error (h_axes s) = Some mAxis).
Proof.
  unfold init, massHistograms.
  destruct (doprocessMC cfg), (useMultidimHisto cfg), (enableTPCPlot cfg);
    simpl; intros H; repeat (destruct H as [<- | H]); try contradiction;
    simpl; (split; [split | ]); intros H;
    repeat (destruct H as [H | H]; try discriminate H);
    try contradiction; auto 10.
Qed.

Lemma count_fills_app (name : string) (h1 h2 : Hists) :
  (count_fills name (h1 ++ h2) = count_fills name h1 + count_fills name h2)%nat.
Proof. unfold count_fills. rewrite filter_app, length_app. reflexivity. Qed.

Lemma count_fills_candidateTick (name : string) :
  name <> "h1_events"%string -> count_fills name [candidateTick] = 0%nat.
Proof.
  intros Hn. unfold count_fills, candidateTick. cbn [filter f_name].
  destruct (String.eqb_spec "h1_events" name) as [E | E];
    [congruence | reflexivity].
Qed.

(** ** Truth-matching of the daughters *)

(** C3. In truth mode a candidate that passes [acceptV0] but has a
    daughter without generated-particle link, or a positive daughter whose
    generated particle is not a 211, or a negative daughter whose generated
    particle is not a -211, is skipped: the loop body only makes the
    candidate tick of the event counter, so no other histogram is filled. *)
Theorem daughters_mismatch_skips (ext : External) (cfg : Config)
    (collision : Collision.t) (mcv0 : McV0.t) (h : Hists) :
  acceptedMC ext cfg collision mcv0 ->
  daughtersMismatched mcv0 ->
  processMC_body ext cfg collision mcv0 h = Finished (h ++ [candidateTick]) /\
  forall name, name <> "h1_events"%string ->
    count_fills name (hists_of (processMC_body ext cfg collision mcv0 h))
    = count_fills name h.
Proof.
  intros Ha Hm.
  rewrite (processMC_body_mismatched ext cfg collision mcv0 h Ha Hm).
  split; [reflexivity | ].
  intros name Hn. simpl.
  rewrite count_fills_app, (count_fills_candidateTick name Hn). lia.
Qed.

Lemma daughters_mismatch_skips_witness :
  processMC_body sampleExt defaultConfig sampleCollision
    (sampleMcV0 (Some sampleKaonMc) (Some sampleNegMc) (Some sampleK0sMc)) []
  = Finished [candidateTick].
Proof.
  apply (daughters_mismatch_skips sampleExt defaultConfig sampleCollision
           (sampleMcV0 (Some sampleKaonMc) (Some sampleNegMc)
              (Some sampleK0sMc)) []).
  - vm_compute. reflexivity.
  - right; right; left. exists sampleKaonMc.
    split; [reflexivity | vm_compute; discriminate].
Defined.

(** ** The mass that is filled *)

(** C2. The first coordinate of every fill into a histogram with a mass
    axis, for an accepted candidate of [processData] and for an accepted
    and matched candidate of [processMC], is the candidate's [mK0Short]
    when [computeInvMassFromDaughters] is off, and the two-pion invariant
    mass [sqrt((E1+E2)^2 - |p1+p2|^2)], [E_i = sqrt(|p_i|^2 + m_pion^2)],
    of the daughter tracks when it is on. *)
Theorem mass_value_filled (ext : External) (cfg : Config)
    (collision : Collision.t) :
  let mass (mK0Short : float) (pos neg : Track.t) :=
    if computeInvMassFromDaughters cfg then twoPionMass ext pos neg
    else mK0Short in
  (forall (v0 : V0Data.t Track.t) (h : Hists),
     acceptedData ext cfg collision v0 ->
     exists d,
       processData_body ext cfg collision v0 h
       = Finished (h ++ candidateTick :: d) /\
       incl ["h2_masspT"; "h2_masseta"; "h2_massphi"]%string (map f_name d) /\
       forall f, In f d -> In (f_name f) massHistograms ->
         hd_error (f_coords f)
         = Some (Some (mass (V0Data.mK0Short v0) (V0Data.posTrack v0)
                         (V0Data.negTrack v0)))) /\
  (forall (mcv0 : McV0.t) (posMc negMc : McParticle.t) (h : Hists),
     acceptedMC ext cfg collision mcv0 ->
     daughtersMatched mcv0 posMc negMc ->
     exists d,
       processMC_body ext cfg collision mcv0 h
       = Finished (h ++ candidateTick :: d) /\
       incl ["h2_massPosPtRes"; "h2_massNegPtRes"; "h2_masspT";
             "h2_masseta"; "h2_massphi"]%string (map f_name d) /\
       forall f, In f d -> In (f_name f) massHistograms ->
         hd_error (f_coords f)
         = Some (Some (mass (V0Data.mK0Short (McV0.v0 mcv0))
                         (McTrack.track (V0Data.posTrack (McV0.v0 mcv0)))
                         (McTrack.track (V0Data.negTrack (McV0.v0 mcv0)))))).
Proof.
  intros mass. split.
  - intros v0 h Ha. exists (dataFills ext cfg v0 []).
    split; [apply processData_body_accepted, Ha | split].
    + rewrite dataFills_names. unfold dataFillNames.
      intros x Hx. apply in_or_app. left. exact Hx.
    + unfold dataFills, fill, mass, candidateMass, massHistograms.
      destruct (useMultidimHisto cfg), (enableTPCPlot cfg),
        (computeInvMassFromDaughters cfg); simpl;
        intros f H; repeat (destruct H as [<- | H]); try contradiction;
        simpl; intros Hn; try reflexivity;
        repeat (destruct Hn as [Hn | Hn]; try discriminate Hn); contradiction.
  - intros mcv0 posMc negMc h Ha Hm.
    exists (mcFills ext cfg mcv0 posMc negMc []).
    split; [apply processMC_body_matched; assumption | split].
    + rewrite mcFills_names. unfold mcFillNames.
      intros x Hx. apply in_or_app. left. simpl in Hx |- *. tauto.
    + unfold mcFills, fill, mass, candidateMass, massHistograms.
      destruct (useMultidimHisto cfg),
        (computeInvMassFromDaughters cfg); simpl;
        intros f H; repeat (destruct H as [<- | H]); try contradiction;
        simpl; intros Hn; try reflexivity;
        repeat (destruct Hn as [Hn | Hn]; try discriminate Hn); contradiction.
Qed.

Lemma mass_value_filled_witness :
  acceptedData sampleExt defaultConfig sampleCollision
    (sampleV0 samplePos sampleNeg) /\
  exists d,
    processData_body sampleExt defaultConfig sampleCollision
      (sampleV0 samplePos sampleNeg) []
    = Finished ([] ++ candidateTick :: d) /\
    incl ["h2_masspT"; "h2_masseta"; "h2_massphi"]%string (map f_name d) /\
    forall f, In f d -> In (f_name f) massHistograms ->
      hd_error (f_coords f) = Some (Some (Num 0.4976)).
Proof.
  assert (Ha : acceptedData sampleExt defaultConfig sampleCollision
                 (sampleV0 samplePos sampleNeg)) by (vm_compute; reflexivity).
  split; [exact Ha | ].
  exact (proj1 (mass_value_filled sampleExt defaultConfig sampleCollision)
           (sampleV0 samplePos sampleNeg) [] Ha).
Defined.

(** ** Truth-matching of the mother *)

Lemma isTrueK0s_false (v0d : V0Data.t McTrack.t)
    (mother : option McParticle.t) :
  mother = None \/
  (exists m, mother = Some m /\ McParticle.pdgCode m <> 310%Z) ->
  isTrueK0s (McV0.mk v0d mother) = false.
Proof.
  unfold isTrueK0s. simpl. intros [-> | (m & -> & Hm)]; [reflexivity | ].
  apply Z.eqb_neq, Hm.
Qed.

(** C10. In truth mode the candidate's own generated-particle link does not
    decide whether it is filled: an accepted candidate with matched
    daughters whose own link is missing or leads to a code other than 310
    makes the complete sequence of fills, with the last coordinate of the
    [thn_mass] fill equal to 0 (false); with any other mother link the
    fills are the same apart from that coordinate. *)
Theorem mother_mismatch_only_clears_flag (ext : External) (cfg : Config)
    (collision : Collision.t) (v0d : V0Data.t McTrack.t)
    (mother : option McParticle.t) (posMc negMc : McParticle.t) (h : Hists) :
  let mcv0 := McV0.mk v0d mother in
  acceptedMC ext cfg collision mcv0 ->
  daughtersMatched mcv0 posMc negMc ->
  mother = None \/
  (exists m, mother = Some m /\ McParticle.pdgCode m <> 310%Z) ->
  processMC_body ext cfg collision mcv0 h
  = Finished (h ++ candidateTick :: mcFills ext cfg mcv0 posMc negMc []) /\
  map f_name (mcFills ext cfg mcv0 posMc negMc []) = mcFillNames cfg /\
  (forall f, In f (mcFills ext cfg mcv0 posMc negMc []) ->
     f_name f = "thn_mass"%string ->
     nth_error (f_coords f) 8 = Some (Some (Num 0))) /\
  (forall mother',
     Forall2 sameUpToFlag
       (mcFills ext cfg mcv0 posMc negMc [])
       (mcFills ext cfg (McV0.mk v0d mother') posMc negMc [])).
Proof.
  intros mcv0 Ha Hm Hmother.
  split; [apply processMC_body_matched; assumption | ].
  split; [apply mcFills_names | ].
  split.
  - unfold mcFills, fill, mcv0.
    rewrite (isTrueK0s_false v0d mother Hmother).
    destruct (useMultidimHisto cfg); simpl;
      intros f H; repeat (destruct H as [<- | H]); try contradiction;
      simpl; intros Hn; try discriminate Hn; reflexivity.
  - intros mother'. unfold mcFills, fill, mcv0.
    destruct (useMultidimHisto cfg); simpl;
      repeat (apply Forall2_cons; [repeat split | ]);
      apply Forall2_nil.
Qed.

Lemma mother_mismatch_only_clears_flag_witness :
  processMC_body sampleExt (with_useMultidimHisto true defaultConfig)
    sampleCollision
    (sampleMcV0 (Some samplePosMc) (Some sampleNegMc) (Some sampleLambdaMc)) []
  = Finished
      ([] ++ candidateTick ::
       mcFills sampleExt (with_useMultidimHisto true defaultConfig)
         (sampleMcV0 (Some samplePosMc) (Some sampleNegMc)
            (Some sampleLambdaMc)) samplePosMc sampleNegMc []).
Proof.
  apply (mother_mismatch_only_clears_flag sampleExt
           (with_useMultidimHisto true defaultConfig) sampleCollision
           (sampleV0 (McTrack.mk samplePos (Some samplePosMc))
              (McTrack.mk sampleNeg (Some sampleNegMc)))
           (Some sampleLambdaMc) samplePosMc sampleNegMc []).
  - vm_compute. reflexivity.
  - repeat split.
  - right. exists sampleLambdaMc. split; [reflexivity | vm_compute; discriminate].
Defined.

Example mother_mismatch_flag_coordinate :
  In (mkFill rK0sResolution "thn_mass"
        [Some (Num 0.4976); Some (Num 0.3); Some (Num 0.1); Some (Num 1);
         Some (Num 0.2); Some (Num 0.1);
         fsub (fdiv 1 0.22) (fdiv 1 0.23); fsub (fdiv 1 0.18) (fdiv 1 0.17);
         Some (Num 0)])
     (mcFills sampleExt (with_useMultidimHisto true defaultConfig)
        (sampleMcV0 (Some samplePosMc) (Some sampleNegMc)
           (Some sampleLambdaMc)) samplePosMc sampleNegMc []).
Proof. simpl. auto 20. Qed.

(** ** Divisions in the resolution fills *)

Lemma fdiv_defined (a b : float) : fdiv a b <> None <-> ~ (b == 0)%F.
Proof.
  unfold fdiv. destruct b as [y | ]; simpl.
  - destruct (Qeq_bool y 0) eqn:E.
    + apply Qeq_bool_iff in E. split; [congruence | intros H; contradiction].
    + split; [intros _ H | discriminate].
      apply Qeq_bool_iff in H. congruence.
  - split; [intros _ H; exact H | discriminate].
Qed.

Lemma fsub_defined (a b : option float) :
  fsub a b <> None <-> a <> None /\ b <> None.
Proof.
  destruct a, b; simpl; split; try intros [? ?]; try split;
    congruence.
Qed.

Lemma allDefined_Forall (h : Hists) :
  allDefined h <->
  Forall (fun f => Forall (fun x => x <> None) (f_coords f)) h.
Proof.
  unfold allDefined. rewrite Forall_forall. split.
  - intros H f Hf. apply Forall_forall. intros x Hx. exact (H f x Hf Hx).
  - intros H f x Hf Hx. specialize (H f Hf).
    rewrite Forall_forall in H. exact (H x Hx).
Qed.

Lemma Some_defined (a : float) : Some a <> None <-> True.
Proof. split; [trivial | discriminate]. Qed.

(** C9. The fills of an accepted and matched candidate of [processMC] are
    made whatever the divisors are.  Their coordinates are all defined
    exactly when the generated [pt], [px], [py] and [pz] of both daughters
    are nonzero and, with the multi-dimensional histogram enabled, both
    reconstructed daughter [pt] are nonzero too; in particular they are all
    defined when these ten values are nonzero.  A candidate whose positive
    daughter has a generated [px] of zero is filled with an undefined
    coordinate. *)
Theorem resolution_divisions :
  (forall (ext : External) (cfg : Config) (collision : Collision.t)
          (mcv0 : McV0.t) (posMc negMc : McParticle.t) (h : Hists),
     acceptedMC ext cfg collision mcv0 ->
     daughtersMatched mcv0 posMc negMc ->
     let trueNonzero :=
       ~ (McParticle.pt posMc == 0)%F /\ ~ (McParticle.px posMc == 0)%F /\
       ~ (McParticle.py posMc == 0)%F /\ ~ (McParticle.pz posMc == 0)%F /\
       ~ (McParticle.pt negMc == 0)%F /\ ~ (McParticle.px negMc == 0)%F /\
       ~ (McParticle.py negMc == 0)%F /\ ~ (McParticle.pz negMc == 0)%F in
     let recoNonzero :=
       ~ (V0Data.positivept (McV0.v0 mcv0) == 0)%F /\
       ~ (V0Data.negativept (McV0.v0 mcv0) == 0)%F in
     processMC_body ext cfg collision mcv0 h
     = Finished (h ++ candidateTick :: mcFills ext cfg mcv0 posMc negMc []) /\
     (allDefined (mcFills ext cfg mcv0 posMc negMc []) <->
      trueNonzero /\ (useMultidimHisto cfg = true -> recoNonzero)) /\
     (trueNonzero -> recoNonzero ->
      allDefined (mcFills ext cfg mcv0 posMc negMc []))) /\
  (exists (ext : External) (cfg : Config) (collision : Collision.t)
          (mcv0 : McV0.t) (posMc negMc : McParticle.t),
     acceptedMC ext cfg collision mcv0 /\
     daughtersMatched mcv0 posMc negMc /\
     (McParticle.px posMc == 0)%F /\
     In (mkFill rK0sDauResolution "h2_genPxPosPxRes"
           [None; Some (McParticle.px posMc)])
        (hists_of (processMC_body ext cfg collision mcv0 []))).
Proof.
  split.
  - intros ext cfg collision mcv0 posMc negMc h Ha Hm trueNonzero recoNonzero.
    split; [apply processMC_body_matched; assumption | ].
    assert (Hiff : allDefined (mcFills ext cfg mcv0 posMc negMc []) <->
                   trueNonzero /\ (useMultidimHisto cfg = true -> recoNonzero)).
    { rewrite allDefined_Forall. unfold mcFills, fill, trueNonzero, recoNonzero.
      destruct (useMultidimHisto cfg); simpl;
        rewrite !Forall_cons_iff; simpl; rewrite !Forall_cons_iff;
        rewrite ?fsub_defined, !fdiv_defined, !Some_defined;
        pose proof (Forall_nil (fun x : option float => x <> None));
        pose proof (Forall_nil (fun f : Fill =>
                      Forall (fun x => x <> None) (f_coords f)));
        intuition congruence. }
    split; [exact Hiff | ].
    intros Ht Hr. apply Hiff. split; [exact Ht | intros _; exact Hr].
  - exists sampleExt, defaultConfig, sampleCollision,
      (sampleMcV0 (Some zeroPxPosMc) (Some sampleNegMc) (Some sampleK0sMc)),
      zeroPxPosMc, sampleNegMc.
    split; [vm_compute; reflexivity | ].
    split; [repeat split | ].
    split; [reflexivity | ].
    simpl. auto 10.
Qed.

Lemma resolution_divisions_witness :
  allDefined
    (mcFills sampleExt (with_useMultidimHisto true defaultConfig)
       (sampleMcV0 (Some samplePosMc) (Some sampleNegMc) (Some sampleK0sMc))
       samplePosMc sampleNegMc []).
Proof.
  apply (proj1 resolution_divisions sampleExt
           (with_useMultidimHisto true defaultConfig) sampleCollision
           (sampleMcV0 (Some samplePosMc) (Some sampleNegMc)
              (Some sampleK0sMc)) samplePosMc sampleNegMc []).
  - vm_compute. reflexivity.
  - repeat split.
  - repeat split; intros H; vm_compute in H; discriminate H.
  - repeat split; intros H; vm_compute in H; discriminate H.
Defined.

(** ** Fills per event and per candidate *)

Lemma for_each_finished {A : Type} (body : A -> Hists -> run)
    (per : A -> Hists) (l : list A) :
  (forall v, In v l -> forall h, body v h = Finished (h ++ per v)) ->
  forall h, for_each body l h = Finished (h ++ flat_map per l).
Proof.
  induction l as [ | v l IH]; intros Hb h; simpl.
  - rewrite app_nil_r. reflexivity.
  - rewrite (Hb v (or_introl eq_refl)).
    rewrite IH by (intros w Hw; apply Hb; right; exact Hw).
    rewrite app_assoc. reflexivity.
Qed.

Lemma for_each_prefix {A : Type} (body : A -> Hists -> run) (l : list A) :
  (forall v h, exists d, hists_of (body v h) = h ++ d) ->
  forall h, exists d, hists_of (for_each body l h) = h ++ d.
Proof.
  intros Hb. induction l as [ | v l IH]; intros h; simpl.
  - exists []. rewrite app_nil_r. reflexivity.
  - destruct (Hb v h) as [d Hd].
    destruct (body v h) as [h' | msg h']; simpl in Hd; subst h'.
    + destruct (IH (h ++ d)) as [d' Hd']. exists (d ++ d').
      rewrite Hd', app_assoc. reflexivity.
    + exists d. reflexivity.
Qed.

Lemma processData_body_tick (ext : External) (cfg : Config)
    (collision : Collision.t) (v0 : V0Data.t Track.t) (h : Hists) :
  exists d,
    hists_of (processData_body ext cfg collision v0 h)
    = h ++ candidateTick :: d.
Proof.
  unfold processData_body.
  destruct (acceptV0 ext cfg v0 _ _ collision) as [[ | ] | msg]; simpl.
  - exists (dataFills ext cfg v0 []). rewrite dataFills_app.
    unfold fill. rewrite <- app_assoc. reflexivity.
  - exists []. reflexivity.
  - exists []. reflexivity.
Qed.

Lemma processMC_body_tick (ext : External) (cfg : Config)
    (collision : Collision.t) (mcv0 : McV0.t) (h : Hists) :
  exists d,
    hists_of (processMC_body ext cfg collision mcv0 h)
    = h ++ candidateTick :: d.
Proof.
  unfold processMC_body.
  destruct (acceptV0 ext cfg (McV0.v0 mcv0) _ _ collision) as [[ | ] | msg];
    simpl; try (exists []; reflexivity).
  destruct (McTrack.mcParticle _) as [p | ]; [ | exists []; reflexivity].
  destruct (McTrack.mcParticle _) as [n | ]; [ | exists []; reflexivity].
  destruct (negb _ || negb _); [exists []; reflexivity | ].
  exists (mcFills ext cfg mcv0 p n []). simpl. rewrite mcFills_app.
  unfold fill. rewrite <- app_assoc. reflexivity.
Qed.

Lemma matched_or_mismatched (mcv0 : McV0.t) :
  (exists posMc negMc, daughtersMatched mcv0 posMc negMc) \/
  daughtersMismatched mcv0.
Proof.
  unfold daughtersMatched, daughtersMismatched.
  destruct (McTrack.mcParticle (V0Data.posTrack (McV0.v0 mcv0))) as [p | ];
    [ | right; left; reflexivity].
  destruct (McTrack.mcParticle (V0Data.negTrack (McV0.v0 mcv0))) as [n | ];
    [ | right; right; left; reflexivity].
  destruct (Z.eq_dec (McParticle.pdgCode p) 211) as [Ep | Ep];
    [ | right; right; right; left; exists p; auto].
  destruct (Z.eq_dec (McParticle.pdgCode n) (-211)) as [En | En];
    [ | right; right; right; right; exists n; auto].
  left. exists p, n. auto.
Qed.

Lemma count_ticks_app (x : Q) (h1 h2 : Hists) :
  (count_ticks x (h1 ++ h2) = count_ticks x h1 + count_ticks x h2)%nat.
Proof. unfold count_ticks. rewrite filter_app, length_app. reflexivity. Qed.

Lemma count_ticks_other (x : Q) (h : Hists) :
  ~ In "h1_events"%string (map f_name h) -> count_ticks x h = 0%nat.
Proof.
  unfold count_ticks. induction h as [ | f h IH]; intros Hn; [reflexivity | ].
  cbn [filter]. destruct (String.eqb_spec (f_name f) "h1_events") as [E | E].
  - exfalso. apply Hn. left. exact E.
  - cbn [andb]. apply IH. intros Hin. apply Hn. right. exact Hin.
Qed.

Lemma dataFillNames_no_tick (cfg : Config) :
  ~ In "h1_events"%string (dataFillNames cfg).
Proof.
  unfold dataFillNames.
  destruct (useMultidimHisto cfg), (enableTPCPlot cfg); simpl;
    intros H; repeat (destruct H as [H | H]; try discriminate H);
    contradiction.
Qed.

Lemma mcFillNames_no_tick (cfg : Config) :
  ~ In "h1_events"%string (mcFillNames cfg).
Proof.
  unfold mcFillNames.
  destruct (useMultidimHisto cfg); simpl;
    intros H; repeat (destruct H as [H | H]; try discriminate H);
    contradiction.
Qed.

Lemma count_ticks_candidates {A : Type} (per : A -> Hists) (l : list A) :
  (forall v, In v l -> ~ In "h1_events"%string (map f_name (per v))) ->
  count_ticks 0.5 (flat_map (fun v => candidateTick :: per v) l) = 0%nat /\
  count_ticks 1.5 (flat_map (fun v => candidateTick :: per v) l)
  = List.length l.
Proof.
  induction l as [ | v l IH]; intros Hn; [split; reflexivity | ].
  destruct IH as [IH1 IH2]; [intros w Hw; apply Hn; right; exact Hw | ].
  cbn [flat_map]. 
  change ((candidateTick :: per v) ++ flat_map (fun v => candidateTick :: per v) l)
    with ([candidateTick] ++ per v ++ flat_map (fun v => candidateTick :: per v) l).
  rewrite !count_ticks_app, IH1, IH2.
  rewrite !(count_ticks_other _ (per v)) by (apply Hn; left; reflexivity).
  split; reflexivity.
Qed.

Lemma dataContribution_shape (ext : External) (cfg : Config)
    (collision : Collision.t) (v0 : V0Data.t Track.t) :
  validSwitches cfg ->
  (forall h, processData_body ext cfg collision v0 h
             = Finished (h ++ candidateTick
                           :: dataContribution ext cfg collision v0)) /\
  (acceptedData ext cfg collision v0 ->
   dataContribution ext cfg collision v0 = dataFills ext cfg v0 []) /\
  (~ acceptedData ext cfg collision v0 ->
   dataContribution ext cfg collision v0 = []).
Proof.
  intros Hv. unfold dataContribution, acceptedData.
  destruct (acceptV0_valid_returns ext cfg v0 (V0Data.negTrack v0)
              (V0Data.posTrack v0) collision Hv) as [Ha | Hr].
  - rewrite (processData_body_accepted ext cfg collision v0 [] Ha). simpl.
    split; [intros h; apply processData_body_accepted, Ha | ].
    split; [reflexivity | intros Hn; contradiction].
  - rewrite (processData_body_rejected ext cfg collision v0 [] Hr). simpl.
    split; [intros h; apply processData_body_rejected, Hr | ].
    split; [rewrite Hr; discriminate | reflexivity].
Qed.

Lemma mcContribution_shape (ext : External) (cfg : Config)
    (collision : Collision.t) (mcv0 : McV0.t) :
  validSwitches cfg ->
  (forall h, processMC_body ext cfg collision mcv0 h
             = Finished (h ++ candidateTick
                           :: mcContribution ext cfg collision mcv0)) /\
  (acceptedMC ext cfg collision mcv0 ->
   forall posMc negMc, daughtersMatched mcv0 posMc negMc ->
   mcContribution ext cfg collision mcv0
   = mcFills ext cfg mcv0 posMc negMc []) /\
  (~ acceptedMC ext cfg collision mcv0 \/ daughtersMismatched mcv0 ->
   mcContribution ext cfg collision mcv0 = []).
Proof.
  intros Hv. unfold mcContribution.
  destruct (acceptV0_valid_returns ext cfg (McV0.v0 mcv0)
              (McTrack.track (V0Data.negTrack (McV0.v0 mcv0)))
              (McTrack.track (V0Data.posTrack (McV0.v0 mcv0)))
              collision Hv) as [Ha | Hr].
  - destruct (matched_or_mismatched mcv0) as [(p & n & Hm) | Hm].
    + rewrite (processMC_body_matched ext cfg collision mcv0 p n [] Ha Hm).
      simpl. split; [intros h; apply processMC_body_matched; assumption | ].
      split.
      * intros _ p' n' (Hp' & Hn' & _). destruct Hm as (Hp & Hn & _).
        congruence.
      * intros [Hn | Hmis]; [contradiction | ].
        pose proof (processMC_body_matched ext cfg collision mcv0 p n [] Ha Hm) as E1.
        pose proof (processMC_body_mismatched ext cfg collision mcv0 [] Ha Hmis) as E2.
        rewrite E1 in E2. injection E2 as E2. exact E2.
    + rewrite (processMC_body_mismatched ext cfg collision mcv0 [] Ha Hm).
      simpl. split; [intros h; apply processMC_body_mismatched; assumption | ].
      split; [ | reflexivity].
      intros _ p n Hmat.
      pose proof (processMC_body_matched ext cfg collision mcv0 p n [] Ha Hmat) as E1.
      pose proof (processMC_body_mismatched ext cfg collision mcv0 [] Ha Hm) as E2.
      rewrite E1 in E2. injection E2 as E2. symmetry. exact E2.
  - rewrite (processMC_body_rejected ext cfg collision mcv0 [] Hr). simpl.
    split; [intros h; apply processMC_body_rejected, Hr | ].
    split; [ | reflexivity].
    intros Ha. unfold acceptedMC in Ha. rewrite Hr in Ha. discriminate.
Qed.

Lemma count_ticks_event (d : Hists) :
  count_ticks 0.5 (eventTick :: d) = S (count_ticks 0.5 d) /\
  count_ticks 1.5 (eventTick :: d) = count_ticks 1.5 d.
Proof. split; reflexivity. Qed.

(** C7 (amended). Each call of a process function first makes one fill of
    the event counter at 0.5, and each pass through the candidate loop
    first makes one fill at 1.5, before [acceptV0] is called and whatever
    it ends in.  When the switches hold documented values, so that no
    fatal error can stop the loop, the call makes exactly one fill at 0.5
    and one fill at 1.5 per candidate, a candidate that is rejected or
    skipped adds nothing else, and an accepted (in truth mode: accepted and
    matched) candidate adds its complete sequence of fills: in data mode
    one fill of each of the three mass histograms, one of [thn_mass] if
    enabled, and two of the TPC plot if enabled (one per daughter); in
    truth mode one fill of each of the ten resolution and three mass
    histograms and one of [thn_mass] if enabled. *)
Theorem fills_per_event_and_candidate (ext : External) (cfg : Config)
    (collision : Collision.t) :
  (forall v0s h, exists d,
     hists_of (processData ext cfg collision v0s h) = h ++ eventTick :: d) /\
  (forall v0s h, exists d,
     hists_of (processMC ext cfg collision v0s h) = h ++ eventTick :: d) /\
  (forall v0 h, exists d,
     hists_of (processData_body ext cfg collision v0 h)
     = h ++ candidateTick :: d) /\
  (forall mcv0 h, exists d,
     hists_of (processMC_body ext cfg collision mcv0 h)
     = h ++ candidateTick :: d) /\
  (validSwitches cfg ->
   (forall v0s h,
      let d := eventTick
               :: flat_map (fun v0 => candidateTick
                              :: dataContribution ext cfg collision v0) v0s in
      processData ext cfg collision v0s h = Finished (h ++ d) /\
      count_ticks 0.5 d = 1%nat /\
      count_ticks 1.5 d = List.length v0s) /\
   (forall v0,
      (acceptedData ext cfg collision v0 ->
       map f_name (dataContribution ext cfg collision v0)
       = dataFillNames cfg) /\
      (~ acceptedData ext cfg collision v0 ->
       dataContribution ext cfg collision v0 = [])) /\
   (forall v0s h,
      let d := eventTick
               :: flat_map (fun v0 => candidateTick
                              :: mcContribution ext cfg collision v0) v0s in
      processMC ext cfg collision v0s h = Finished (h ++ d) /\
      count_ticks 0.5 d = 1%nat /\
      count_ticks 1.5 d = List.length v0s) /\
   (forall mcv0,
      (acceptedMC ext cfg collision mcv0 ->
       (exists posMc negMc, daughtersMatched mcv0 posMc negMc) ->
       map f_name (mcContribution ext cfg collision mcv0)
       = mcFillNames cfg) /\
      (~ acceptedMC ext cfg collision mcv0 \/ daughtersMismatched mcv0 ->
       mcContribution ext cfg collision mcv0 = []))).
Proof.
  assert (Hd : forall v0 h, exists d,
             hists_of (processData_body ext cfg collision v0 h) = h ++ d).
  { intros v0 h. destruct (processData_body_tick ext cfg collision v0 h) as [d E].
    eexists. exact E. }
  assert (Hm : forall v0 h, exists d,
             hists_of (processMC_body ext cfg collision v0 h) = h ++ d).
  { intros v0 h. destruct (processMC_body_tick ext cfg collision v0 h) as [d E].
    eexists. exact E. }
  split; [ | split; [ | split; [ | split]]].
  - intros v0s h. unfold processData, fill. cbv zeta.
    destruct (for_each_prefix _ v0s (Hd) (h ++ [eventTick])) as [d E].
    exists d. unfold eventTick in E. rewrite E, <- app_assoc. reflexivity.
  - intros v0s h. unfold processMC, fill. cbv zeta.
    destruct (for_each_prefix _ v0s (Hm) (h ++ [eventTick])) as [d E].
    exists d. unfold eventTick in E. rewrite E, <- app_assoc. reflexivity.
  - apply processData_body_tick.
  - apply processMC_body_tick.
  - intros Hv.
    assert (Dn : forall v0,
               ~ In "h1_events"%string
                   (map f_name (dataContribution ext cfg collision v0))).
    { intros v0.
      destruct (dataContribution_shape ext cfg collision v0 Hv) as (_ & Ha & Hr).
      destruct (acceptV0_valid_returns ext cfg v0 (V0Data.negTrack v0)
                  (V0Data.posTrack v0) collision Hv) as [E | E].
      - rewrite (Ha E), dataFills_names. apply dataFillNames_no_tick.
      - rewrite Hr; [simpl; tauto | ]. unfold acceptedData. rewrite E. discriminate. }
    assert (Mn : forall v0,
               ~ In "h1_events"%string
                   (map f_name (mcContribution ext cfg collision v0))).
    { intros v0.
      destruct (mcContribution_shape ext cfg collision v0 Hv) as (_ & Ha & Hr).
      destruct (acceptV0_valid_returns ext cfg (McV0.v0 v0)
                  (McTrack.track (V0Data.negTrack (McV0.v0 v0)))
                  (McTrack.track (V0Data.posTrack (McV0.v0 v0)))
                  collision Hv) as [E | E].
      - destruct (matched_or_mismatched v0) as [(p & n & Hmat) | Hmis].
        + rewrite (Ha E p n Hmat), mcFills_names. apply mcFillNames_no_tick.
        + rewrite Hr; [simpl; tauto | right; exact Hmis].
      - rewrite Hr; [simpl; tauto | left].
        unfold acceptedMC. rewrite E. discriminate. }
    split; [ | split; [ | split]].
    + intros v0s h d. split.
      * unfold processData, fill. cbv zeta.
        rewrite (for_each_finished _
                   (fun v0 => candidateTick
                      :: dataContribution ext cfg collision v0)).
        -- rewrite <- app_assoc. reflexivity.
        -- intros v0 _ h'. apply dataContribution_shape, Hv.
      * unfold d.
        destruct (count_ticks_candidates
                    (dataContribution ext cfg collision) v0s) as [C1 C2];
          [intros v0 _; apply Dn | ].
        destruct (count_ticks_event
                    (flat_map (fun v0 => candidateTick
                                 :: dataContribution ext cfg collision v0) v0s))
          as [E1 E2].
        rewrite E1, E2, C1, C2. split; reflexivity.
    + intros v0.
      destruct (dataContribution_shape ext cfg collision v0 Hv) as (_ & Ha & Hr).
      split; [intros E; rewrite (Ha E); apply dataFills_names | exact Hr].
    + intros v0s h d. split.
      * unfold processMC, fill. cbv zeta.
        rewrite (for_each_finished _
                   (fun v0 => candidateTick
                      :: mcContribution ext cfg collision v0)).
        -- rewrite <- app_assoc. reflexivity.
        -- intros v0 _ h'. apply mcContribution_shape, Hv.
      * unfold d.
        destruct (count_ticks_candidates
                    (mcContribution ext cfg collision) v0s) as [C1 C2];
          [intros v0 _; apply Mn | ].
        destruct (count_ticks_event
                    (flat_map (fun v0 => candidateTick
                                 :: mcContribution ext cfg collision v0) v0s))
          as [E1 E2].
        rewrite E1, E2, C1, C2. split; reflexivity.
    + intros mcv0.
      destruct (mcContribution_shape ext cfg collision mcv0 Hv) as (_ & Ha & Hr).
      split; [ | exact Hr].
      intros E (p & n & Hmat). rewrite (Ha E p n Hmat). apply mcFills_names.
Qed.

Lemma fills_per_event_and_candidate_witness :
  validSwitches tpcPlotConfig /\
  processData sampleExt tpcPlotConfig sampleCollision
    [sampleV0 samplePos sampleNeg; lowRadiusV0 samplePos sampleNeg] []
  = Finished
      ([] ++ eventTick
          :: flat_map (fun v0 => candidateTick
                         :: dataContribution sampleExt tpcPlotConfig
                              sampleCollision v0)
               [sampleV0 samplePos sampleNeg; lowRadiusV0 samplePos sampleNeg]).
Proof.
  assert (Hv : validSwitches tpcPlotConfig) by valid_switches.
  split; [exact Hv | ].
  apply (fills_per_event_and_candidate sampleExt tpcPlotConfig sampleCollision).
  exact Hv.
Defined.

(** C7, as stated, fails: with the TPC plot enabled, an accepted candidate
    of [processData] makes two fills of the registered histogram
    [h3_tpc_vs_pid_hypothesis]; and with an undocumented switch value the
    fatal error at the first candidate leaves the second one without its
    tick at 1.5. *)
Lemma one_fill_per_histogram_counterexample :
  (In "h3_tpc_vs_pid_hypothesis"%string (map h_name (init tpcPlotConfig)) /\
   acceptedData sampleExt tpcPlotConfig sampleCollision
     (sampleV0 samplePos sampleNeg) /\
   count_fills "h3_tpc_vs_pid_hypothesis"
     (hists_of (processData sampleExt tpcPlotConfig sampleCollision
                  [sampleV0 samplePos sampleNeg] [])) = 2%nat) /\
  (processData sampleExt invalidItsConfig sampleCollision
     [sampleV0 samplePos sampleNeg; sampleV0 samplePos sampleNeg] []
   = Aborted "Invalid ITS selection for positive daughter"
       [eventTick; candidateTick] /\
   count_ticks 1.5 [eventTick; candidateTick] = 1%nat).
Proof.
  split; [split; [simpl; auto 20 | split] | split];
    vm_compute; reflexivity.
Qed.

(** The two end-to-end scenarios: a candidate that passes everything under
    the default configuration, and the same candidate when the TOF is
    required of its positive daughter, which has none. *)
Example scenario_accepted :
  processData sampleExt defaultConfig sampleCollision
    [sampleV0 samplePos sampleNeg] []
  = Finished
      [eventTick; candidateTick;
       mkFill rK0sResolution "h2_masspT" [Some (Num 0.4976); Some (Num 0.3)];
       mkFill rK0sResolution "h2_masseta" [Some (Num 0.4976); Some (Num 0.1)];
       mkFill rK0sResolution "h2_massphi" [Some (Num 0.4976); Some (Num 1)]].
Proof. reflexivity. Qed.

Example scenario_tof_required :
  processData sampleExt (with_tofSelectionPos 1 defaultConfig) sampleCollision
    [sampleV0 samplePos sampleNeg] []
  = Finished [eventTick; candidateTick].
Proof. reflexivity. Qed.

(** ** Fatal errors among the statements *)

Lemma first_outcome_fatal (l : list stmt) (msg : string) :
  first_outcome l = Fatal msg ->
  exists k, nth_error l k = Some (Some (Fatal msg)) /\ reaches k l.
Proof.
  unfold reaches. induction l as [ | s l IH]; simpl; [discriminate | ].
  destruct s as [o | ]; simpl.
  - intros ->. exists 0%nat. split; [reflexivity | constructor].
  - intros H. destruct (IH H) as (k & Hk & Hr).
    exists (S k). split; [exact Hk | simpl; constructor; trivial].
Qed.

Lemma validDetSwitch_dec (sel : Z) :
  validDetSwitch sel \/ ~ validDetSwitch sel.
Proof. unfold validDetSwitch. lia. Qed.

Lemma validPidSwitch_dec (sel : Z) :
  validPidSwitch sel \/ ~ validPidSwitch sel.
Proof. unfold validPidSwitch. lia. Qed.

Lemma detSwitch_fatal (sel : Z) (present : bool) (msg m : string) :
  detSwitch sel present msg = Some (Fatal m) ->
  ~ validDetSwitch sel /\ m = msg.
Proof.
  intros H. destruct (validDetSwitch_dec sel) as [Hv | Hn].
  - destruct (proj1 (detSwitch_valid sel present msg Hv)) as [E | E];
      rewrite E in H; discriminate.
  - rewrite (detSwitch_invalid _ _ _ Hn) in H. injection H as <-. auto.
Qed.

Lemma pidSwitch_fatal (sel : Z) (pid : N) (msg m : string) :
  pidSwitch sel pid msg = Some (Fatal m) ->
  ~ validPidSwitch sel /\ m = msg.
Proof.
  intros H. destruct (validPidSwitch_dec sel) as [Hv | Hn].
  - destruct (proj1 (pidSwitch_valid sel pid msg Hv)) as [E | E];
      rewrite E in H; discriminate.
  - rewrite (pidSwitch_invalid _ _ _ Hn) in H. injection H as <-. auto.
Qed.

Lemma reject_if_not_fatal (c : bool) (m : string) :
  reject_if c <> Some (Fatal m).
Proof. destruct c; discriminate. Qed.

Ltac name_fatal_switch Hn :=
  first
    [ left; exists ItsPos; split; [reflexivity | split; [reflexivity | exact Hn]]
    | left; exists ItsNeg; split; [reflexivity | split; [reflexivity | exact Hn]]
    | left; exists TofPos; split; [reflexivity | split; [reflexivity | exact Hn]]
    | left; exists TofNeg; split; [reflexivity | split; [reflexivity | exact Hn]]
    | left; exists TrdPos; split; [reflexivity | split; [reflexivity | exact Hn]]
    | left; exists TrdNeg; split; [reflexivity | split; [reflexivity | exact Hn]]
    | right; exists Positive; split; [reflexivity | split; [reflexivity | exact Hn]]
    | right; exists Negative; split; [reflexivity | split; [reflexivity | exact Hn]] ].

Lemma checks_fatal_position {T : Type} (ext : External) (cfg : Config)
    (v0 : V0Data.t T) (ntrack ptrack : Track.t) (collision : Collision.t)
    (k : nat) (m : string) :
  nth_error (checks ext cfg v0 ntrack ptrack collision) k
  = Some (Some (Fatal m)) ->
  (exists sw, k = switchPosition sw /\ m = switchMessage sw /\
              ~ validDetSwitch (switchValue cfg sw)) \/
  (exists d, k = pidPosition d /\ m = pidMessage d /\
             ~ validPidSwitch (pidHypo cfg d)).
Proof.
  unfold checks, tpcCuts, rapidityCut, radiusCut, lifetimeCut.
  cbn [app]. rewrite !itsSwitch_detSwitch.
  intros H.
  do 15 (destruct k as [ | k];
         [cbn [nth_error] in H; injection H as H;
          first [ exfalso; exact (reject_if_not_fatal _ _ H)
                | apply detSwitch_fatal in H; destruct H as [Hn ->];
                  name_fatal_switch Hn
                | apply pidSwitch_fatal in H; destruct H as [Hn ->];
                  name_fatal_switch Hn ]
         | cbn [nth_error] in H]).
  destruct k; discriminate H.
Qed.

Lemma switchPosition_inj (sw sw' : DetSwitch) :
  switchPosition sw = switchPosition sw' -> sw = sw'.
Proof. destruct sw, sw'; simpl; intros H; try reflexivity; discriminate H. Qed.

Lemma switchMessage_inj (sw sw' : DetSwitch) :
  switchMessage sw = switchMessage sw' -> sw = sw'.
Proof. destruct sw, sw'; simpl; intros H; try reflexivity; discriminate H. Qed.

Lemma pidMessage_inj (d d' : Daughter) :
  pidMessage d = pidMessage d' -> d = d'.
Proof. destruct d, d'; simpl; intros H; try reflexivity; discriminate H. Qed.

Lemma switch_pid_messages_differ (sw : DetSwitch) (d : Daughter) :
  switchMessage sw <> pidMessage d.
Proof. destruct sw, d; simpl; discriminate. Qed.

Lemma fatal_of_switch_reaches {T : Type} (ext : External) (cfg : Config)
    (v0 : V0Data.t T) (ntrack ptrack : Track.t) (collision : Collision.t)
    (sw : DetSwitch) :
  acceptV0 ext cfg v0 ntrack ptrack collision = Fatal (switchMessage sw) ->
  reaches (switchPosition sw) (checks ext cfg v0 ntrack ptrack collision).
Proof.
  rewrite acceptV0_checks. intros H.
  destruct (first_outcome_fatal _ _ H) as (k & Hk & Hr).
  destruct (checks_fatal_position ext cfg v0 ntrack ptrack collision k _ Hk)
    as [(sw' & -> & E & _) | (d & _ & E & _)].
  - apply switchMessage_inj in E. subst sw'. exact Hr.
  - exfalso. exact (switch_pid_messages_differ _ _ E).
Qed.

Lemma fatal_of_pid_reaches {T : Type} (ext : External) (cfg : Config)
    (v0 : V0Data.t T) (ntrack ptrack : Track.t) (collision : Collision.t)
    (d : Daughter) :
  acceptV0 ext cfg v0 ntrack ptrack collision = Fatal (pidMessage d) ->
  reaches (pidPosition d) (checks ext cfg v0 ntrack ptrack collision).
Proof.
  rewrite acceptV0_checks. intros H.
  destruct (first_outcome_fatal _ _ H) as (k & Hk & Hr).
  destruct (checks_fatal_position ext cfg v0 ntrack ptrack collision k _ Hk)
    as [(sw & _ & E & _) | (d' & -> & E & _)].
  - exfalso. symmetry in E. exact (switch_pid_messages_differ _ _ E).
  - apply pidMessage_inj in E. subst d'. exact Hr.
Qed.

(** ** A statement that falls through *)

Lemma first_outcome_skip (l : list stmt) (k : nat) :
  nth_error l k = Some None ->
  first_outcome l = first_outcome (otherStatements k l).
Proof.
  unfold otherStatements. revert k.
  induction l as [ | s l IH]; intros [ | k] H; simpl in H; try discriminate.
  - injection H as ->. reflexivity.
  - change (firstn (S k) (s :: l) ++ skipn (S (S k)) (s :: l))
      with (s :: (firstn k l ++ skipn (S k) l)).
    change (first_outcome (s :: l)) with (s ;; first_outcome l).
    change (first_outcome (s :: (firstn k l ++ skipn (S k) l)))
      with (s ;; first_outcome (firstn k l ++ skipn (S k) l)).
    rewrite (IH k H). reflexivity.
Qed.

Lemma Forall_otherStatements (l : list stmt) (k : nat) :
  nth_error l k = Some None ->
  Forall (fun s => s = None) l <->
  Forall (fun s => s = None) (otherStatements k l).
Proof.
  unfold otherStatements. revert k.
  induction l as [ | s l IH]; intros [ | k] H; simpl in H; try discriminate.
  - injection H as ->. simpl. split.
    + intros F. inversion F; assumption.
    + intros F. constructor; trivial.
  - change (firstn (S k) (s :: l) ++ skipn (S (S k)) (s :: l))
      with (s :: (firstn k l ++ skipn (S k) l)).
    split; intros F; inversion F as [ | ? ? Hs Fl]; subst;
      constructor; trivial; apply (IH k H); exact Fl.
Qed.

(** ** The detector switches *)

Lemma switch_statement {T : Type} (ext : External) (cfg : Config)
    (v0 : V0Data.t T) (ntrack ptrack : Track.t) (collision : Collision.t)
    (sw : DetSwitch) :
  nth_error (checks ext cfg v0 ntrack ptrack collision) (switchPosition sw)
  = Some (detSwitch (switchValue cfg sw) (signalPresent sw ntrack ptrack)
            (switchMessage sw)).
Proof.
  destruct sw; simpl; rewrite ?itsSwitch_detSwitch; reflexivity.
Qed.

Lemma not_accepted_valid {T : Type} (ext : External) (cfg : Config)
    (v0 : V0Data.t T) (ntrack ptrack : Track.t) (collision : Collision.t) :
  acceptV0 ext cfg v0 ntrack ptrack collision <> Returns true ->
  validSwitches cfg ->
  acceptV0 ext cfg v0 ntrack ptrack collision = Returns false.
Proof.
  intros Hn Hv.
  destruct (acceptV0_valid_returns ext cfg v0 ntrack ptrack collision Hv);
    [contradiction | assumption].
Qed.

(** C4 (amended). For each of the six detector switches: value -1 rejects
    a candidate whose daughter has the signal and value 1 one whose
    daughter lacks it, that is, the candidate is never accepted and
    [acceptV0] returns false once the candidate reaches the switch, in
    particular whenever all switches hold documented values; value 0
    imposes no constraint, that is, the result is the one the other
    statements of [acceptV0] give (the candidate is accepted exactly when
    all of them fall through) and it does not depend on the signal, and
    the same holds with value -1 for a daughter without the signal and with
    value 1 for a daughter with it; with any other value no candidate is
    accepted, the fatal error of that switch is raised for exactly the
    candidates that reach the switch, that is, pass all statements placed
    before it, and a candidate that fails an earlier statement is rejected
    without a fatal error.  The other statements read neither the switch
    nor the signal. *)
Theorem detector_switches {T : Type} (ext : External) (cfg : Config)
    (v0 : V0Data.t T) (ntrack ptrack : Track.t) (collision : Collision.t)
    (sw : DetSwitch) :
  let result := acceptV0 ext cfg v0 ntrack ptrack collision in
  let statements := checks ext cfg v0 ntrack ptrack collision in
  let position := switchPosition sw in
  let others := otherStatements position statements in
  let rejected :=
    result <> Returns true /\
    (validSwitches cfg -> result = Returns false) /\
    (reaches position statements -> result = Returns false) in
  let unconstrained :=
    result = first_outcome others /\
    (result = Returns true <-> Forall (fun s => s = None) others) in
  (switchValue cfg sw = (-1)%Z ->
   (signalPresent sw ntrack ptrack = true -> rejected) /\
   (signalPresent sw ntrack ptrack = false -> unconstrained)) /\
  (switchValue cfg sw = 1%Z ->
   (signalPresent sw ntrack ptrack = false -> rejected) /\
   (signalPresent sw ntrack ptrack = true -> unconstrained)) /\
  (switchValue cfg sw = 0%Z ->
   unconstrained /\
   forall ntrack' ptrack',
     sameExceptSignal sw ntrack ptrack ntrack' ptrack' ->
     acceptV0 ext cfg v0 ntrack' ptrack' collision = result) /\
  (~ validDetSwitch (switchValue cfg sw) ->
   result <> Returns true /\
   (result = Fatal (switchMessage sw) <-> reaches position statements) /\
   (forall k, (k < position)%nat -> reaches k statements ->
      nth_error statements k = Some (Some (Returns false)) ->
      result = Returns false)) /\
  (forall x ntrack' ptrack',
     sameExceptSignal sw ntrack ptrack ntrack' ptrack' ->
     otherStatements position
       (checks ext (with_switch sw x cfg) v0 ntrack' ptrack' collision)
     = others).
Proof.
  intros result statements position others rejected unconstrained.
  pose proof (switch_statement ext cfg v0 ntrack ptrack collision sw) as Hs.
  assert (Hrej : nth_error statements position = Some (Some (Returns false)) ->
                 rejected).
  { intros E.
    assert (Hn : result <> Returns true)
      by exact (acceptV0_rejected_by ext cfg v0 ntrack ptrack collision _ _ E).
    split; [exact Hn | split].
    - intros Hv. apply not_accepted_valid; assumption.
    - intros Hr. unfold result. rewrite acceptV0_checks.
      exact (first_outcome_reaches _ _ _ Hr E). }
  assert (Hun : nth_error statements position = Some None -> unconstrained).
  { intros E. split.
    - unfold result. rewrite acceptV0_checks. apply first_outcome_skip, E.
    - unfold result. rewrite acceptV0_true_iff.
      apply Forall_otherStatements, E. }
  split; [ | split; [ | split; [ | split]]].
  - intros Hsel. rewrite Hsel in Hs.
    split; intros Hp; rewrite Hp in Hs; [apply Hrej | apply Hun]; exact Hs.
  - intros Hsel. rewrite Hsel in Hs.
    split; intros Hp; rewrite Hp in Hs; [apply Hrej | apply Hun]; exact Hs.
  - intros Hsel. split.
    + apply Hun. rewrite Hsel in Hs. exact Hs.
    + intros ntrack' ptrack' Hsame. unfold result.
      rewrite !acceptV0_checks. f_equal.
      destruct sw; simpl in Hsel, Hsame;
        destruct Hsame as [-> [x ->]]; unfold checks; rewrite Hsel;
        reflexivity.
  - intros Hinv. rewrite (detSwitch_invalid _ _ _ Hinv) in Hs.
    split; [ | split; [split | ]].
    + exact (acceptV0_rejected_by ext cfg v0 ntrack ptrack collision _ _ Hs).
    + apply fatal_of_switch_reaches.
    + intros Hr. unfold result. rewrite acceptV0_checks.
      exact (first_outcome_reaches _ _ _ Hr Hs).
    + intros k _ Hr Hk. unfold result. rewrite acceptV0_checks.
      exact (first_outcome_reaches _ _ _ Hr Hk).
  - intros x ntrack' ptrack' Hsame.
    destruct sw; simpl in Hsame; destruct Hsame as [-> [y ->]]; reflexivity.
Qed.

Lemma detector_switches_witness :
  acceptV0 sampleExt (with_itsIbSelectionPos (-1) defaultConfig)
    (sampleV0 samplePos sampleNeg) sampleNeg samplePos sampleCollision
  = Returns false /\
  acceptV0 sampleExt invalidItsConfig
    (sampleV0 samplePos sampleNeg) sampleNeg samplePos sampleCollision
  = Fatal "Invalid ITS selection for positive daughter" /\
  acceptV0 sampleExt defaultConfig
    (sampleV0 samplePos sampleNeg) sampleNeg samplePos sampleCollision
  = Returns true /\
  acceptV0 sampleExt invalidItsConfig
    (lowRadiusV0 samplePos sampleNeg) sampleNeg samplePos sampleCollision
  = Returns false.
Proof.
  split; [ | split; [ | split]].
  - refine (proj1 (proj2 (proj1 (proj1 (detector_switches sampleExt
                            (with_itsIbSelectionPos (-1) defaultConfig)
                            (sampleV0 samplePos sampleNeg) sampleNeg samplePos
                            sampleCollision ItsPos) eq_refl) eq_refl)) _).
    valid_switches.
  - refine (proj2 (proj1 (proj2 (proj1 (proj2 (proj2 (proj2
              (detector_switches sampleExt invalidItsConfig
                 (sampleV0 samplePos sampleNeg) sampleNeg samplePos
                 sampleCollision ItsPos)))) _))) _).
    + unfold validDetSwitch. simpl. intros [H | [H | H]]; discriminate H.
    + unfold reaches. vm_compute. repeat constructor.
  - refine (proj2 (proj2 (proj1 (proj1 (proj2 (proj2
              (detector_switches sampleExt defaultConfig
                 (sampleV0 samplePos sampleNeg) sampleNeg samplePos
                 sampleCollision ItsPos))) eq_refl))) _).
    vm_compute. repeat constructor.
  - refine (proj2 (proj2 (proj1 (proj2 (proj2 (proj2
              (detector_switches sampleExt invalidItsConfig
                 (lowRadiusV0 samplePos sampleNeg) sampleNeg samplePos
                 sampleCollision ItsPos)))) _)) 1%nat _ _ _).
    + unfold validDetSwitch. simpl. intros [H | [H | H]]; discriminate H.
    + simpl. lia.
    + unfold reaches. vm_compute. repeat constructor.
    + vm_compute. reflexivity.
Defined.

(** C4, as stated, fails: with the undocumented value 2 of
    [itsIbSelectionPos], a candidate whose radius is below the radius cut
    is rejected without any fatal error. *)
Lemma invalid_detector_switch_counterexample :
  ~ validDetSwitch (switchValue invalidItsConfig ItsPos) /\
  acceptV0 sampleExt invalidItsConfig (lowRadiusV0 samplePos sampleNeg)
    sampleNeg samplePos sampleCollision = Returns false.
Proof.
  split; [ | vm_compute; reflexivity].
  unfold validDetSwitch. simpl. intros [H | [H | H]]; discriminate H.
Qed.

(** ** The PID-hypothesis switches *)

Lemma pid_statement {T : Type} (ext : External) (cfg : Config)
    (v0 : V0Data.t T) (ntrack ptrack : Track.t) (collision : Collision.t)
    (d : Daughter) :
  nth_error (checks ext cfg v0 ntrack ptrack collision) (pidPosition d)
  = Some (pidSwitch (pidHypo cfg d) (trackedAs d ntrack ptrack)
            (pidMessage d)).
Proof. destruct d; reflexivity. Qed.

Lemma pidSwitch_match (sel : Z) (pid : N) (msg : string) :
  (0 <= sel <= 4)%Z -> Z.of_N pid = sel -> pidSwitch sel pid msg = None.
Proof.
  intros Hr E.
  destruct (pidSwitch_cases sel pid msg) as [[_ ->] | [[_ ->] | [Hn _]]].
  - reflexivity.
  - apply reject_if_None, negb_false_iff, Z.eqb_eq, E.
  - exfalso. apply Hn. unfold validPidSwitch. lia.
Qed.

Lemma pidSwitch_mismatch (sel : Z) (pid : N) (msg : string) :
  (0 <= sel <= 4)%Z -> Z.of_N pid <> sel ->
  pidSwitch sel pid msg = Some (Returns false).
Proof.
  intros Hr E.
  destruct (pidSwitch_cases sel pid msg) as [[H _] | [[_ ->] | [Hn _]]].
  - lia.
  - apply reject_if_true, negb_true_iff, Z.eqb_neq, E.
  - exfalso. apply Hn. unfold validPidSwitch. lia.
Qed.

(** C8 (amended). For each of the two PID-hypothesis switches: value -1
    imposes no constraint, that is, the result is the one the other
    statements of [acceptV0] give (the candidate is accepted exactly when
    all of them fall through) and it does not depend on the daughter's
    tracking hypothesis; a value from 0 to 4 rejects a candidate whose
    daughter was tracked with another hypothesis, that is, the candidate
    is never accepted and [acceptV0] returns false once the candidate
    reaches the switch, in particular whenever all switches hold
    documented values, and imposes nothing on a candidate whose daughter
    was tracked with that hypothesis, which gets the result it would get
    with value -1; with any other value no candidate is accepted, the
    fatal error of that switch is raised for exactly the candidates that
    reach the switch, that is, pass all statements placed before it, and a
    candidate that fails an earlier statement is rejected without a fatal
    error.  The other statements read neither the switch nor the tracking
    hypothesis. *)
Theorem pid_hypothesis_switches {T : Type} (ext : External) (cfg : Config)
    (v0 : V0Data.t T) (ntrack ptrack : Track.t) (collision : Collision.t)
    (d : Daughter) :
  let result := acceptV0 ext cfg v0 ntrack ptrack collision in
  let statements := checks ext cfg v0 ntrack ptrack collision in
  let position := pidPosition d in
  let others := otherStatements position statements in
  let rejected :=
    result <> Returns true /\
    (validSwitches cfg -> result = Returns false) /\
    (reaches position statements -> result = Returns false) in
  let unconstrained :=
    result = first_outcome others /\
    (result = Returns true <-> Forall (fun s => s = None) others) in
  (pidHypo cfg d = (-1)%Z ->
   unconstrained /\
   forall ntrack' ptrack',
     sameExceptPid d ntrack ptrack ntrack' ptrack' ->
     acceptV0 ext cfg v0 ntrack' ptrack' collision = result) /\
  ((0 <= pidHypo cfg d <= 4)%Z ->
   (Z.of_N (trackedAs d ntrack ptrack) <> pidHypo cfg d -> rejected) /\
   (Z.of_N (trackedAs d ntrack ptrack) = pidHypo cfg d ->
    unconstrained /\
    result
    = acceptV0 ext (with_pidHypo d (-1) cfg) v0 ntrack ptrack collision)) /\
  (~ validPidSwitch (pidHypo cfg d) ->
   result <> Returns true /\
   (result = Fatal (pidMessage d) <-> reaches position statements) /\
   (forall k, (k < position)%nat -> reaches k statements ->
      nth_error statements k = Some (Some (Returns false)) ->
      result = Returns false)) /\
  (forall x ntrack' ptrack',
     sameExceptPid d ntrack ptrack ntrack' ptrack' ->
     otherStatements position
       (checks ext (with_pidHypo d x cfg) v0 ntrack' ptrack' collision)
     = others).
Proof.
  intros result statements position others rejected unconstrained.
  pose proof (pid_statement ext cfg v0 ntrack ptrack collision d) as Hs.
  assert (Hun : nth_error statements position = Some None -> unconstrained).
  { intros E. split.
    - unfold result. rewrite acceptV0_checks. apply first_outcome_skip, E.
    - unfold result. rewrite acceptV0_true_iff.
      apply Forall_otherStatements, E. }
  split; [ | split; [ | split]].
  - intros Hsel. split.
    + apply Hun. rewrite Hsel in Hs. exact Hs.
    + intros ntrack' ptrack' Hsame. unfold result.
      rewrite !acceptV0_checks. f_equal.
      destruct d; simpl in Hsel, Hsame;
        destruct Hsame as [-> [x ->]]; unfold checks; rewrite Hsel;
        reflexivity.
  - intros Hr. split.
    + intros Hne. rewrite (pidSwitch_mismatch _ _ _ Hr Hne) in Hs.
      assert (Hn : result <> Returns true)
        by exact (acceptV0_rejected_by ext cfg v0 ntrack ptrack collision
                    _ _ Hs).
      split; [exact Hn | split].
      * intros Hv. apply not_accepted_valid; assumption.
      * intros Hre. unfold result. rewrite acceptV0_checks.
        exact (first_outcome_reaches _ _ _ Hre Hs).
    + intros He.
      pose proof (pidSwitch_match _ _ (pidMessage d) Hr He) as E.
      split.
      * apply Hun. rewrite E in Hs. exact Hs.
      * unfold result. rewrite !acceptV0_checks. f_equal.
        destruct d; simpl in E; unfold checks; rewrite E; reflexivity.
  - intros Hinv. rewrite (pidSwitch_invalid _ _ _ Hinv) in Hs.
    split; [ | split; [split | ]].
    + exact (acceptV0_rejected_by ext cfg v0 ntrack ptrack collision _ _ Hs).
    + apply fatal_of_pid_reaches.
    + intros Hr. unfold result. rewrite acceptV0_checks.
      exact (first_outcome_reaches _ _ _ Hr Hs).
    + intros k _ Hr Hk. unfold result. rewrite acceptV0_checks.
      exact (first_outcome_reaches _ _ _ Hr Hk).
  - intros x ntrack' ptrack' Hsame.
    destruct d; simpl in Hsame; destruct Hsame as [-> [y ->]]; reflexivity.
Qed.

Lemma pid_hypothesis_switches_witness :
  acceptV0 sampleExt (with_pidHypoPos 3 defaultConfig)
    (sampleV0 samplePos sampleNeg) sampleNeg samplePos sampleCollision
  = Returns false /\
  acceptV0 sampleExt invalidPidConfig
    (sampleV0 samplePos sampleNeg) sampleNeg samplePos sampleCollision
  = Fatal "Invalid PID selection for positive daughter" /\
  acceptV0 sampleExt defaultConfig
    (sampleV0 samplePos sampleNeg) sampleNeg samplePos sampleCollision
  = Returns true /\
  acceptV0 sampleExt invalidPidConfig
    (lowRadiusV0 samplePos sampleNeg) sampleNeg samplePos sampleCollision
  = Returns false.
Proof.
  split; [ | split; [ | split]].
  - refine (proj1 (proj2 (proj1 (proj1 (proj2 (pid_hypothesis_switches
              sampleExt (with_pidHypoPos 3 defaultConfig)
              (sampleV0 samplePos sampleNeg) sampleNeg samplePos
              sampleCollision Positive)) _) _)) _).
    + simpl. lia.
    + simpl. discriminate.
    + valid_switches.
  - refine (proj2 (proj1 (proj2 (proj1 (proj2 (proj2
              (pid_hypothesis_switches sampleExt invalidPidConfig
                 (sampleV0 samplePos sampleNeg) sampleNeg samplePos
                 sampleCollision Positive))) _))) _).
    + unfold validPidSwitch. simpl. lia.
    + unfold reaches. vm_compute. repeat constructor.
  - refine (proj2 (proj2 (proj1 (proj1
              (pid_hypothesis_switches sampleExt defaultConfig
                 (sampleV0 samplePos sampleNeg) sampleNeg samplePos
                 sampleCollision Positive) eq_refl))) _).
    vm_compute. repeat constructor.
  - refine (proj2 (proj2 (proj1 (proj2 (proj2
              (pid_hypothesis_switches sampleExt invalidPidConfig
                 (lowRadiusV0 samplePos sampleNeg) sampleNeg samplePos
                 sampleCollision Positive))) _)) 1%nat _ _ _).
    + unfold validPidSwitch. simpl. lia.
    + simpl. lia.
    + unfold reaches. vm_compute. repeat constructor.
    + vm_compute. reflexivity.
Defined.

(** C8, as stated, fails: with the undocumented value 5 of [pidHypoPos],
    a candidate whose radius is below the radius cut is rejected without
    any fatal error. *)
Lemma invalid_pid_switch_counterexample :
  ~ validPidSwitch (pidHypo invalidPidConfig Positive) /\
  acceptV0 sampleExt invalidPidConfig (lowRadiusV0 samplePos sampleNeg)
    sampleNeg samplePos sampleCollision = Returns false.
Proof.
  split; [ | vm_compute; reflexivity].
  unfold validPidSwitch. simpl. lia.
Qed.

(** ** Which fatal error ends acceptV0 *)

(** X1. [acceptV0] ends in the fatal error of a detector switch (of a
    PID-hypothesis switch) exactly when that switch holds an undocumented
    value and every statement placed before it falls through; it ends in
    no other fatal error than these eight, and in none when all switches
    hold documented values. *)
Theorem fatal_identifies_switch {T : Type} (ext : External) (cfg : Config)
    (v0 : V0Data.t T) (ntrack ptrack : Track.t) (collision : Collision.t) :
  let result := acceptV0 ext cfg v0 ntrack ptrack collision in
  let l := checks ext cfg v0 ntrack ptrack collision in
  (forall sw, result = Fatal (switchMessage sw) <->
              ~ validDetSwitch (switchValue cfg sw) /\
              reaches (switchPosition sw) l) /\
  (forall d, result = Fatal (pidMessage d) <->
             ~ validPidSwitch (pidHypo cfg d) /\ reaches (pidPosition d) l) /\
  (forall msg, result = Fatal msg ->
               In msg fatalMessages /\ ~ validSwitches cfg).
Proof.
  intros result l.
  assert (Hf : forall msg, result = Fatal msg ->
            exists k, reaches k l /\
              ((exists sw, k = switchPosition sw /\ msg = switchMessage sw /\
                           ~ validDetSwitch (switchValue cfg sw)) \/
               (exists d, k = pidPosition d /\ msg = pidMessage d /\
                          ~ validPidSwitch (pidHypo cfg d)))).
  { intros msg H. unfold result in H. rewrite acceptV0_checks in H.
    destruct (first_outcome_fatal _ _ H) as (k & Hk & Hr).
    exists k. split; [exact Hr | ].
    exact (checks_fatal_position ext cfg v0 ntrack ptrack collision k msg Hk). }
  split; [ | split].
  - intros sw. split.
    + intros H. destruct (Hf _ H) as (k & Hr & [(sw' & -> & E & Hn) | (d & _ & E & _)]).
      * apply switchMessage_inj in E. subst sw'. auto.
      * exfalso. exact (switch_pid_messages_differ _ _ E).
    + intros [Hn Hr]. unfold result. rewrite acceptV0_checks.
      apply (first_outcome_reaches _ _ _ Hr).
      unfold l. rewrite switch_statement, (detSwitch_invalid _ _ _ Hn).
      reflexivity.
  - intros d. split.
    + intros H. destruct (Hf _ H) as (k & Hr & [(sw & _ & E & _) | (d' & -> & E & Hn)]).
      * exfalso. symmetry in E. exact (switch_pid_messages_differ _ _ E).
      * apply pidMessage_inj in E. subst d'. auto.
    + intros [Hn Hr]. unfold result. rewrite acceptV0_checks.
      apply (first_outcome_reaches _ _ _ Hr).
      unfold l. rewrite pid_statement, (pidSwitch_invalid _ _ _ Hn).
      reflexivity.
  - intros msg H. split.
    + destruct (Hf _ H) as (k & _ & [(sw & _ & -> & _) | (d & _ & -> & _)]).
      * unfold fatalMessages. apply in_or_app. left. apply in_map.
        destruct sw; simpl; auto 10.
      * unfold fatalMessages. apply in_or_app. right. apply in_map.
        destruct d; simpl; auto.
    + intros Hv.
      destruct (acceptV0_valid_returns ext cfg v0 ntrack ptrack collision Hv)
        as [E | E]; unfold result in H; rewrite E in H; discriminate.
Qed.

(** ** Where a process function is stopped *)

Lemma for_each_abort_point {A : Type} (body : A -> Hists -> run)
    (per : A -> Hists) (fatal : A -> option string) (t : Fill) :
  (forall v h, match fatal v with
               | None => body v h = Finished (h ++ per v)
               | Some m => body v h = Aborted m (h ++ [t])
               end) ->
  forall l h msg h',
    for_each body l h = Aborted msg h' <->
    exists pre v rest,
      l = pre ++ v :: rest /\ (forall u, In u pre -> fatal u = None) /\
      fatal v = Some msg /\ h' = h ++ flat_map per pre ++ [t].
Proof.
  intros Hb. induction l as [ | v l IH]; intros h msg h'.
  - simpl. split; [discriminate | ].
    intros (pre & w & rest & E & _). destruct pre; discriminate E.
  - simpl. specialize (Hb v h). destruct (fatal v) as [m | ] eqn:Fv.
    + rewrite Hb. split.
      * intros E. injection E as <- <-. exists [], v, l. simpl.
        repeat split; trivial. intros u [].
      * intros ([ | u pre] & w & rest & E & Hpre & Fw & ->).
        -- simpl in E. injection E as <- <-. simpl.
           rewrite Fv in Fw. injection Fw as ->. reflexivity.
        -- simpl in E. injection E as <- _.
           rewrite (Hpre v (or_introl eq_refl)) in Fv. discriminate.
    + rewrite Hb, IH. split.
      * intros (pre & w & rest & -> & Hpre & Fw & ->).
        exists (v :: pre), w, rest. simpl.
        split; [reflexivity | split; [ | split; [exact Fw | ]]].
        -- intros u [<- | Hu]; auto.
        -- rewrite <- !app_assoc. reflexivity.
      * intros ([ | u pre] & w & rest & E & Hpre & Fw & ->).
        -- simpl in E. injection E as <- _. rewrite Fv in Fw. discriminate.
        -- simpl in E. injection E as <- ->.
           exists pre, w, rest. simpl.
           split; [reflexivity | split; [ | split; [exact Fw | ]]].
           ++ intros x Hx. apply Hpre. right. exact Hx.
           ++ rewrite <- !app_assoc. reflexivity.
Qed.

Lemma processData_body_returns (ext : External) (cfg : Config)
    (collision : Collision.t) (v0 : V0Data.t Track.t) (b : bool) (h : Hists) :
  acceptData ext cfg collision v0 = Returns b ->
  processData_body ext cfg collision v0 h
  = Finished (h ++ candidateTick :: dataContribution ext cfg collision v0).
Proof.
  unfold acceptData, dataContribution. intros E. destruct b.
  - rewrite !(processData_body_accepted ext cfg collision v0 _ E). reflexivity.
  - rewrite !(processData_body_rejected ext cfg collision v0 _ E). reflexivity.
Qed.

Lemma processData_body_fatal (ext : External) (cfg : Config)
    (collision : Collision.t) (v0 : V0Data.t Track.t) (msg : string)
    (h : Hists) :
  acceptData ext cfg collision v0 = Fatal msg ->
  processData_body ext cfg collision v0 h = Aborted msg (h ++ [candidateTick]).
Proof. unfold acceptData, processData_body. intros ->. reflexivity. Qed.

Lemma processMC_body_returns (ext : External) (cfg : Config)
    (collision : Collision.t) (mcv0 : McV0.t) (b : bool) (h : Hists) :
  acceptMC ext cfg collision mcv0 = Returns b ->
  processMC_body ext cfg collision mcv0 h
  = Finished (h ++ candidateTick :: mcContribution ext cfg collision mcv0).
Proof.
  unfold acceptMC, mcContribution. intros E. destruct b.
  - destruct (matched_or_mismatched mcv0) as [(p & n & Hm) | Hm].
    + rewrite !(processMC_body_matched ext cfg collision mcv0 p n _ E Hm).
      reflexivity.
    + rewrite !(processMC_body_mismatched ext cfg collision mcv0 _ E Hm).
      reflexivity.
  - rewrite !(processMC_body_rejected ext cfg collision mcv0 _ E). reflexivity.
Qed.

Lemma processMC_body_fatal (ext : External) (cfg : Config)
    (collision : Collision.t) (mcv0 : McV0.t) (msg : string) (h : Hists) :
  acceptMC ext cfg collision mcv0 = Fatal msg ->
  processMC_body ext cfg collision mcv0 h = Aborted msg (h ++ [candidateTick]).
Proof. unfold acceptMC, processMC_body. intros ->. reflexivity. Qed.

Lemma outcome_fatal_or_returns (o : outcome) :
  match o with Fatal m => Some m | Returns _ => None end = None <->
  exists b, o = Returns b.
Proof.
  destruct o as [b | m]; split; try discriminate; eauto.
  intros [b H]. discriminate H.
Qed.

(** X2. A process function is stopped by a fatal error exactly at the
    first candidate for which [acceptV0] ends in a fatal error: the
    candidates before it have been handled completely, the stopping
    candidate has made its tick of the event counter and nothing else, and
    the candidates after it are not looked at. *)
Theorem process_stops_at_first_fatal (ext : External) (cfg : Config)
    (collision : Collision.t) :
  (forall v0s h msg h',
     processData ext cfg collision v0s h = Aborted msg h' <->
     exists pre v rest,
       v0s = pre ++ v :: rest /\
       (forall u, In u pre ->
                  exists b, acceptData ext cfg collision u = Returns b) /\
       acceptData ext cfg collision v = Fatal msg /\
       h' = h ++ eventTick
              :: flat_map (fun u => candidateTick
                             :: dataContribution ext cfg collision u) pre
              ++ [candidateTick]) /\
  (forall v0s h msg h',
     processMC ext cfg collision v0s h = Aborted msg h' <->
     exists pre v rest,
       v0s = pre ++ v :: rest /\
       (forall u, In u pre ->
                  exists b, acceptMC ext cfg collision u = Returns b) /\
       acceptMC ext cfg collision v = Fatal msg /\
       h' = h ++ eventTick
              :: flat_map (fun u => candidateTick
                             :: mcContribution ext cfg collision u) pre
              ++ [candidateTick]).
Proof.
  split; intros v0s h msg h'.
  - unfold processData, fill. cbv zeta.
    rewrite (for_each_abort_point _
               (fun u => candidateTick :: dataContribution ext cfg collision u)
               (fun u => match acceptData ext cfg collision u with
                         | Fatal m => Some m
                         | Returns _ => None
                         end) candidateTick).
    + split; intros (pre & v & rest & E & Hpre & Hv & ->);
        exists pre, v, rest; (split; [exact E | split; [ | split]]).
      * intros u Hu. apply outcome_fatal_or_returns, Hpre, Hu.
      * destruct (acceptData ext cfg collision v); [discriminate | congruence].
      * rewrite <- app_assoc. reflexivity.
      * intros u Hu. apply outcome_fatal_or_returns, Hpre, Hu.
      * rewrite Hv. reflexivity.
      * rewrite <- app_assoc. reflexivity.
    + intros v g. destruct (acceptData ext cfg collision v) as [b | m] eqn:E.
      * exact (processData_body_returns ext cfg collision v b g E).
      * exact (processData_body_fatal ext cfg collision v m g E).
  - unfold processMC, fill. cbv zeta.
    rewrite (for_each_abort_point _
               (fun u => candidateTick :: mcContribution ext cfg collision u)
               (fun u => match acceptMC ext cfg collision u with
                         | Fatal m => Some m
                         | Returns _ => None
                         end) candidateTick).
    + split; intros (pre & v & rest & E & Hpre & Hv & ->);
        exists pre, v, rest; (split; [exact E | split; [ | split]]).
      * intros u Hu. apply outcome_fatal_or_returns, Hpre, Hu.
      * destruct (acceptMC ext cfg collision v); [discriminate | congruence].
      * rewrite <- app_assoc. reflexivity.
      * intros u Hu. apply outcome_fatal_or_returns, Hpre, Hu.
      * rewrite Hv. reflexivity.
      * rewrite <- app_assoc. reflexivity.
    + intros v g. destruct (acceptMC ext cfg collision v) as [b | m] eqn:E.
      * exact (processMC_body_returns ext cfg collision v b g E).
      * exact (processMC_body_fatal ext cfg collision v m g E).
Qed.

(** ** Registered and filled histograms *)

Lemma for_each_preserves {A : Type} (body : A -> Hists -> run)
    (P : Fill -> Prop) (l : list A) :
  (forall v h, exists d, hists_of (body v h) = h ++ d /\ Forall P d) ->
  forall h, exists d, hists_of (for_each body l h) = h ++ d /\ Forall P d.
Proof.
  intros Hb. induction l as [ | v l IH]; intros h; simpl.
  - exists []. rewrite app_nil_r. split; [reflexivity | constructor].
  - destruct (Hb v h) as (d & Hd & Pd).
    destruct (body v h) as [h' | msg h']; simpl in Hd; subst h'.
    + destruct (IH (h ++ d)) as (d' & Hd' & Pd'). exists (d ++ d').
      rewrite Hd', app_assoc. split; [reflexivity | ].
      apply Forall_app. split; assumption.
    + exists d. split; [reflexivity | exact Pd].
Qed.

Lemma process_preserves {A : Type} (body : A -> Hists -> run)
    (P : Fill -> Prop) (l : list A) (h : Hists) :
  P eventTick ->
  (forall v g, exists d, hists_of (body v g) = g ++ d /\ Forall P d) ->
  exists d,
    hists_of (for_each body l (fill rK0sResolution "h1_events"
                                 [Some (Num 0.5)] h))
    = h ++ d /\ Forall P d.
Proof.
  intros Pt Hb. unfold fill.
  destruct (for_each_preserves body P l Hb (h ++ [eventTick]))
    as (d & Hd & Pd).
  exists (eventTick :: d). unfold eventTick in Hd.
  rewrite Hd, <- app_assoc. split; [reflexivity | ].
  constructor; assumption.
Qed.

Lemma processData_body_delta (ext : External) (cfg : Config)
    (collision : Collision.t) (v0 : V0Data.t Track.t) (h : Hists) :
  hists_of (processData_body ext cfg collision v0 h) = h ++ [candidateTick] \/
  hists_of (processData_body ext cfg collision v0 h)
  = h ++ candidateTick :: dataFills ext cfg v0 [].
Proof.
  unfold processData_body.
  destruct (acceptV0 ext cfg v0 _ _ collision) as [[ | ] | msg]; simpl; auto.
  right. rewrite dataFills_app. unfold fill. rewrite <- app_assoc. reflexivity.
Qed.

Lemma processMC_body_delta (ext : External) (cfg : Config)
    (collision : Collision.t) (mcv0 : McV0.t) (h : Hists) :
  hists_of (processMC_body ext cfg collision mcv0 h) = h ++ [candidateTick] \/
  exists posMc negMc,
    hists_of (processMC_body ext cfg collision mcv0 h)
    = h ++ candidateTick :: mcFills ext cfg mcv0 posMc negMc [].
Proof.
  unfold processMC_body.
  destruct (acceptV0 ext cfg (McV0.v0 mcv0) _ _ collision) as [[ | ] | msg];
    simpl; auto.
  destruct (McTrack.mcParticle _) as [p | ]; auto.
  destruct (McTrack.mcParticle _) as [n | ]; auto.
  destruct (negb _ || negb _); auto.
  right. exists p, n. simpl. rewrite mcFills_app. unfold fill.
  rewrite <- app_assoc. reflexivity.
Qed.

Lemma init_names_NoDup (cfg : Config) : NoDup (map h_name (init cfg)).
Proof.
  unfold init.
  destruct (doprocessMC cfg), (useMultidimHisto cfg), (enableTPCPlot cfg);
    simpl;
    repeat (apply NoDup_cons;
            [simpl; intros H;
             repeat (destruct H as [H | H]; [discriminate H | ]);
             exact H | ]);
    apply NoDup_nil.
Qed.

(** X3. [init] never registers a name twice, and whatever the
    configuration it registers the event counter and the three mass
    histograms. *)
Theorem init_registers_once (cfg : Config) :
  NoDup (map h_name (init cfg)) /\
  incl ("h1_events"%string :: commonMassHistograms) (map h_name (init cfg)).
Proof.
  split; [apply init_names_NoDup | ].
  unfold init, commonMassHistograms. rewrite !map_app.
  intros x Hx. simpl in Hx.
  destruct Hx as [<- | Hx]; [apply in_or_app; left; simpl; auto | ].
  apply in_or_app. right. apply in_or_app. right. apply in_or_app. left.
  simpl. tauto.
Qed.

Ltac pick_registered :=
  (left; reflexivity) + (right; pick_registered).

Ltac registered_with_arity :=
  eexists;
  split; [simpl; pick_registered | split; [reflexivity | split; reflexivity]].

Lemma ticks_registered (cfg : Config) :
  registeredWithArity cfg eventTick /\ registeredWithArity cfg candidateTick.
Proof.
  split; unfold registeredWithArity, init; registered_with_arity.
Qed.

Lemma dataFills_registered (ext : External) (cfg : Config)
    (v0 : V0Data.t Track.t) :
  (useMultidimHisto cfg = true -> doprocessMC cfg = false) ->
  Forall (registeredWithArity cfg) (dataFills ext cfg v0 []).
Proof.
  intros Hc. unfold registeredWithArity, dataFills, fill, init.
  destruct (useMultidimHisto cfg), (doprocessMC cfg), (enableTPCPlot cfg);
    try (specialize (Hc eq_refl); discriminate Hc);
    simpl; repeat (apply Forall_cons; [registered_with_arity | ]);
    apply Forall_nil.
Qed.

Lemma mcFills_registered (ext : External) (cfg : Config) (mcv0 : McV0.t)
    (posMc negMc : McParticle.t) :
  doprocessMC cfg = true ->
  Forall (registeredWithArity cfg) (mcFills ext cfg mcv0 posMc negMc []).
Proof.
  intros Hc. unfold registeredWithArity, mcFills, fill, init. rewrite Hc.
  destruct (useMultidimHisto cfg), (enableTPCPlot cfg);
    simpl; repeat (apply Forall_cons; [registered_with_arity | ]);
    apply Forall_nil.
Qed.

(** X4. The process functions keep the registries well-formed: if every
    fill made so far went to a histogram that [init] registered, with as
    many coordinates as the histogram has axes, the same holds after
    [processData], provided the multi-dimensional histogram is not enabled
    together with [processMC], and after [processMC], provided [processMC]
    is enabled; this holds also when the call is stopped by a fatal
    error. *)
Theorem fills_match_registration (ext : External) (cfg : Config)
    (collision : Collision.t) (h : Hists) :
  Forall (registeredWithArity cfg) h ->
  ((useMultidimHisto cfg = true -> doprocessMC cfg = false) ->
   forall v0s,
     Forall (registeredWithArity cfg)
       (hists_of (processData ext cfg collision v0s h))) /\
  (doprocessMC cfg = true ->
   forall v0s,
     Forall (registeredWithArity cfg)
       (hists_of (processMC ext cfg collision v0s h))).
Proof.
  intros Hh. destruct (ticks_registered cfg) as [He Hc]. split.
  - intros Hcfg v0s. unfold processData. cbv zeta.
    destruct (process_preserves (processData_body ext cfg collision)
                (registeredWithArity cfg) v0s h He) as (d & Hd & Pd).
    + intros v g.
      destruct (processData_body_delta ext cfg collision v g) as [E | E];
        rewrite E; eexists; (split; [reflexivity | ]).
      * constructor; [exact Hc | constructor].
      * constructor; [exact Hc | apply dataFills_registered, Hcfg].
    + rewrite Hd. apply Forall_app. split; assumption.
  - intros Hcfg v0s. unfold processMC. cbv zeta.
    destruct (process_preserves (processMC_body ext cfg collision)
                (registeredWithArity cfg) v0s h He) as (d & Hd & Pd).
    + intros v g.
      destruct (processMC_body_delta ext cfg collision v g)
        as [E | (p & n & E)]; rewrite E; eexists; (split; [reflexivity | ]).
      * constructor; [exact Hc | constructor].
      * constructor; [exact Hc | apply mcFills_registered, Hcfg].
    + rewrite Hd. apply Forall_app. split; assumption.
Qed.

Lemma fills_match_registration_witness :
  Forall (registeredWithArity tpcPlotConfig)
    (hists_of (processData sampleExt tpcPlotConfig sampleCollision
                 [sampleV0 samplePos sampleNeg] [])).
Proof.
  apply (fills_match_registration sampleExt tpcPlotConfig sampleCollision []).
  - constructor.
  - intros H. discriminate H.
Defined.

Lemma dataContribution_accepted (ext : External) (cfg : Config)
    (collision : Collision.t) (v0 : V0Data.t Track.t) :
  acceptedData ext cfg collision v0 ->
  dataContribution ext cfg collision v0 = dataFills ext cfg v0 [].
Proof.
  intros Ha. unfold dataContribution.
  rewrite (processData_body_accepted ext cfg collision v0 [] Ha). reflexivity.
Qed.

Lemma mcContribution_matched (ext : External) (cfg : Config)
    (collision : Collision.t) (mcv0 : McV0.t) (posMc negMc : McParticle.t) :
  acceptedMC ext cfg collision mcv0 ->
  daughtersMatched mcv0 posMc negMc ->
  mcContribution ext cfg collision mcv0 = mcFills ext cfg mcv0 posMc negMc [].
Proof.
  intros Ha Hm. unfold mcContribution.
  rewrite (processMC_body_matched ext cfg collision mcv0 posMc negMc [] Ha Hm).
  reflexivity.
Qed.

(** X5. When the multi-dimensional histogram is enabled together with
    [processMC], [init] registers [thn_mass] with nine axes, and every
    candidate that [processData] accepts makes a fill of [thn_mass] with
    six coordinates. *)
Theorem data_fill_of_thn_mass_with_mc_axes (ext : External) (cfg : Config)
    (collision : Collision.t) (v0 : V0Data.t Track.t) :
  useMultidimHisto cfg = true ->
  doprocessMC cfg = true ->
  acceptedData ext cfg collision v0 ->
  (forall s, In s (init cfg) -> h_name s = "thn_mass"%string ->
             List.length (h_axes s) = 9%nat) /\
  exists f,
    In f (dataContribution ext cfg collision v0) /\
    f_name f = "thn_mass"%string /\ List.length (f_coords f) = 6%nat.
Proof.
  intros Hm Hc Ha. split.
  - unfold init. rewrite Hm, Hc.
    destruct (enableTPCPlot cfg); simpl; intros s H;
      repeat (destruct H as [<- | H];
              [simpl; intros E; try discriminate E; reflexivity | ]);
      contradiction.
  - rewrite (dataContribution_accepted ext cfg collision v0 Ha).
    unfold dataFills, fill. rewrite Hm. cbv zeta.
    destruct (enableTPCPlot cfg); simpl; eexists;
      (split; [do 3 right; left; reflexivity | split; reflexivity]).
Qed.

Lemma data_fill_of_thn_mass_with_mc_axes_witness :
  exists f,
    In f (dataContribution sampleExt bothProcessesConfig sampleCollision
            (sampleV0 samplePos sampleNeg)) /\
    f_name f = "thn_mass"%string /\ List.length (f_coords f) = 6%nat.
Proof.
  apply (data_fill_of_thn_mass_with_mc_axes sampleExt bothProcessesConfig
           sampleCollision (sampleV0 samplePos sampleNeg));
    vm_compute; reflexivity.
Defined.

Lemma count_fills_other (name : string) (h d : Hists) :
  Forall (fun f => f_name f <> name) d ->
  count_fills name (h ++ d) = count_fills name h.
Proof.
  intros Hd. rewrite count_fills_app.
  assert (E : count_fills name d = 0%nat); [ | lia].
  unfold count_fills. induction Hd as [ | f d Hf _ IH]; [reflexivity | ].
  cbn [filter]. destruct (String.eqb_spec (f_name f) name); [contradiction | ].
  exact IH.
Qed.

Lemma dataFillNames_not_resolution (cfg : Config) (name : string) :
  In name resolutionHistograms -> ~ In name (dataFillNames cfg).
Proof.
  unfold resolutionHistograms, dataFillNames.
  destruct (useMultidimHisto cfg), (enableTPCPlot cfg); simpl;
    intros H; repeat (destruct H as [<- | H]);
    try contradiction; intros H;
    repeat (destruct H as [H | H]; [discriminate H | ]); exact H.
Qed.

Lemma mcFillNames_not_tpc (cfg : Config) :
  ~ In "h3_tpc_vs_pid_hypothesis"%string (mcFillNames cfg).
Proof.
  unfold mcFillNames. destruct (useMultidimHisto cfg); simpl; intros H;
    repeat (destruct H as [H | H]; [discriminate H | ]); exact H.
Qed.

Lemma names_Forall (name : string) (d : Hists) :
  ~ In name (map f_name d) -> Forall (fun f => f_name f <> name) d.
Proof.
  intros Hn. apply Forall_forall. intros f Hf E. apply Hn.
  rewrite <- E. apply in_map, Hf.
Qed.

(** X6. Whatever the configuration and the candidates, and also when
    stopped by a fatal error, [processMC] makes no fill of the TPC plot
    [h3_tpc_vs_pid_hypothesis], although [init] registers it when the plot
    is enabled, and [processData] makes no fill of any of the ten
    resolution histograms. *)
Theorem histograms_a_process_never_fills (ext : External) (cfg : Config)
    (collision : Collision.t) (h : Hists) :
  (forall v0s,
     count_fills "h3_tpc_vs_pid_hypothesis"
       (hists_of (processMC ext cfg collision v0s h))
     = count_fills "h3_tpc_vs_pid_hypothesis" h) /\
  (enableTPCPlot cfg = true ->
   In "h3_tpc_vs_pid_hypothesis"%string (map h_name (init cfg))) /\
  (forall v0s name,
     In name resolutionHistograms ->
     count_fills name (hists_of (processData ext cfg collision v0s h))
     = count_fills name h).
Proof.
  split; [ | split].
  - intros v0s. unfold processMC. cbv zeta.
    destruct (process_preserves (processMC_body ext cfg collision)
                (fun f => f_name f <> "h3_tpc_vs_pid_hypothesis"%string)
                v0s h) as (d & Hd & Pd).
    + discriminate.
    + intros v g.
      destruct (processMC_body_delta ext cfg collision v g)
        as [E | (p & n & E)]; rewrite E; eexists; (split; [reflexivity | ]).
      * constructor; [discriminate | constructor].
      * constructor; [discriminate | ].
        apply names_Forall. rewrite mcFills_names. apply mcFillNames_not_tpc.
    + rewrite Hd. apply count_fills_other, Pd.
  - intros Ht. unfold init. rewrite Ht, !map_app.
    do 4 (apply in_or_app; right). simpl. auto.
  - intros v0s name Hn. unfold processData. cbv zeta.
    assert (Ht : "h1_events"%string <> name).
    { intros <-. unfold resolutionHistograms in Hn. simpl in Hn.
      repeat (destruct Hn as [Hn | Hn]; [discriminate Hn | ]). exact Hn. }
    destruct (process_preserves (processData_body ext cfg collision)
                (fun f => f_name f <> name) v0s h) as (d & Hd & Pd).
    + exact Ht.
    + intros v g.
      destruct (processData_body_delta ext cfg collision v g) as [E | E];
        rewrite E; eexists; (split; [reflexivity | ]).
      * constructor; [exact Ht | constructor].
      * constructor; [exact Ht | ].
        apply names_Forall. rewrite dataFills_names.
        apply dataFillNames_not_resolution, Hn.
    + rewrite Hd. apply count_fills_other, Pd.
Qed.

(** ** NaN in the filters *)

Lemma Flt_isNum (a b : float) : (a < b)%F -> isNum a /\ isNum b.
Proof. destruct a, b; simpl; tauto. Qed.

Lemma isNum_Fabs_inv (a : float) : isNum (Fabs a) -> isNum a.
Proof. destruct a; trivial. Qed.

(** X7. The filters let no NaN through: a V0 that passes [v0Filter] has
    numbers in its two daughter DCAs, its DCA between daughters and its
    cosine of pointing angle, and a collision that passes [posZFilter] has
    a number as z position.  The process functions are called for the
    collisions that pass both collision filters and loop over exactly the
    V0s that pass [v0Filter], all of which have numbers in the four
    columns; so a V0 with NaN in one of them is treated as if it were not
    in the table, and a collision with NaN as z position is not
    processed. *)
Theorem filters_reject_nan (ext : External) (cfg : Config)
    (collision : Collision.t) :
  let numeric {T : Type} (v0 : V0Data.t T) :=
    isNum (V0Data.dcapostopv v0) /\ isNum (V0Data.dcanegtopv v0) /\
    isNum (V0Data.dcaV0daughters v0) /\ isNum (V0Data.v0cosPA v0) in
  let selected := eventFilter cfg collision && posZFilter cfg collision in
  (forall (T : Type) (v0 : V0Data.t T), v0Filter cfg v0 = true -> numeric v0) /\
  (posZFilter cfg collision = true -> isNum (Collision.posZ collision)) /\
  (forall (v0s : list (V0Data.t Track.t)) (h : Hists),
     let looped := filter (v0Filter cfg) v0s in
     (forall v0, In v0 looped -> In v0 v0s /\ numeric v0) /\
     (selected = true ->
      isNum (Collision.posZ collision) /\
      runData ext cfg collision v0s h
      = processData ext cfg collision looped h) /\
     (selected = false -> runData ext cfg collision v0s h = Finished h)) /\
  (forall (v0s : list McV0.t) (h : Hists),
     let looped := filter (fun mcv0 => v0Filter cfg (McV0.v0 mcv0)) v0s in
     (forall v0, In v0 looped -> In v0 v0s /\ numeric (McV0.v0 v0)) /\
     (selected = true ->
      isNum (Collision.posZ collision) /\
      runMC ext cfg collision v0s h
      = processMC ext cfg collision looped h) /\
     (selected = false -> runMC ext cfg collision v0s h = Finished h)) /\
  (forall (pre post : list (V0Data.t Track.t)) (v0 : V0Data.t Track.t)
          (h : Hists),
     ~ numeric v0 ->
     runData ext cfg collision (pre ++ v0 :: post) h
     = runData ext cfg collision (pre ++ post) h) /\
  (forall (pre post : list McV0.t) (mcv0 : McV0.t) (h : Hists),
     ~ numeric (McV0.v0 mcv0) ->
     runMC ext cfg collision (pre ++ mcv0 :: post) h
     = runMC ext cfg collision (pre ++ post) h) /\
  (~ isNum (Collision.posZ collision) ->
   (forall v0s h, runData ext cfg collision v0s h = Finished h) /\
   (forall v0s h, runMC ext cfg collision v0s h = Finished h)).
Proof.
  intros numeric selected.
  assert (Hf : forall (T : Type) (v0 : V0Data.t T),
             v0Filter cfg v0 = true -> numeric T v0).
  { intros T v0 H. apply v0Filter_iff in H. destruct H as (H1 & H2 & H3 & H4).
    apply Flt_isNum in H1, H2, H3, H4. unfold numeric.
    repeat split; try tauto; apply isNum_Fabs_inv; tauto. }
  assert (Hz : posZFilter cfg collision = true ->
               isNum (Collision.posZ collision)).
  { unfold posZFilter. intros H. apply Fltb_lt, Flt_isNum in H.
    apply isNum_Fabs_inv. tauto. }
  assert (Hs : selected = true -> isNum (Collision.posZ collision)).
  { unfold selected. intros H. apply andb_true_iff in H. apply Hz, H. }
  assert (Hn : forall (T : Type) (v0 : V0Data.t T),
             ~ numeric T v0 -> v0Filter cfg v0 = false).
  { intros T v0 H. destruct (v0Filter cfg v0) eqn:E; trivial.
    exfalso. apply H, Hf, E. }
  split; [exact Hf | split; [exact Hz | ]].
  split; [ | split; [ | split; [ | split]]].
  - intros v0s h looped. split; [ | split].
    + intros v0 Hin. apply filter_In in Hin. split; [ | apply Hf]; apply Hin.
    + intros E. split; [exact (Hs E) | ].
      unfold runData. fold selected. rewrite E. reflexivity.
    + intros E. unfold runData. fold selected. rewrite E. reflexivity.
  - intros v0s h looped. split; [ | split].
    + intros v0 Hin. apply filter_In in Hin. split; [ | apply Hf]; apply Hin.
    + intros E. split; [exact (Hs E) | ].
      unfold runMC. fold selected. rewrite E. reflexivity.
    + intros E. unfold runMC. fold selected. rewrite E. reflexivity.
  - intros pre post v0 h Hv. unfold runData.
    rewrite !filter_app. cbn [filter]. rewrite (Hn _ v0 Hv). reflexivity.
  - intros pre post mcv0 h Hv. unfold runMC.
    rewrite !filter_app. cbn [filter]. rewrite (Hn _ (McV0.v0 mcv0) Hv).
    reflexivity.
  - intros Hv.
    assert (E : selected = false).
    { destruct selected eqn:E; trivial. exfalso. apply Hv, Hs. reflexivity. }
    split; intros v0s h; [unfold runData | unfold runMC];
      fold selected; rewrite E; reflexivity.
Qed.

Lemma filters_reject_nan_witness :
  isNum (V0Data.dcapostopv (sampleV0 samplePos sampleNeg)) /\
  runData sampleExt defaultConfig sampleCollision
    [sampleV0 samplePos sampleNeg] []
  = processData sampleExt defaultConfig sampleCollision
      [sampleV0 samplePos sampleNeg] [].
Proof.
  split.
  - refine (proj1 (proj1 (filters_reject_nan sampleExt defaultConfig
                            sampleCollision) _
                     (sampleV0 samplePos sampleNeg) eq_refl)).
  - refine (proj2 (proj1 (proj2 (proj1 (proj2 (proj2
              (filters_reject_nan sampleExt defaultConfig sampleCollision)))
              [sampleV0 samplePos sampleNeg] [])) eq_refl)).
Defined.

(** ** The acceptance condition for all values *)

Lemma not_ltb (a b : float) : Fltb a b = false <-> ~ (a < b)%F.
Proof.
  rewrite <- Fltb_lt. destruct (Fltb a b); split; congruence.
Qed.

(** X8. For every candidate and every configuration with documented
    switch values, NaN included, [acceptV0] returns true exactly when the
    predicates that compare no floating-point value hold and none of the
    seven comparisons of the source is true: rapidity above its cut, radius
    below its cut, distance over momentum times mass above 2.684 times the
    lifetime, a daughter's TPC deviation above its cut, a daughter's
    crossed rows below their minimum. *)
Theorem acceptV0_exact_condition {T : Type} (ext : External) (cfg : Config)
    (v0 : V0Data.t T) (ntrack ptrack : Track.t) (collision : Collision.t) :
  validSwitches cfg ->
  (acceptV0 ext cfg v0 ntrack ptrack collision = Returns true <->
   discretePredicates cfg ntrack ptrack /\
   ~ (v0setting_rapidity cfg < Fabs (V0Data.yK0Short v0))%F /\
   ~ (V0Data.v0radius v0 < v0setting_radius cfg)%F /\
   ~ (2.684 * v0lifetime cfg
      < V0Data.distovertotmom v0 (Collision.posX collision)
          (Collision.posY collision) (Collision.posZ collision)
        * sMasses_K0 ext)%F /\
   ~ (nMaxTPCNsigma cfg < Fabs (Track.tpcNSigmaPi ntrack))%F /\
   ~ (nMaxTPCNsigma cfg < Fabs (Track.tpcNSigmaPi ptrack))%F /\
   ~ (of_N (Track.tpcNClsCrossedRows ntrack) < extraCutTPCClusters cfg)%F /\
   ~ (of_N (Track.tpcNClsCrossedRows ptrack) < extraCutTPCClusters cfg)%F).
Proof.
  intros (H1 & H2 & H3 & H4 & H5 & H6 & H7 & H8).
  rewrite acceptV0_true_iff.
  unfold checks, tpcCuts, rapidityCut, radiusCut, lifetimeCut,
    discretePredicates.
  cbn [app]. rewrite !Forall_cons_iff, !itsSwitch_detSwitch.
  rewrite tpc_present_None.
  rewrite !reject_if_None, orb_false_iff, !not_ltb.
  rewrite (proj2 (detSwitch_valid _ _ _ H1)), (proj2 (detSwitch_valid _ _ _ H2)).
  rewrite (proj2 (detSwitch_valid _ _ _ H3)), (proj2 (detSwitch_valid _ _ _ H4)).
  rewrite (proj2 (detSwitch_valid _ _ _ H5)), (proj2 (detSwitch_valid _ _ _ H6)).
  rewrite (proj2 (pidSwitch_valid _ _ _ H7)), (proj2 (pidSwitch_valid _ _ _ H8)).
  pose proof (Forall_nil (fun s : stmt => s = None)). tauto.
Qed.

Lemma acceptV0_exact_condition_witness :
  acceptV0 sampleExt defaultConfig (sampleV0 nanSigmaPos sampleNeg)
    sampleNeg nanSigmaPos sampleCollision = Returns true <->
  discretePredicates defaultConfig sampleNeg nanSigmaPos /\
  ~ (v0setting_rapidity defaultConfig
     < Fabs (V0Data.yK0Short (sampleV0 nanSigmaPos sampleNeg)))%F /\
  ~ (V0Data.v0radius (sampleV0 nanSigmaPos sampleNeg)
     < v0setting_radius defaultConfig)%F /\
  ~ (2.684 * v0lifetime defaultConfig
     < V0Data.distovertotmom (sampleV0 nanSigmaPos sampleNeg)
         (Collision.posX sampleCollision) (Collision.posY sampleCollision)
         (Collision.posZ sampleCollision) * sMasses_K0 sampleExt)%F /\
  ~ (nMaxTPCNsigma defaultConfig < Fabs (Track.tpcNSigmaPi sampleNeg))%F /\
  ~ (nMaxTPCNsigma defaultConfig < Fabs (Track.tpcNSigmaPi nanSigmaPos))%F /\
  ~ (of_N (Track.tpcNClsCrossedRows sampleNeg)
     < extraCutTPCClusters defaultConfig)%F /\
  ~ (of_N (Track.tpcNClsCrossedRows nanSigmaPos)
     < extraCutTPCClusters defaultConfig)%F.
Proof.
  apply (acceptV0_exact_condition sampleExt defaultConfig
           (sampleV0 nanSigmaPos sampleNeg) sampleNeg nanSigmaPos
           sampleCollision).
  valid_switches.
Defined.

(** ** The three settings of a detector switch *)

Lemma detSwitch_documented (present : bool) (msg : string) :
  (detSwitch (-1) present msg = None <-> present = false) /\
  (detSwitch 0 present msg = None <-> True) /\
  (detSwitch 1 present msg = None <-> present = true).
Proof. destruct present; simpl; intuition congruence. Qed.

Lemma accept_with_switch {T : Type} (ext : External) (cfg : Config)
    (v0 : V0Data.t T) (ntrack ptrack : Track.t) (collision : Collision.t)
    (sw : DetSwitch) (x : Z) :
  acceptV0 ext (with_switch sw x cfg) v0 ntrack ptrack collision
  = Returns true <->
  detSwitch x (signalPresent sw ntrack ptrack) (switchMessage sw) = None /\
  acceptV0 ext (with_switch sw 0 cfg) v0 ntrack ptrack collision
  = Returns true.
Proof.
  rewrite !acceptV0_true_iff.
  destruct sw; unfold with_switch, checks, tpcCuts, rapidityCut, radiusCut,
    lifetimeCut; cbn [app]; rewrite !Forall_cons_iff, ?itsSwitch_detSwitch;
    simpl; tauto.
Qed.

(** X9. For each of the six detector switches, with the rest of the
    configuration fixed: the candidates accepted with value -1 are those
    accepted with value 0 whose daughter lacks the signal, the candidates
    accepted with value 1 are those accepted with value 0 whose daughter
    has it; so every candidate accepted with value 0 is accepted with
    exactly one of the values -1 and 1. *)
Theorem switch_settings_partition {T : Type} (ext : External) (cfg : Config)
    (v0 : V0Data.t T) (ntrack ptrack : Track.t) (collision : Collision.t)
    (sw : DetSwitch) :
  let accepted x :=
    acceptV0 ext (with_switch sw x cfg) v0 ntrack ptrack collision
    = Returns true in
  (accepted (-1)%Z <->
   accepted 0%Z /\ signalPresent sw ntrack ptrack = false) /\
  (accepted 1%Z <-> accepted 0%Z /\ signalPresent sw ntrack ptrack = true) /\
  (accepted 0%Z <-> accepted (-1)%Z \/ accepted 1%Z) /\
  ~ (accepted (-1)%Z /\ accepted 1%Z).
Proof.
  intros accepted. unfold accepted.
  rewrite (accept_with_switch ext cfg v0 ntrack ptrack collision sw (-1)).
  rewrite (accept_with_switch ext cfg v0 ntrack ptrack collision sw 1).
  destruct (detSwitch_documented (signalPresent sw ntrack ptrack)
              (switchMessage sw)) as (Em & _ & Ep).
  rewrite Em, Ep.
  destruct (signalPresent sw ntrack ptrack); intuition congruence.
Qed.

(** ** Relaxing the thresholds *)

Lemma Fle_lt_trans (a b c : float) : (a <= b)%F -> (b < c)%F -> (a < c)%F.
Proof.
  destruct a, b, c; simpl; try contradiction. apply Qle_lt_trans.
Qed.

Lemma Flt_le_trans (a b c : float) : (a < b)%F -> (b <= c)%F -> (a < c)%F.
Proof.
  destruct a, b, c; simpl; try contradiction. apply Qlt_le_trans.
Qed.

Lemma relaxed_upper (c c' v : float) :
  relaxed c c' -> ~ (c < v)%F -> ~ (c' < v)%F.
Proof.
  intros [<- | Hle] Hn H; [exact (Hn H) | ].
  apply Hn. exact (Fle_lt_trans _ _ _ Hle H).
Qed.

Lemma relaxed_lower (c c' v : float) :
  relaxed c' c -> ~ (v < c)%F -> ~ (v < c')%F.
Proof.
  intros [-> | Hle] Hn H; [exact (Hn H) | ].
  apply Hn. exact (Flt_le_trans _ _ _ H Hle).
Qed.

Lemma relaxed_scaled (a b : float) :
  relaxed a b -> relaxed (2.684 * a)%F (2.684 * b)%F.
Proof.
  intros [<- | Hle]; [left; reflexivity | right].
  destruct a as [x | ], b as [y | ]; simpl in *; try contradiction.
  apply Qmult_le_l; [reflexivity | exact Hle].
Qed.

(** X10. Relaxing thresholds never loses a candidate: if a configuration
    differs from another only by a rapidity, lifetime or TPC-deviation cut
    that is the same or higher and a radius or crossed-rows cut that is the
    same or lower, every candidate that [acceptV0] accepts under the
    stricter configuration is accepted under the looser one. *)
Theorem relaxing_thresholds_keeps_candidates {T : Type} (ext : External)
    (cfg cfg' : Config) (v0 : V0Data.t T) (ntrack ptrack : Track.t)
    (collision : Collision.t) :
  looser cfg cfg' ->
  acceptV0 ext cfg v0 ntrack ptrack collision = Returns true ->
  acceptV0 ext cfg' v0 ntrack ptrack collision = Returns true.
Proof.
  intros (E1 & E2 & E3 & E4 & E5 & E6 & E7 & E8 & Ry & Rr & Rl & Rs & Rc).
  rewrite !acceptV0_true_iff.
  unfold checks, tpcCuts, rapidityCut, radiusCut, lifetimeCut.
  cbn [app]. rewrite E1, E2, E3, E4, E5, E6, E7, E8.
  rewrite !Forall_cons_iff, !reject_if_None, !orb_false_iff, !not_ltb.
  intros (Hy & Hr & Hl & S1 & S2 & Ht & Hn & Hp & [Hcn Hcp] & Rest).
  repeat split; try tauto.
  - exact (relaxed_upper _ _ _ Ry Hy).
  - exact (relaxed_lower _ _ _ Rr Hr).
  - exact (relaxed_upper _ _ _ (relaxed_scaled _ _ Rl) Hl).
  - exact (relaxed_upper _ _ _ Rs Hn).
  - exact (relaxed_upper _ _ _ Rs Hp).
  - exact (relaxed_lower _ _ _ Rc Hcn).
  - exact (relaxed_lower _ _ _ Rc Hcp).
Qed.

Lemma relaxing_thresholds_keeps_candidates_witness :
  looser defaultConfig looseConfig /\
  acceptV0 sampleExt looseConfig (sampleV0 samplePos sampleNeg)
    sampleNeg samplePos sampleCollision = Returns true.
Proof.
  assert (Hl : looser defaultConfig looseConfig).
  { unfold looser, relaxed. simpl.
    repeat split; try reflexivity; right; vm_compute; discriminate. }
  split; [exact Hl | ].
  apply (relaxing_thresholds_keeps_candidates sampleExt defaultConfig
           looseConfig (sampleV0 samplePos sampleNeg) sampleNeg samplePos
           sampleCollision Hl).
  vm_compute. reflexivity.
Defined.

(** ** The two process functions on the same candidate *)

(** X11. [processMC] treats a candidate as [processData] treats the same
    candidate without its generated-particle links: the filter and
    [acceptV0] give the same result, and when the daughters are matched the
    fills of the three mass histograms and the first six coordinates of the
    fill of [thn_mass] are the same in both. *)
Theorem data_and_mc_agree (ext : External) (cfg : Config)
    (collision : Collision.t) (mcv0 : McV0.t) :
  let v0 := stripLabels (McV0.v0 mcv0) in
  v0Filter cfg (McV0.v0 mcv0) = v0Filter cfg v0 /\
  acceptMC ext cfg collision mcv0 = acceptData ext cfg collision v0 /\
  (acceptedMC ext cfg collision mcv0 ->
   (exists posMc negMc, daughtersMatched mcv0 posMc negMc) ->
   acceptedData ext cfg collision v0 /\
   commonFills (mcContribution ext cfg collision mcv0)
   = commonFills (dataContribution ext cfg collision v0)).
Proof.
  intros v0.
  assert (Ea : acceptMC ext cfg collision mcv0
               = acceptData ext cfg collision v0) by reflexivity.
  split; [reflexivity | split; [exact Ea | ]].
  intros Ha (p & n & Hm).
  assert (Hd : acceptedData ext cfg collision v0).
  { unfold acceptedData. fold (acceptData ext cfg collision v0).
    rewrite <- Ea. exact Ha. }
  split; [exact Hd | ].
  rewrite (mcContribution_matched ext cfg collision mcv0 p n Ha Hm).
  rewrite (dataContribution_accepted ext cfg collision v0 Hd).
  unfold commonFills, mcFills, dataFills, fill, v0.
  destruct (useMultidimHisto cfg), (enableTPCPlot cfg); reflexivity.
Qed.

Lemma data_and_mc_agree_witness :
  commonFills
    (mcContribution sampleExt (with_useMultidimHisto true defaultConfig)
       sampleCollision
       (sampleMcV0 (Some samplePosMc) (Some sampleNegMc) None))
  = commonFills
      (dataContribution sampleExt (with_useMultidimHisto true defaultConfig)
         sampleCollision (sampleV0 samplePos sampleNeg)).
Proof.
  apply (data_and_mc_agree sampleExt (with_useMultidimHisto true defaultConfig)
           sampleCollision
           (sampleMcV0 (Some samplePosMc) (Some sampleNegMc) None)).
  - vm_compute. reflexivity.
  - exists samplePosMc, sampleNegMc. repeat split.
Defined.

(** ** Entries of the histograms *)

Lemma count_fills_names (name : string) (d : Hists) :
  count_fills name d = count_occ string_dec (map f_name d) name.
Proof.
  unfold count_fills. induction d as [ | f d IH]; [reflexivity | ].
  cbn [filter map count_occ].
  destruct (String.eqb_spec (f_name f) name) as [E | E];
    destruct (string_dec (f_name f) name) as [E' | E'];
    try contradiction; simpl; rewrite IH; reflexivity.
Qed.

Lemma filter_length_andb {A : Type} (p q : A -> bool) (l : list A) :
  List.length (filter q (filter p l))
  = List.length (filter (fun x => p x && q x) l).
Proof.
  induction l as [ | x l IH]; [reflexivity | ].
  simpl. destruct (p x); simpl; [destruct (q x); simpl; rewrite IH | ];
    trivial.
Qed.

Lemma count_fills_per_candidate {A : Type} (name : string)
    (per : A -> Hists) (sel : A -> bool) (l : list A) :
  name <> "h1_events"%string ->
  (forall v, count_fills name (per v) = if sel v then 1%nat else 0%nat) ->
  count_fills name (flat_map (fun v => candidateTick :: per v) l)
  = List.length (filter sel l).
Proof.
  intros Hn Hper. induction l as [ | v l IH]; [reflexivity | ].
  cbn [flat_map filter].
  change ((candidateTick :: per v)
          ++ flat_map (fun v => candidateTick :: per v) l)
    with ([candidateTick] ++ per v
          ++ flat_map (fun v => candidateTick :: per v) l).
  rewrite !count_fills_app, (count_fills_candidateTick name Hn), Hper, IH.
  destruct (sel v); reflexivity.
Qed.

Lemma common_not_tick (name : string) :
  In name (commonMassHistograms ++ resolutionHistograms) ->
  name <> "h1_events"%string.
Proof.
  unfold commonMassHistograms, resolutionHistograms. simpl.
  intros H E. subst name.
  repeat (destruct H as [H | H]; [discriminate H | ]). exact H.
Qed.

Lemma dataContribution_count (ext : External) (cfg : Config)
    (collision : Collision.t) (v0 : V0Data.t Track.t) (name : string) :
  validSwitches cfg ->
  In name commonMassHistograms ->
  count_fills name (dataContribution ext cfg collision v0)
  = if returnsTrue (acceptData ext cfg collision v0) then 1%nat else 0%nat.
Proof.
  intros Hv Hn.
  destruct (dataContribution_shape ext cfg collision v0 Hv) as (_ & Ha & Hr).
  unfold acceptedData in Ha, Hr. unfold acceptData.
  destruct (acceptV0_valid_returns ext cfg v0 (V0Data.negTrack v0)
              (V0Data.posTrack v0) collision Hv) as [E | E]; rewrite E.
  - rewrite (Ha E), count_fills_names, dataFills_names.
    unfold dataFillNames, commonMassHistograms in *. simpl in Hn.
    destruct Hn as [<- | [<- | [<- | []]]];
      destruct (useMultidimHisto cfg), (enableTPCPlot cfg); reflexivity.
  - rewrite Hr; [reflexivity | rewrite E; discriminate].
Qed.

Lemma daughtersMatchedb_true (mcv0 : McV0.t) :
  daughtersMatchedb mcv0 = true <->
  exists posMc negMc, daughtersMatched mcv0 posMc negMc.
Proof.
  unfold daughtersMatchedb, daughtersMatched.
  destruct (McTrack.mcParticle (V0Data.posTrack (McV0.v0 mcv0))) as [p | ];
    [ | split; [discriminate | intros (p & n & H & _); discriminate H]].
  destruct (McTrack.mcParticle (V0Data.negTrack (McV0.v0 mcv0))) as [n | ];
    [ | split; [discriminate | intros (p' & n & _ & H & _); discriminate H]].
  rewrite andb_true_iff, !Z.eqb_eq. split.
  - intros [Hp Hn]. exists p, n. auto.
  - intros (p' & n' & Ep & En & Hp & Hn).
    injection Ep as <-. injection En as <-. auto.
Qed.

Lemma mcContribution_count (ext : External) (cfg : Config)
    (collision : Collision.t) (mcv0 : McV0.t) (name : string) :
  validSwitches cfg ->
  In name (commonMassHistograms ++ resolutionHistograms) ->
  count_fills name (mcContribution ext cfg collision mcv0)
  = if returnsTrue (acceptMC ext cfg collision mcv0)
       && daughtersMatchedb mcv0
    then 1%nat else 0%nat.
Proof.
  intros Hv Hn.
  destruct (mcContribution_shape ext cfg collision mcv0 Hv) as (_ & Ha & Hr).
  unfold acceptedMC in Ha, Hr. unfold acceptMC.
  destruct (acceptV0_valid_returns ext cfg (McV0.v0 mcv0)
              (McTrack.track (V0Data.negTrack (McV0.v0 mcv0)))
              (McTrack.track (V0Data.posTrack (McV0.v0 mcv0)))
              collision Hv) as [E | E]; rewrite E; simpl.
  - destruct (daughtersMatchedb mcv0) eqn:Em.
    + apply daughtersMatchedb_true in Em. destruct Em as (p & n & Hm).
      rewrite (Ha E p n Hm), count_fills_names, mcFills_names.
      unfold mcFillNames, commonMassHistograms, resolutionHistograms in *.
      simpl in Hn.
      repeat (destruct Hn as [<- | Hn];
              [destruct (useMultidimHisto cfg); reflexivity | ]).
      contradiction.
    + rewrite Hr; [reflexivity | right].
      destruct (matched_or_mismatched mcv0) as [Hm | Hm]; [ | exact Hm].
      apply daughtersMatchedb_true in Hm. congruence.
  - rewrite Hr; [reflexivity | left; rewrite E; discriminate].
Qed.

(** X12. With documented switch values, the histograms gain one entry per
    selected candidate: for a collision that passes the collision filters,
    [processData] adds to each of the three mass histograms as many
    entries as there are V0s that pass [v0Filter] and [acceptV0], and
    [processMC] adds to each of the three mass and ten resolution
    histograms as many entries as there are V0s that pass [v0Filter] and
    [acceptV0] and have matched daughters; for a collision that does not
    pass, nothing is added. *)
Theorem histogram_entries_count_selected (ext : External) (cfg : Config)
    (collision : Collision.t) (h : Hists) (name : string) :
  validSwitches cfg ->
  let passes := eventFilter cfg collision && posZFilter cfg collision in
  (In name commonMassHistograms ->
   forall v0s,
     count_fills name (hists_of (runData ext cfg collision v0s h))
     = (count_fills name h
        + if passes then
            List.length
              (filter (fun v0 => v0Filter cfg v0
                                 && returnsTrue (acceptData ext cfg collision v0))
                 v0s)
          else 0)%nat) /\
  (In name (commonMassHistograms ++ resolutionHistograms) ->
   forall v0s,
     count_fills name (hists_of (runMC ext cfg collision v0s h))
     = (count_fills name h
        + if passes then
            List.length
              (filter (fun v0 => v0Filter cfg (McV0.v0 v0)
                                 && (returnsTrue (acceptMC ext cfg collision v0)
                                     && daughtersMatchedb v0))
                 v0s)
          else 0)%nat).
Proof.
  intros Hv passes. split; intros Hn v0s.
  - assert (Ht : name <> "h1_events"%string)
      by (apply common_not_tick, in_or_app; left; exact Hn).
    unfold runData. fold passes. destruct passes; [ | simpl; lia].
    unfold processData, fill. cbv zeta.
    rewrite (for_each_finished _
               (fun v0 => candidateTick
                  :: dataContribution ext cfg collision v0))
      by (intros v0 _ g; apply dataContribution_shape, Hv).
    simpl hists_of. rewrite !count_fills_app.
    rewrite (count_fills_per_candidate name
               (dataContribution ext cfg collision)
               (fun v0 => returnsTrue (acceptData ext cfg collision v0)))
      by (trivial; intros v; apply dataContribution_count; assumption).
    rewrite filter_length_andb.
    assert (E : count_fills name
                  [{| f_registry := rK0sResolution; f_name := "h1_events";
                      f_coords := [Some (Num 0.5)] |}] = 0%nat).
    { unfold count_fills. cbn [filter f_name].
      destruct (String.eqb_spec "h1_events" name); [congruence | reflexivity]. }
    rewrite E. lia.
  - assert (Ht : name <> "h1_events"%string) by (apply common_not_tick, Hn).
    unfold runMC. fold passes. destruct passes; [ | simpl; lia].
    unfold processMC, fill. cbv zeta.
    rewrite (for_each_finished _
               (fun v0 => candidateTick
                  :: mcContribution ext cfg collision v0))
      by (intros v0 _ g; apply mcContribution_shape, Hv).
    simpl hists_of. rewrite !count_fills_app.
    rewrite (count_fills_per_candidate name
               (mcContribution ext cfg collision)
               (fun v0 => returnsTrue (acceptMC ext cfg collision v0)
                          && daughtersMatchedb v0))
      by (trivial; intros v; apply mcContribution_count; assumption).
    rewrite (filter_length_andb (fun v0 => v0Filter cfg (McV0.v0 v0))).
    assert (E : count_fills name
                  [{| f_registry := rK0sResolution; f_name := "h1_events";
                      f_coords := [Some (Num 0.5)] |}] = 0%nat).
    { unfold count_fills. cbn [filter f_name].
      destruct (String.eqb_spec "h1_events" name); [congruence | reflexivity]. }
    rewrite E. lia.
Qed.

Lemma histogram_entries_count_selected_witness :
  count_fills "h2_masspT"
    (hists_of (runData sampleExt defaultConfig sampleCollision
                 [sampleV0 samplePos sampleNeg;
                  lowRadiusV0 samplePos sampleNeg] []))
  = 1%nat.
Proof.
  apply (histogram_entries_count_selected sampleExt defaultConfig
           sampleCollision [] "h2_masspT").
  - valid_switches.
  - simpl. auto.
Defined.

(** ** Residuals of an exact reconstruction *)

Lemma fdiv_zero (a b : float) :
  (a == b)%F -> ~ (b == 0)%F ->
  exists q, fdiv (a - b)%F b = Some (Num q) /\ (q == 0)%Q.
Proof.
  destruct a as [x | ], b as [y | ]; simpl; try contradiction.
  intros E Hn. unfold fdiv. simpl.
  destruct (Qeq_bool y 0) eqn:Ey.
  - apply Qeq_bool_iff in Ey. contradiction.
  - eexists. split; [reflexivity | ].
    rewrite E. unfold Qminus. rewrite Qplus_opp_r.
    unfold Qdiv. apply Qmult_0_l.
Qed.

(** X13. When the reconstructed [pt], [px], [py], [pz] of both daughters
    equal the generated ones and these are not zero, the eight relative
    residuals that [processMC] fills for the candidate are zero. *)
Theorem exact_reconstruction_zero_residuals (ext : External) (cfg : Config)
    (mcv0 : McV0.t) (posMc negMc : McParticle.t) :
  let v0 := McV0.v0 mcv0 in
  (V0Data.positivept v0 == McParticle.pt posMc)%F ->
  (V0Data.pxpos v0 == McParticle.px posMc)%F ->
  (V0Data.pypos v0 == McParticle.py posMc)%F ->
  (V0Data.pzpos v0 == McParticle.pz posMc)%F ->
  (V0Data.negativept v0 == McParticle.pt negMc)%F ->
  (V0Data.pxneg v0 == McParticle.px negMc)%F ->
  (V0Data.pyneg v0 == McParticle.py negMc)%F ->
  (V0Data.pzneg v0 == McParticle.pz negMc)%F ->
  ~ (McParticle.pt posMc == 0)%F -> ~ (McParticle.px posMc == 0)%F ->
  ~ (McParticle.py posMc == 0)%F -> ~ (McParticle.pz posMc == 0)%F ->
  ~ (McParticle.pt negMc == 0)%F -> ~ (McParticle.px negMc == 0)%F ->
  ~ (McParticle.py negMc == 0)%F -> ~ (McParticle.pz negMc == 0)%F ->
  forall f,
    In f (mcFills ext cfg mcv0 posMc negMc []) ->
    In (f_name f) (firstn 8 resolutionHistograms) ->
    zeroFirst f.
Proof.
  intros v0 E1 E2 E3 E4 E5 E6 E7 E8 N1 N2 N3 N4 N5 N6 N7 N8 f Hf Hn.
  unfold mcFills, fill in Hf. fold v0 in Hf. cbv zeta in Hf.
  assert (Hz : forall a b, (a == b)%F -> ~ (b == 0)%F -> forall x name,
             zeroFirst (mkFill rK0sDauResolution name [fdiv (a - b)%F b; x])).
  { intros a b E N x name. destruct (fdiv_zero a b E N) as (q & Eq & Hq).
    exists q. simpl. rewrite Eq. auto. }
  destruct (useMultidimHisto cfg); simpl in Hf;
    repeat (destruct Hf as [<- | Hf]; [auto | ]);
    try contradiction;
    simpl in Hn;
    repeat (destruct Hn as [Hn | Hn]; [discriminate Hn | ]);
    contradiction.
Qed.

Lemma exact_reconstruction_zero_residuals_witness :
  zeroFirst
    (mkFill rK0sDauResolution "h2_genPyNegPyRes"
       [fdiv (Num 0.15 - Num 0.15)%F (Num 0.15); Some (Num 0.15)]).
Proof.
  apply (exact_reconstruction_zero_residuals sampleExt defaultConfig
           (sampleMcV0 (Some exactPosMc) (Some exactNegMc) None)
           exactPosMc exactNegMc);
    try (vm_compute; reflexivity);
    try (intros H; vm_compute in H; discriminate H).
  - simpl. auto 20.
  - simpl. auto 20.
Defined.
